(** * The wire game: level generation, kinematics, collision and game state

    A shallow embedding of the game core of the repository: the classes
    Character, LevelGenerator, CollisionDetector, InputHandler,
    AnimationEngine and GameManager, and the properties of them that the
    specification states.

    Numbers.  JavaScript numbers are modelled as reals extended with NaN
    ([jsnum]); NaN arises where the code computes 0/0 or does arithmetic
    on [undefined].  The operations of the model compute exactly where
    binary64 rounds.  A property of computed numbers is therefore stated
    through the operations of the model (scope [js]), as an inequality
    that holds with the rounding as well, or for whole numbers in the
    range where binary64 is exact.  In the one place where the rounding
    decides a count, [Math.floor(Math.random() * 3)], the model rounds
    as binary64 does ([floorTimes3]).  Wall-clock times in milliseconds
    are integers ([Z]).

    Randomness.  Every call of [Math.random()] reads the next value of an
    oracle [nat -> UnitR]; the type [UnitR] carries the contract
    0 <= r < 1 of [Math.random]. *)

From Stdlib Require Import Reals Lra Lia ZArith List String Bool Psatz.
Import ListNotations.

Open Scope R_scope.

(** ** JavaScript numbers *)

Inductive jsnum : Type :=
| Num (r : R)
| NaN.

Definition Rltb (a b : R) : bool := if Rlt_dec a b then true else false.

Module JS.

Definition add (a b : jsnum) : jsnum :=
  match a, b with Num u, Num v => Num (u + v) | _, _ => NaN end.

Definition sub (a b : jsnum) : jsnum :=
  match a, b with Num u, Num v => Num (u - v) | _, _ => NaN end.

Definition mul (a b : jsnum) : jsnum :=
  match a, b with Num u, Num v => Num (u * v) | _, _ => NaN end.

Definition neg (a : jsnum) : jsnum :=
  match a with Num u => Num (- u) | NaN => NaN end.

(** [a / b].  A zero divisor gives NaN, which is what JavaScript computes
    for 0/0.  (A non-zero number divided by zero is an infinity in
    JavaScript; the modelled code never does that: its divisors are
    non-zero constants, [numWaypoints + 1 >= 4], [length] under the guard
    [length > 0], and [steps], which is zero only when the numerator [t]
    is zero too.) *)
Definition div (a b : jsnum) : jsnum :=
  match a, b with
  | Num u, Num v => if Req_dec_T v 0 then NaN else Num (u / v)
  | _, _ => NaN
  end.

(** [Math.sqrt]: NaN on negative numbers. *)
Definition sqrt (a : jsnum) : jsnum :=
  match a with
  | Num u => if Rlt_dec u 0 then NaN else Num (R_sqrt.sqrt u)
  | NaN => NaN
  end.

(** [Math.floor]. *)
Definition floor (a : jsnum) : jsnum :=
  match a with Num u => Num (IZR (Zfloor u)) | NaN => NaN end.

(** [Math.pow(a, 2)]. *)
Definition pow2 (a : jsnum) : jsnum := mul a a.

(** Comparisons: every comparison with NaN is false. *)
Definition lt (a b : jsnum) : bool :=
  match a, b with Num u, Num v => Rltb u v | _, _ => false end.

Definition gt (a b : jsnum) : bool := lt b a.

(** ToNumber of a property read that may be [undefined] ([None]):
    arithmetic on [undefined] gives NaN. *)
Definition toNumber (v : option jsnum) : jsnum :=
  match v with Some a => a | None => NaN end.

End JS.

Declare Scope js_scope.
Delimit Scope js_scope with js.
Bind Scope js_scope with jsnum.
Infix "+" := JS.add : js_scope.
Infix "-" := JS.sub : js_scope.
Infix "*" := JS.mul : js_scope.
Infix "/" := JS.div : js_scope.
Infix "<?" := JS.lt : js_scope.
Infix ">?" := JS.gt : js_scope.

(** The oracle behind [Math.random()]: a number in [0, 1). *)
Record UnitR : Type := mkUnitR {
  uval :> R;
  uval_range : 0 <= uval < 1
}.

Definition Random := nat -> UnitR.

(** ** Plain data: points and rectangles *)

Module Point.
Record t : Type := mk { x : jsnum; y : jsnum }.
End Point.

Module Rect.
Record t : Type := mk { x : jsnum; y : jsnum; width : jsnum; height : jsnum }.
End Rect.

(** Outcome of code that may throw. *)
Inductive result (A : Type) : Type :=
| Ok (a : A)
| Thrown (message : string).
Arguments Ok {A} a.
Arguments Thrown {A} message.

(** ** Character (src/iraira-web-app/src/Character.js) *)

Module Character.

Record t : Type := mk {
  x : jsnum;
  y : jsnum;
  size : jsnum;
  direction : option string;   (* 'up', 'down', 'left', 'right', or null *)
  initialX : jsnum;
  initialY : jsnum
}.

(** [constructor(x, y, size)] *)
Definition new (x0 y0 size0 : jsnum) : t :=
  mk x0 y0 size0 None x0 y0.

Definition validDirections : list string :=
  ["up"; "down"; "left"; "right"]%string.

(** [setDirection(direction)] *)
Definition setDirection (d : string) (c : t) : t :=
  if existsb (String.eqb d) validDirections
  then mk (x c) (y c) (size c) (Some d) (initialX c) (initialY c)
  else c.

(** [update(speed)] *)
Definition update (speed : jsnum) (c : t) : t :=
  match direction c with
  | None => c
  | Some d =>
      if String.eqb d "up" then
        mk (x c) (y c - speed)%js (size c) (direction c) (initialX c) (initialY c)
      else if String.eqb d "down" then
        mk (x c) (y c + speed)%js (size c) (direction c) (initialX c) (initialY c)
      else if String.eqb d "left" then
        mk (x c - speed)%js (y c) (size c) (direction c) (initialX c) (initialY c)
      else if String.eqb d "right" then
        mk (x c + speed)%js (y c) (size c) (direction c) (initialX c) (initialY c)
      else c
  end.

(** [getPosition()] *)
Definition getPosition (c : t) : Point.t := Point.mk (x c) (y c).

(** [getBounds()] *)
Definition getBounds (c : t) : Rect.t := Rect.mk (x c) (y c) (size c) (size c).

(** [reset(x, y)]: an omitted argument is [undefined], here [None]. *)
Definition reset (ox oy : option jsnum) (c : t) : t :=
  match ox, oy with
  | Some nx, Some ny => mk nx ny (size c) None nx ny
  | _, _ => mk (initialX c) (initialY c) (size c) None (initialX c) (initialY c)
  end.

(** The operations of the class, for talking about arbitrary histories. *)
Inductive op : Type :=
| OpSetDirection (d : string)
| OpUpdate (speed : jsnum)
| OpReset (ox oy : option jsnum).

Definition apply (o : op) (c : t) : t :=
  match o with
  | OpSetDirection d => setDirection d c
  | OpUpdate s => update s c
  | OpReset ox oy => reset ox oy c
  end.

Definition run (ops : list op) (c : t) : t :=
  fold_left (fun acc o => apply o acc) ops c.

End Character.

(** ** LevelGenerator (src/iraira-web-app/src/LevelGenerator.js) *)

Module LevelGenerator.

(** What [this.difficultySettings[difficulty]] can evaluate to: an entry
    of the table, or a member of [Object.prototype] found through the
    prototype chain of the object literal (a function or an object, so a
    truthy value without [pathWidth] and [characterSpeed]). *)
Inductive SettingsValue : Type :=
| OwnSettings (pathWidth characterSpeed : jsnum)
| Inherited (name : string).

Definition difficultySettings : list (string * SettingsValue) :=
  [ ("easy", OwnSettings (Num 100) (Num 2));
    ("medium", OwnSettings (Num 60) (Num 3));
    ("hard", OwnSettings (Num 40) (Num 4));
    ("super-hard", OwnSettings (Num 30) (Num 6)) ]%string.

(** The property names of [Object.prototype]. *)
Definition objectPrototypeKeys : list string :=
  [ "constructor"; "__defineGetter__"; "__defineSetter__"; "hasOwnProperty";
    "__lookupGetter__"; "__lookupSetter__"; "isPrototypeOf";
    "propertyIsEnumerable"; "toString"; "valueOf"; "__proto__";
    "toLocaleString" ]%string.

Fixpoint assoc {A : Type} (key : string) (l : list (string * A)) : option A :=
  match l with
  | [] => None
  | (k, v) :: rest => if String.eqb key k then Some v else assoc key rest
  end.

(** The property read [this.difficultySettings[key]]; [None] is
    [undefined]. *)
Definition getProperty (key : string) : option SettingsValue :=
  match assoc key difficultySettings with
  | Some v => Some v
  | None =>
      if existsb (String.eqb key) objectPrototypeKeys
      then Some (Inherited key)
      else None
  end.

Record t : Type := mk {
  width : R;                    (* the canvas size: finite numbers *)
  height : R;
  difficulty : string;
  settings : SettingsValue;
  walls : list Rect.t;
  path : list Point.t;
  startPosition : option Point.t;
  goalPosition : option Point.t;
  waypoints : list Point.t
}.

(** [constructor(width, height, difficulty)]: every value [getProperty]
    finds is truthy, so the constructor throws exactly on [undefined]. *)
Definition new (w h : R) (d : string) : result t :=
  match getProperty d with
  | None => Thrown ("Invalid difficulty: " ++ d)
  | Some s => Ok (mk w h d s [] [] None None [])
  end.

(** [this.settings.pathWidth] and [this.settings.characterSpeed];
    [None] is [undefined]. *)
Definition getPathWidth (g : t) : option jsnum :=
  match settings g with
  | OwnSettings pw _ => Some pw
  | Inherited _ => None
  end.

Definition getCharacterSpeed (g : t) : option jsnum :=
  match settings g with
  | OwnSettings _ cs => Some cs
  | Inherited _ => None
  end.

Definition getWalls (g : t) : list Rect.t := walls g.
Definition getStartPosition (g : t) : option Point.t := startPosition g.
Definition getGoalPosition (g : t) : option Point.t := goalPosition g.
Definition getPath (g : t) : list Point.t := path g.
Definition getWaypoints (g : t) : list Point.t := waypoints g.

Definition set_waypoints (l : list Point.t) (g : t) : t :=
  mk (width g) (height g) (difficulty g) (settings g) (walls g) (path g)
     (startPosition g) (goalPosition g) l.

Definition set_path (l : list Point.t) (g : t) : t :=
  mk (width g) (height g) (difficulty g) (settings g) (walls g) l
     (startPosition g) (goalPosition g) (waypoints g).

Definition set_walls (l : list Rect.t) (g : t) : t :=
  mk (width g) (height g) (difficulty g) (settings g) l (path g)
     (startPosition g) (goalPosition g) (waypoints g).

Definition set_positions (s e : option Point.t) (g : t) : t :=
  mk (width g) (height g) (difficulty g) (settings g) (walls g) (path g)
     s e (waypoints g).

(** *** generateWaypoints

    [k] is the index of the next oracle value; each function returns the
    index it leaves behind. *)

(** The body of [for (let i = 1; i <= numWaypoints; i++)], [n] iterations
    left, loop variable [i]. *)
Fixpoint waypointLoop (rnd : Random) (h : R) (segmentWidth : jsnum)
         (i n k : nat) : list Point.t * nat :=
  match n with
  | O => ([], k)
  | S n' =>
      let px := (Num 50 + segmentWidth * Num (INR i)
                 + (Num (rnd k) - Num 0.5) * Num 50)%js in
      let py := (Num 100 + Num (rnd (S k)) * (Num h - Num 200))%js in
      let (rest, k') := waypointLoop rnd h segmentWidth (S i) n' (S (S k)) in
      (Point.mk px py :: rest, k')
  end.

(** [Math.floor(r * 3)] for [r] in [[0, 1)].  The product is rounded to
    binary64 before the floor is taken: rounding to nearest, ties to
    even, takes a product of at least [1 - 2^-54] up to 1 and a product
    of at least [2 - 2^-53] up to 2, and moves no other product across
    an integer. *)
Definition floorTimes3 (r : R) : Z :=
  if Rltb (r * 3) (1 - / 18014398509481984) then 0%Z
  else if Rltb (r * 3) (2 - / 9007199254740992) then 1%Z
  else 2%Z.

(** [3 + Math.floor(Math.random() * 3)] *)
Definition numWaypoints (r : R) : Z := (3 + floorTimes3 r)%Z.

Definition generateWaypoints (rnd : Random) (k : nat) (g : t) : t * nat :=
  let startX := Num 50 in
  let startY := (Num (height g) / Num 2)%js in
  let n := numWaypoints (rnd k) in
  let segmentWidth :=
    ((Num (width g) - Num 150) / (Num (IZR n) + Num 1))%js in
  let (inner, k') :=
    waypointLoop rnd (height g) segmentWidth 1 (Z.to_nat n) (S k) in
  let goalX := (Num (width g) - Num 50)%js in
  let goalY := (Num 100 + Num (rnd k') * (Num (height g) - Num 200))%js in
  (set_waypoints (Point.mk startX startY :: inner ++ [Point.mk goalX goalY]) g,
   S k').

(** *** generatePath *)

(** Number of iterations of [for (let t = 0; t <= bound; t++)]. *)
Definition loopCount (bound : jsnum) : nat :=
  match bound with
  | Num b => Z.to_nat (Zfloor b + 1)
  | NaN => O
  end.

(** The quadratic Bezier expression of the source, for one coordinate. *)
Definition bezier (a m b ratio : jsnum) : jsnum :=
  (JS.pow2 (Num 1 - ratio) * a
   + Num 2 * (Num 1 - ratio) * ratio * m
   + JS.pow2 ratio * b)%js.

(** The body of [for (let t = 0; t <= steps; t++)]: the path point of
    step [t], computed with the oracle values [k] and [k + 1]. *)
Definition pathPoint (rnd : Random) (start end_ : Point.t) (steps : jsnum)
           (t k : nat) : Point.t :=
  let ratio := (Num (INR t) / steps)%js in
  let midX := ((Point.x start + Point.x end_) / Num 2
               + (Num (rnd k) - Num 0.5) * Num 30)%js in
  let midY := ((Point.y start + Point.y end_) / Num 2
               + (Num (rnd (S k)) - Num 0.5) * Num 30)%js in
  Point.mk (bezier (Point.x start) midX (Point.x end_) ratio)
           (bezier (Point.y start) midY (Point.y end_) ratio).

(** The loop [for (let t = 0; t <= steps; t++)], [n] iterations left. *)
Fixpoint stepLoop (rnd : Random) (start end_ : Point.t) (steps : jsnum)
         (t n k : nat) : list Point.t * nat :=
  match n with
  | O => ([], k)
  | S n' =>
      let (rest, k') := stepLoop rnd start end_ steps (S t) n' (S (S k)) in
      (pathPoint rnd start end_ steps t k :: rest, k')
  end.

(** [Math.floor(Math.sqrt(Math.pow(end.x - start.x, 2)
                          + Math.pow(end.y - start.y, 2)) / 5)] *)
Definition stepsBetween (start end_ : Point.t) : jsnum :=
  JS.floor (JS.sqrt (JS.pow2 (Point.x end_ - Point.x start)
                     + JS.pow2 (Point.y end_ - Point.y start))
            / Num 5)%js.

(** The loop over consecutive pairs of waypoints. *)
Fixpoint segmentLoop (rnd : Random) (wps : list Point.t) (k : nat)
  : list Point.t * nat :=
  match wps with
  | start :: ((end_ :: _) as rest) =>
      let steps := stepsBetween start end_ in
      let (seg, k1) := stepLoop rnd start end_ steps 0 (loopCount steps) k in
      let (more, k2) := segmentLoop rnd rest k1 in
      (seg ++ more, k2)
  | _ => ([], k)
  end.

Definition generatePath (rnd : Random) (k : nat) (g : t) : t * nat :=
  let (p, k') := segmentLoop rnd (waypoints g) k in
  (set_path p g, k').

(** *** generateWalls *)

Definition wallThickness : jsnum := Num 20.
Definition boundaryThickness : jsnum := Num 50.

(** The two wall squares placed beside the path point [current]. *)
Definition wallsAt (halfWidth : jsnum) (current next : Point.t) : list Rect.t :=
  let dx := (Point.x next - Point.x current)%js in
  let dy := (Point.y next - Point.y current)%js in
  let length := JS.sqrt (dx * dx + dy * dy)%js in
  if (length >? Num 0)%js then
    let perpX := (JS.neg dy / length)%js in
    let perpY := (dx / length)%js in
    let leftWallX :=
      (Point.x current + perpX * (halfWidth + wallThickness / Num 2))%js in
    let leftWallY :=
      (Point.y current + perpY * (halfWidth + wallThickness / Num 2))%js in
    let rightWallX :=
      (Point.x current - perpX * (halfWidth + wallThickness / Num 2))%js in
    let rightWallY :=
      (Point.y current - perpY * (halfWidth + wallThickness / Num 2))%js in
    [ Rect.mk (leftWallX - wallThickness / Num 2)%js
              (leftWallY - wallThickness / Num 2)%js
              wallThickness wallThickness;
      Rect.mk (rightWallX - wallThickness / Num 2)%js
              (rightWallY - wallThickness / Num 2)%js
              wallThickness wallThickness ]
  else [].

(** [for (let i = 0; i < this.path.length - 1; i++)] *)
Fixpoint wallLoop (halfWidth : jsnum) (p : list Point.t) : list Rect.t :=
  match p with
  | current :: ((next :: _) as rest) =>
      wallsAt halfWidth current next ++ wallLoop halfWidth rest
  | _ => []
  end.

(** The fence around the canvas: top, bottom, left, right. *)
Definition boundaryWalls (w h : R) : list Rect.t :=
  [ Rect.mk (Num 0) (Num 0) (Num w) boundaryThickness;
    Rect.mk (Num 0) (Num h - boundaryThickness)%js (Num w) boundaryThickness;
    Rect.mk (Num 0) (Num 0) boundaryThickness (Num h);
    Rect.mk (Num w - boundaryThickness)%js (Num 0) boundaryThickness (Num h) ].

Definition generateWalls (g : t) : t :=
  let halfWidth := (JS.toNumber (getPathWidth g) / Num 2)%js in
  set_walls (wallLoop halfWidth (path g) ++ boundaryWalls (width g) (height g)) g.

(** *** setStartAndGoalPositions *)

Definition setStartAndGoalPositions (g : t) : t :=
  match waypoints g with
  | first :: _ :: _ =>
      set_positions (Some first) (Some (last (waypoints g) first)) g
  | _ => g
  end.

(** [generate()]; [rnd] lists the values [Math.random()] returns during
    this call. *)
Definition generate (rnd : Random) (g : t) : t :=
  let (g1, k1) := generateWaypoints rnd 0 g in
  let (g2, _) := generatePath rnd k1 g1 in
  setStartAndGoalPositions (generateWalls g2).

End LevelGenerator.

(** ** CollisionDetector (src/iraira-web-app/src/CollisionDetector.js)

    The detector's [character] field is the very object the game manager
    holds in its own [character] field (the manager passes it to the
    constructor and never replaces it), so the methods below take the
    manager's character instead of a copy stored in the detector. *)

Module CollisionDetector.

Record t : Type := mk {
  walls : list Rect.t;
  goal : option Point.t;                 (* null when the level has no goal *)
  goalSize : jsnum;
  lastCollisionPoint : option Point.t
}.

(** [constructor(character, walls, goal)] *)
Definition new (ws : list Rect.t) (g : option Point.t) : t :=
  mk ws g (Num 30) None.

(** [boundingBoxCollision(rect1, rect2)] *)
Definition boundingBoxCollision (rect1 rect2 : Rect.t) : bool :=
  (Rect.x rect1 <? Rect.x rect2 + Rect.width rect2)%js &&
  (Rect.x rect1 + Rect.width rect1 >? Rect.x rect2)%js &&
  (Rect.y rect1 <? Rect.y rect2 + Rect.height rect2)%js &&
  (Rect.y rect1 + Rect.height rect1 >? Rect.y rect2)%js.

(** The loop of [checkWallCollision]: true at the first wall hit. *)
Fixpoint hitsAny (characterBounds : Rect.t) (ws : list Rect.t) : bool :=
  match ws with
  | [] => false
  | wall :: rest =>
      if boundingBoxCollision characterBounds wall then true
      else hitsAny characterBounds rest
  end.

(** [checkWallCollision()]: the result and the detector afterwards. *)
Definition checkWallCollision (c : Character.t) (d : t) : bool * t :=
  let characterBounds := Character.getBounds c in
  if hitsAny characterBounds (walls d) then
    (true,
     mk (walls d) (goal d) (goalSize d)
        (Some (Point.mk
                 (Rect.x characterBounds + Rect.width characterBounds / Num 2)%js
                 (Rect.y characterBounds + Rect.height characterBounds / Num 2)%js)))
  else (false, d).

(** The goal hit-box. *)
Definition goalBounds (p : Point.t) (d : t) : Rect.t :=
  Rect.mk (Point.x p - goalSize d / Num 2)%js
          (Point.y p - goalSize d / Num 2)%js
          (goalSize d) (goalSize d).

(** [checkGoalCollision()]: reading [this.goal.x] of a null goal is a
    TypeError. *)
Definition checkGoalCollision (c : Character.t) (d : t) : result bool :=
  match goal d with
  | Some p => Ok (boundingBoxCollision (Character.getBounds c) (goalBounds p d))
  | None => Thrown "TypeError"
  end.

Definition getCollisionPoint (d : t) : option Point.t := lastCollisionPoint d.

Definition updateWalls (ws : list Rect.t) (d : t) : t :=
  mk ws (goal d) (goalSize d) (lastCollisionPoint d).

Definition updateGoal (g : option Point.t) (d : t) : t :=
  mk (walls d) g (goalSize d) (lastCollisionPoint d).

Definition reset (d : t) : t :=
  mk (walls d) (goal d) (goalSize d) None.

End CollisionDetector.

(** ** InputHandler (src/iraira-web-app/src/InputHandler.js)

    [enabled] also stands for the registration of the key listeners. *)

Module InputHandler.

Record t : Type := mk {
  enabled : bool;
  currentDirection : option string
}.

Definition new : t := mk false None.

Definition enable (h : t) : t := mk true (currentDirection h).
Definition disable (h : t) : t := mk false (currentDirection h).
Definition reset (h : t) : t := mk (enabled h) None.

End InputHandler.

(** ** AnimationEngine (second class in src/iraira-web-app/src/InputHandler.js)

    The particle lists are drawing data only and are left out; what the
    game manager reads is [isAnimating] and the completion callback. *)

Module AnimationEngine.

(** The two closures the game manager passes as completion callbacks. *)
Inductive callback : Type :=
| ShowGameOverScreen
| ShowVictoryScreen.

Inductive kind : Type := Explosion | Victory.

Record t : Type := mk {
  isAnimating : bool;
  animationType : option kind;
  animationStartTime : Z;
  animationDuration : Z;
  animationCallback : option callback
}.

Definition new : t := mk false None 0%Z 0%Z None.

(** [playExplosion(x, y, callback)] at clock reading [now] *)
Definition playExplosion (now : Z) (cb : callback) (a : t) : t :=
  mk true (Some Explosion) now 1500%Z (Some cb).

(** [playVictory(x, y, callback)] at clock reading [now] *)
Definition playVictory (now : Z) (cb : callback) (a : t) : t :=
  mk true (Some Victory) now 2500%Z (Some cb).

Definition isPlaying (a : t) : bool := isAnimating a.

(** [_endAnimation()]: the engine afterwards and the callback it calls. *)
Definition endAnimation (a : t) : t * option callback :=
  (mk false None (animationStartTime a) (animationDuration a) None,
   animationCallback a).

(** [update(deltaTime)] at clock reading [now] *)
Definition update (now : Z) (a : t) : t * option callback :=
  if isAnimating a then
    if (animationDuration a <=? now - animationStartTime a)%Z
    then endAnimation a
    else (a, None)
  else (a, None).

(** The assignment [isAnimating = false] done by [restartGame]. *)
Definition stop (a : t) : t :=
  mk false (animationType a) (animationStartTime a) (animationDuration a)
     (animationCallback a).

End AnimationEngine.

(** ** GameManager (class GameManager in src/unnamed/part_006) *)

(** Sequencing of code that may throw.  A thrown exception ends the call;
    the partly updated state at the throw is not tracked. *)
Definition bind {A B : Type} (r : result A) (k : A -> result B) : result B :=
  match r with
  | Ok a => k a
  | Thrown m => Thrown m
  end.

Notation "x <- c ;; k" := (bind c (fun x => k))
  (at level 61, c at next level, right associativity).

(** The canvas element: its size, and what [canvas.getContext('2d')]
    returns, a drawing context ([true]) or null ([false]). *)
Module Canvas.
Record t : Type := mk { width : R; height : R; context2d : bool }.
End Canvas.

Module GameManager.

Inductive GameState : Type := Menu | Playing | Paused | GameOver | Victory.

Definition isPlayingState (s : GameState) : bool :=
  match s with Playing => true | _ => false end.

Definition isPausedState (s : GameState) : bool :=
  match s with Paused => true | _ => false end.

(** The custom DOM events the manager dispatches on [document]. *)
Inductive Event : Type :=
| GameOverEvent (score : Z) (difficulty : string)
| VictoryEvent (score : Z) (difficulty : string).

Record t : Type := mk {
  canvas : Canvas.t;
  difficulty : string;
  state : GameState;
  startTime : Z;
  currentTime : Z;
  score : Z;
  gameLoopId : bool;          (* true: a frame request id, false: null *)
  character : option Character.t;
  levelGenerator : option LevelGenerator.t;
  collisionDetector : option CollisionDetector.t;
  renderer : bool;            (* true: a Renderer, false: null *)
  animationEngine : option AnimationEngine.t;
  inputHandler : option InputHandler.t;
  dispatched : list Event     (* events dispatched so far, oldest first *)
}.

Definition with_state (v : GameState) (g : t) : t :=
  mk (canvas g) (difficulty g) v (startTime g) (currentTime g) (score g)
     (gameLoopId g) (character g) (levelGenerator g) (collisionDetector g)
     (renderer g) (animationEngine g) (inputHandler g) (dispatched g).

Definition with_startTime (v : Z) (g : t) : t :=
  mk (canvas g) (difficulty g) (state g) v (currentTime g) (score g)
     (gameLoopId g) (character g) (levelGenerator g) (collisionDetector g)
     (renderer g) (animationEngine g) (inputHandler g) (dispatched g).

Definition with_currentTime (v : Z) (g : t) : t :=
  mk (canvas g) (difficulty g) (state g) (startTime g) v (score g)
     (gameLoopId g) (character g) (levelGenerator g) (collisionDetector g)
     (renderer g) (animationEngine g) (inputHandler g) (dispatched g).

Definition with_score (v : Z) (g : t) : t :=
  mk (canvas g) (difficulty g) (state g) (startTime g) (currentTime g) v
     (gameLoopId g) (character g) (levelGenerator g) (collisionDetector g)
     (renderer g) (animationEngine g) (inputHandler g) (dispatched g).

Definition with_gameLoopId (v : bool) (g : t) : t :=
  mk (canvas g) (difficulty g) (state g) (startTime g) (currentTime g) (score g)
     v (character g) (levelGenerator g) (collisionDetector g)
     (renderer g) (animationEngine g) (inputHandler g) (dispatched g).

Definition with_character (v : option Character.t) (g : t) : t :=
  mk (canvas g) (difficulty g) (state g) (startTime g) (currentTime g) (score g)
     (gameLoopId g) v (levelGenerator g) (collisionDetector g)
     (renderer g) (animationEngine g) (inputHandler g) (dispatched g).

Definition with_levelGenerator (v : option LevelGenerator.t) (g : t) : t :=
  mk (canvas g) (difficulty g) (state g) (startTime g) (currentTime g) (score g)
     (gameLoopId g) (character g) v (collisionDetector g)
     (renderer g) (animationEngine g) (inputHandler g) (dispatched g).

Definition with_collisionDetector (v : option CollisionDetector.t) (g : t) : t :=
  mk (canvas g) (difficulty g) (state g) (startTime g) (currentTime g) (score g)
     (gameLoopId g) (character g) (levelGenerator g) v
     (renderer g) (animationEngine g) (inputHandler g) (dispatched g).

Definition with_animationEngine (v : option AnimationEngine.t) (g : t) : t :=
  mk (canvas g) (difficulty g) (state g) (startTime g) (currentTime g) (score g)
     (gameLoopId g) (character g) (levelGenerator g) (collisionDetector g)
     (renderer g) v (inputHandler g) (dispatched g).

Definition with_inputHandler (v : option InputHandler.t) (g : t) : t :=
  mk (canvas g) (difficulty g) (state g) (startTime g) (currentTime g) (score g)
     (gameLoopId g) (character g) (levelGenerator g) (collisionDetector g)
     (renderer g) (animationEngine g) v (dispatched g).

Definition with_dispatched (v : list Event) (g : t) : t :=
  mk (canvas g) (difficulty g) (state g) (startTime g) (currentTime g) (score g)
     (gameLoopId g) (character g) (levelGenerator g) (collisionDetector g)
     (renderer g) (animationEngine g) (inputHandler g) v.

(** [_initializeBrowserComponents()] and [_initializeTestComponents()],
    called by the constructor; [browser] says whether the component
    classes are defined globally, [rnd] is the oracle of the one
    [generate()] call.  The components are built in the order of the
    source: level generator, character, collision detector, then the
    renderer, whose constructor throws when the canvas gives no 2D
    context; the animation engine and the input handler come last and
    do not throw. *)
Definition new (browser : bool) (cv : option Canvas.t) (d : option string)
           (rnd : Random) : result t :=
  match cv with
  | None => Thrown "Canvas element is required"
  | Some c =>
      let diff := match d with Some s => s | None => "easy"%string end in
      if browser then
        lg0 <- LevelGenerator.new (Canvas.width c) (Canvas.height c) diff ;;
        let lg := LevelGenerator.generate rnd lg0 in
        match LevelGenerator.getStartPosition lg with
        | None => Thrown "TypeError"
        | Some startPos =>
            let ch := Character.new (Point.x startPos) (Point.y startPos) (Num 10) in
            let cd := CollisionDetector.new (LevelGenerator.getWalls lg)
                                           (LevelGenerator.getGoalPosition lg) in
            if Canvas.context2d c then
              Ok (mk c diff Menu 0%Z 0%Z 0%Z false (Some ch) (Some lg) (Some cd)
                     true (Some AnimationEngine.new) (Some InputHandler.new) [])
            else Thrown "Unable to get 2D context from canvas"
        end
      else
        Ok (mk c diff Menu 0%Z 0%Z 0%Z false None None None false None None [])
  end.

Definition getCurrentState (g : t) : GameState := state g.

(** [getCurrentScore()] *)
Definition getCurrentScore (g : t) : Z :=
  if isPlayingState (state g) then currentTime g else score g.

Definition getDifficulty (g : t) : string := difficulty g.

(** [_startGameLoop()] and [_stopGameLoop()] *)
Definition startGameLoop (g : t) : t :=
  if gameLoopId g then g else with_gameLoopId true g.

Definition stopGameLoop (g : t) : t :=
  if gameLoopId g then with_gameLoopId false g else g.

(** [_render()] draws on the canvas and changes no field. *)
Definition render (g : t) : t := g.

Definition on_inputHandler (f : InputHandler.t -> InputHandler.t) (g : t) : t :=
  match inputHandler g with
  | Some h => with_inputHandler (Some (f h)) g
  | None => g
  end.

(** Resetting the character to the level's start position, as
    [startGame] and [restartGame] do; reading [startPos.x] of a null
    start position is a TypeError. *)
Definition resetCharacterToStart (lg : LevelGenerator.t) (c : Character.t)
  : result Character.t :=
  match LevelGenerator.getStartPosition lg with
  | Some startPos =>
      Ok (Character.reset (Some (Point.x startPos)) (Some (Point.y startPos)) c)
  | None => Thrown "TypeError"
  end.

(** [startGame()] at clock reading [now] *)
Definition startGame (now : Z) (g : t) : result t :=
  let g := with_state Playing g in
  let g := with_score 0%Z (with_currentTime 0%Z (with_startTime now g)) in
  g <- match character g, levelGenerator g with
       | Some c, Some lg =>
           c' <- resetCharacterToStart lg c ;;
           Ok (with_character (Some c') g)
       | _, _ => Ok g
       end ;;
  let g := on_inputHandler InputHandler.enable g in
  Ok (startGameLoop g).

(** [pauseGame()] *)
Definition pauseGame (g : t) : t :=
  if isPlayingState (state g) then
    on_inputHandler InputHandler.disable (stopGameLoop (with_state Paused g))
  else g.

(** [resumeGame()] at clock reading [now] *)
Definition resumeGame (now : Z) (g : t) : t :=
  if isPausedState (state g) then
    let g := with_state Playing g in
    let pausedTime := (now - startTime g - currentTime g)%Z in
    let g := with_startTime (startTime g + pausedTime)%Z g in
    startGameLoop (on_inputHandler InputHandler.enable g)
  else g.

(** [restartGame()]; [rnd] is the oracle of its [generate()] call. *)
Definition restartGame (rnd : Random) (g : t) : result t :=
  let g := stopGameLoop g in
  let g := on_inputHandler InputHandler.disable g in
  let g := match animationEngine g with
           | Some a => with_animationEngine (Some (AnimationEngine.stop a)) g
           | None => g
           end in
  g <- match levelGenerator g with
       | Some lg0 =>
           let lg := LevelGenerator.generate rnd lg0 in
           let g := with_levelGenerator (Some lg) g in
           g <- match character g with
                | Some c =>
                    c' <- resetCharacterToStart lg c ;;
                    Ok (with_character (Some c') g)
                | None => Ok g
                end ;;
           Ok match collisionDetector g with
              | Some d =>
                  with_collisionDetector
                    (Some (CollisionDetector.reset
                             (CollisionDetector.updateGoal
                                (LevelGenerator.getGoalPosition lg)
                                (CollisionDetector.updateWalls
                                   (LevelGenerator.getWalls lg) d)))) g
              | None => g
              end
       | None => Ok g
       end ;;
  let g := on_inputHandler InputHandler.reset g in
  let g := with_state Menu g in
  Ok (with_score 0%Z (with_currentTime 0%Z (with_startTime 0%Z g))).

(** [_showGameOverScreen()] and [_showVictoryScreen()] *)
Definition showGameOverScreen (g : t) : t :=
  let g := render g in
  with_dispatched (dispatched g ++ [GameOverEvent (currentTime g) (difficulty g)]) g.

Definition showVictoryScreen (g : t) : t :=
  let g := render g in
  with_dispatched (dispatched g ++ [VictoryEvent (score g) (difficulty g)]) g.

Definition runCallback (cb : option AnimationEngine.callback) (g : t) : t :=
  match cb with
  | Some AnimationEngine.ShowGameOverScreen => showGameOverScreen g
  | Some AnimationEngine.ShowVictoryScreen => showVictoryScreen g
  | None => g
  end.

(** [handleGameOver()] at clock reading [now] *)
Definition handleGameOver (now : Z) (g : t) : t :=
  let g := with_state GameOver g in
  let g := on_inputHandler InputHandler.disable g in
  match animationEngine g, collisionDetector g with
  | Some a, Some d =>
      match CollisionDetector.getCollisionPoint d with
      | Some _ =>
          with_animationEngine
            (Some (AnimationEngine.playExplosion
                     now AnimationEngine.ShowGameOverScreen a)) g
      | None => showGameOverScreen g
      end
  | _, _ => showGameOverScreen g
  end.

(** [handleGoalReached()] at clock reading [now] *)
Definition handleGoalReached (now : Z) (g : t) : result t :=
  let g := with_state Victory g in
  let g := with_score (currentTime g) g in
  let g := on_inputHandler InputHandler.disable g in
  match animationEngine g, levelGenerator g with
  | Some a, Some lg =>
      match LevelGenerator.getGoalPosition lg with
      | Some _ =>
          Ok (with_animationEngine
                (Some (AnimationEngine.playVictory
                         now AnimationEngine.ShowVictoryScreen a)) g)
      | None => Thrown "TypeError"
      end
  | _, _ => Ok (showVictoryScreen g)
  end.

(** The movement step of [update]. *)
Definition moveCharacter (g : t) : t :=
  match character g, levelGenerator g with
  | Some c, Some lg =>
      let speed := JS.toNumber (LevelGenerator.getCharacterSpeed lg) in
      with_character (Some (Character.update speed c)) g
  | _, _ => g
  end.

(** The collision step of [update]: walls first, then the goal. *)
Definition detectCollisions (now : Z) (g : t) : result t :=
  match collisionDetector g with
  | Some d =>
      match character g with
      | Some c =>
          let (hitWall, d') := CollisionDetector.checkWallCollision c d in
          let g := with_collisionDetector (Some d') g in
          if hitWall then Ok (handleGameOver now g)
          else
            hitGoal <- CollisionDetector.checkGoalCollision c d' ;;
            if hitGoal then handleGoalReached now g
            else Ok (render g)
      | None => Thrown "TypeError"
      end
  | None => Ok (render g)
  end.

(** [update(deltaTime)] at clock reading [now].  [deltaTime] is only
    handed on to [AnimationEngine.update], which does not read it. *)
Definition update (now : Z) (g : t) : result t :=
  if negb (isPlayingState (state g)) then Ok g
  else
    let g := with_currentTime (now - startTime g)%Z g in
    match animationEngine g with
    | Some a =>
        if AnimationEngine.isPlaying a then
          let (a', cb) := AnimationEngine.update now a in
          Ok (render (runCallback cb (with_animationEngine (Some a') g)))
        else detectCollisions now (moveCharacter g)
    | None => detectCollisions now (moveCharacter g)
    end.

(** [gameLoop(timestamp)] at clock reading [now] *)
Definition gameLoop (now : Z) (g : t) : result t :=
  if negb (isPlayingState (state g)) then Ok g
  else
    g' <- update now g ;;
    Ok (with_gameLoopId true g').

(** [destroy()] *)
Definition destroy (g : t) : t :=
  let g := on_inputHandler InputHandler.disable (stopGameLoop g) in
  mk (canvas g) (difficulty g) (state g) (startTime g) (currentTime g) (score g)
     (gameLoopId g) None None None false None None (dispatched g).

(** [InputHandler.setDirection(direction)], which writes through the
    handler's back reference into the manager's character. *)
Definition setDirection (d : string) (g : t) : t :=
  match inputHandler g with
  | Some h =>
      let g := with_inputHandler
                 (Some (InputHandler.mk (InputHandler.enabled h) (Some d))) g in
      match character g with
      | Some c => with_character (Some (Character.setDirection d c)) g
      | None => g
      end
  | None => g
  end.

End GameManager.

(** ** Vocabulary of the properties *)

(** Concrete oracles. *)
Definition unit0 : UnitR := mkUnitR 0 (conj (Rle_refl 0) Rlt_0_1).

Definition unitQuarter : UnitR := mkUnitR (1 / 4) ltac:(lra).
Definition unitHalf : UnitR := mkUnitR (1 / 2) ltac:(lra).

Definition rndZero : Random := fun _ => unit0.
Definition rndHalf : Random := fun _ => unitHalf.

(** An oracle that sends the path steeply upwards from the start point:
    the first inner waypoint comes out at (200, 100). *)
Definition rndSteep : Random :=
  fun k => if Nat.eqb k 2 then unit0 else unitQuarter.




(** The four difficulty tags. *)
Definition difficultyTags : list string :=
  ["easy"; "medium"; "hard"; "super-hard"]%string.




(** Start left of the horizontal midpoint of a canvas of width [w], goal
    right of it, as the code would test it. *)
Definition startLeftGoalRight (w : R) (g : LevelGenerator.t) : Prop :=
  exists s e : Point.t,
    LevelGenerator.getStartPosition g = Some s /\
    LevelGenerator.getGoalPosition g = Some e /\
    (Point.x s <? Num w / Num 2)%js = true /\
    (Point.x e >? Num w / Num 2)%js = true.

(** The initial position a character has after a history of operations:
    the construction point, replaced by the point of every two-argument
    reset. *)
Definition initialAfter (ops : list Character.op) (p : jsnum * jsnum)
  : jsnum * jsnum :=
  fold_left
    (fun acc o =>
       match o with
       | Character.OpReset (Some nx) (Some ny) => (nx, ny)
       | _ => acc
       end)
    ops p.

(** A reset with both arguments given. *)
Definition fullReset (o : Character.op) : bool :=
  match o with
  | Character.OpReset (Some _) (Some _) => true
  | _ => false
  end.

(** Two rectangles that share an edge line: the right or bottom edge of one
    lies on the left or top edge of the other. *)
Definition edgeTouch (r1 r2 : Rect.t) : Prop :=
  (Rect.x r1 + Rect.width r1)%js = Rect.x r2 \/
  Rect.x r1 = (Rect.x r2 + Rect.width r2)%js \/
  (Rect.y r1 + Rect.height r1)%js = Rect.y r2 \/
  Rect.y r1 = (Rect.y r2 + Rect.height r2)%js.

(** No animation is in flight. *)
Definition animationIdle (g : GameManager.t) : bool :=
  match GameManager.animationEngine g with
  | Some a => negb (AnimationEngine.isPlaying a)
  | None => true
  end.

(** A frame loop that calls [update] at each clock reading of [nows]. *)
Fixpoint updates (nows : list Z) (g : GameManager.t) : result GameManager.t :=
  match nows with
  | [] => Ok g
  | now :: rest => g' <- GameManager.update now g ;; updates rest g'
  end.

(** What the specification describes for [start] while playing:
    [restart()] followed by [start()]. *)
Definition restartThenStart (rnd : Random) (now : Z) (g : GameManager.t)
  : result GameManager.t :=
  g' <- GameManager.restartGame rnd g ;; GameManager.startGame now g'.

(** The canvas the tests of the game manager use. *)
Definition canvas800x600 : Canvas.t := Canvas.mk 800 600 true.

(** A manager built in an environment without the component classes, as in
    the unit tests, after a run that ended at a wall. *)
Definition managerAfterCrash : GameManager.t :=
  GameManager.mk canvas800x600 "easy" GameManager.GameOver 1000 5000 0
                 true None None None false None None
                 [GameManager.GameOverEvent 5000 "easy"].

(** A playing manager whose character, standing still, overlaps both a
    wall and the goal hit-box. *)
Definition managerWallAndGoal : GameManager.t :=
  GameManager.mk canvas800x600 "easy" GameManager.Playing 1000 0 0
                 true
                 (Some (Character.new (Num 100) (Num 100) (Num 10)))
                 None
                 (Some (CollisionDetector.new
                          [Rect.mk (Num 95) (Num 95) (Num 20) (Num 20)]
                          (Some (Point.mk (Num 105) (Num 105)))))
                 false None None [].

(** The first run of a game on the 800 x 600 canvas at difficulty easy:
    the level the constructor generates with oracle [rnd], the manager the
    constructor returns, and the manager after [startGame] at time [t0]. *)
Definition easyLevel (rnd : Random) : LevelGenerator.t :=
  LevelGenerator.generate rnd
    (LevelGenerator.mk 800 600 "easy"
       (LevelGenerator.OwnSettings (Num 100) (Num 2)) [] [] None None []).

Definition freshManager (rnd : Random) : GameManager.t :=
  GameManager.mk canvas800x600 "easy" GameManager.Menu 0 0 0 false
    (Some (Character.new (Num 50) (Num (600 / 2)) (Num 10)))
    (Some (easyLevel rnd))
    (Some (CollisionDetector.new (LevelGenerator.getWalls (easyLevel rnd))
                                 (LevelGenerator.getGoalPosition (easyLevel rnd))))
    true (Some AnimationEngine.new) (Some InputHandler.new) [].

Definition startedManager (rnd : Random) (t0 : Z) : GameManager.t :=
  GameManager.mk canvas800x600 "easy" GameManager.Playing t0 0 0 true
    (Some (Character.new (Num 50) (Num (600 / 2)) (Num 10)))
    (Some (easyLevel rnd))
    (Some (CollisionDetector.new (LevelGenerator.getWalls (easyLevel rnd))
                                 (LevelGenerator.getGoalPosition (easyLevel rnd))))
    true (Some AnimationEngine.new) (Some (InputHandler.mk true None)) [].

(** A level generated for difficulty [tag] on a [w] x [h] canvas has path
    width [pw] and character speed [cs]. *)
Definition levelHas (w h : R) (rnd : Random) (tag : string) (pw cs : R) : Prop :=
  exists g : LevelGenerator.t,
    LevelGenerator.new w h tag = Ok g /\
    LevelGenerator.getPathWidth (LevelGenerator.generate rnd g) = Some (Num pw) /\
    LevelGenerator.getCharacterSpeed (LevelGenerator.generate rnd g) = Some (Num cs).

(** A run of finite points whose x-coordinates climb by at least 5 from
    one to the next, starting above [prev], stay at most [hi], and whose
    y-coordinates lie in [[yl, yh]]. *)
Fixpoint gapped (hi yl yh prev : R) (l : list Point.t) : Prop :=
  match l with
  | [] => True
  | p :: rest =>
      exists a b : R,
        p = Point.mk (Num a) (Num b) /\
        prev + 5 <= a /\ a <= hi /\ yl <= b <= yh /\
        gapped hi yl yh a rest
  end.

(** ** Key events (InputHandler.handleKeyDown)

    The handler's [gameManager] field is the manager that owns it, so the
    functions below take the manager. *)

Module KeyInput.

(** The table [keyMap] of [mapKeyToDirection]. *)
Definition keyMap : list (string * string) :=
  [ ("ArrowUp", "up"); ("ArrowDown", "down");
    ("ArrowLeft", "left"); ("ArrowRight", "right") ]%string.

(** What [keyMap[key] || null] evaluates to: a direction of the table, a
    member of [Object.prototype] found through the prototype chain (a
    truthy function or object), or null. *)
Inductive mapped : Type :=
| Direction (d : string)
| InheritedMember (name : string)
| NoDirection.

(** [mapKeyToDirection(key)] *)
Definition mapKeyToDirection (key : string) : mapped :=
  match LevelGenerator.assoc key keyMap with
  | Some d => Direction d
  | None =>
      if existsb (String.eqb key) LevelGenerator.objectPrototypeKeys
      then InheritedMember key
      else NoDirection
  end.

(** [shouldAcceptInput()] *)
Definition shouldAcceptInput (g : GameManager.t) : bool :=
  GameManager.isPlayingState (GameManager.getCurrentState g).

(** The manager after a key event.  [StoredInherited name g] is the one
    case the record of the handler cannot hold: the handler's
    [currentDirection] is now the inherited member [name] (not a string),
    and everything else is as in [g]; the character has ignored the value,
    which is no valid direction. *)
Inductive outcome : Type :=
| Done (g : GameManager.t)
| StoredInherited (name : string) (g : GameManager.t).

(** [handleKeyDown(event)] with [event.key = key] *)
Definition handleKeyDown (key : string) (g : GameManager.t) : outcome :=
  if negb (shouldAcceptInput g) then Done g
  else
    match mapKeyToDirection key with
    | Direction d => Done (GameManager.setDirection d g)
    | InheritedMember name => StoredInherited name g
    | NoDirection => Done g
    end.

(** A keydown event on the document: it reaches [handleKeyDown] while the
    listener is registered, that is, while the handler is enabled. *)
Definition keydown (key : string) (g : GameManager.t) : outcome :=
  match GameManager.inputHandler g with
  | Some h => if InputHandler.enabled h then handleKeyDown key g else Done g
  | None => Done g
  end.

End KeyInput.

(** ** Vocabulary of the further properties *)

(** [n] calls of [update(speed)] in a row. *)
Fixpoint updateN (n : nat) (speed : jsnum) (c : Character.t) : Character.t :=
  match n with
  | O => c
  | S n' => updateN n' speed (Character.update speed c)
  end.

(** A heading the character can hold: null or one of the four directions. *)
Definition validHeading (h : option string) : Prop :=
  match h with
  | None => True
  | Some d => In d Character.validDirections
  end.

(** A rectangle with NaN in one of its fields. *)
Definition hasNaN (r : Rect.t) : Prop :=
  Rect.x r = NaN \/ Rect.y r = NaN \/ Rect.width r = NaN \/ Rect.height r = NaN.

(** The centre of a character's square. *)
Definition centreOf (c : Character.t) : Point.t :=
  Point.mk (Character.x c + Character.size c / Num 2)%js
           (Character.y c + Character.size c / Num 2)%js.

(** The operations a caller can invoke on a manager. *)
Inductive managerOp : Type :=
| DoStart (now : Z)
| DoPause
| DoResume (now : Z)
| DoRestart (rnd : Random)
| DoUpdate (now : Z)
| DoGameLoop (now : Z)
| DoSetDirection (d : string)
| DoDestroy.

Definition applyOp (o : managerOp) (g : GameManager.t) : result GameManager.t :=
  match o with
  | DoStart now => GameManager.startGame now g
  | DoPause => Ok (GameManager.pauseGame g)
  | DoResume now => Ok (GameManager.resumeGame now g)
  | DoRestart rnd => GameManager.restartGame rnd g
  | DoUpdate now => GameManager.update now g
  | DoGameLoop now => GameManager.gameLoop now g
  | DoSetDirection d => Ok (GameManager.setDirection d g)
  | DoDestroy => Ok (GameManager.destroy g)
  end.

Fixpoint runOps (ops : list managerOp) (g : GameManager.t) : result GameManager.t :=
  match ops with
  | [] => Ok g
  | o :: rest => g' <- applyOp o g ;; runOps rest g'
  end.

(** The components of a manager fit together: a level generator has its
    start and goal set, and a collision detector has a goal and comes with
    a character. *)
Definition wellFormed (g : GameManager.t) : Prop :=
  (forall lg, GameManager.levelGenerator g = Some lg ->
              LevelGenerator.getStartPosition lg <> None /\
              LevelGenerator.getGoalPosition lg <> None) /\
  (forall d, GameManager.collisionDetector g = Some d ->
             CollisionDetector.goal d <> None /\
             GameManager.character g <> None).

(** A playing manager without level generator and animation engine whose
    character, standing still, overlaps the goal hit-box and no wall. *)
Definition managerAtGoal : GameManager.t :=
  GameManager.mk canvas800x600 "easy" GameManager.Playing 1000 0 0
                 true
                 (Some (Character.new (Num 100) (Num 100) (Num 10)))
                 None
                 (Some (CollisionDetector.new
                          [Rect.mk (Num 0) (Num 0) (Num 50) (Num 600)]
                          (Some (Point.mk (Num 105) (Num 105)))))
                 false None None [].

(** An operation of the frame loop: [update] or [gameLoop]. *)
Definition isTick (o : managerOp) : bool :=
  match o with
  | DoUpdate _ | DoGameLoop _ => true
  | _ => false
  end.

(** [managerWallAndGoal] with an idle animation engine, as the browser
    build has one. *)
Definition managerWallWithEngine : GameManager.t :=
  GameManager.with_animationEngine (Some AnimationEngine.new) managerWallAndGoal.

(** The manager of an outcome of a key event. *)
Definition managerOf (o : KeyInput.outcome) : GameManager.t :=
  match o with
  | KeyInput.Done g => g
  | KeyInput.StoredInherited _ g => g
  end.

(** A frame loop of the animation engine: [update] at each clock reading,
    with the callbacks it has called, oldest first. *)
Fixpoint animate (nows : list Z) (a : AnimationEngine.t)
  : AnimationEngine.t * list AnimationEngine.callback :=
  match nows with
  | [] => (a, [])
  | now :: rest =>
      let (a', cb) := AnimationEngine.update now a in
      let (a'', cbs) := animate rest a' in
      (a'', match cb with Some c => c :: cbs | None => cbs end)
  end.

(** ** Name validation (the utility functions at the head of
    src/unnamed/part_006)

    A JS string is its sequence of UTF-16 code units: [length] counts
    them, and the regular expression of [sanitizeName] has no [u] flag,
    so it tests code units as well. *)

Module NameValidation.

Definition jsstring : Type := list N.

(** What a caller may pass as [name]: a string or a value of another
    type. *)
Inductive value : Type :=
| Str (s : jsstring)
| NotStr.

(** The message texts of the file, which are Japanese string constants:
    "the name must be a string", "the name must have 1 character or
    more", "the name must have 20 characters or fewer", "an error
    occurred while processing the name" and the generic text of
    [generateErrorMessage]. *)
Inductive message : Type :=
| MustBeString
| TooShort
| TooLong
| ProcessingFailed
| GenericFailure.

(** A thrown error: a [ValidationError] or an error of another class. *)
Inductive thrown : Type :=
| ValidationError (m : message)
| OtherError.

Inductive outcome (A : Type) : Type :=
| Returns (a : A)
| Throws (e : thrown).

Arguments Returns {A} a.
Arguments Throws {A} e.

(** The code units [String.prototype.trim] strips: WhiteSpace (TAB, VT,
    FF, SP, NBSP, ZWNBSP and the other space separators) and
    LineTerminator (LF, CR, LS, PS). *)
Definition isWhiteSpace (c : N) : bool :=
  ((c =? 9) || (c =? 10) || (c =? 11) || (c =? 12) || (c =? 13) ||
   (c =? 32) || (c =? 160) || (c =? 5760) ||
   ((8192 <=? c) && (c <=? 8202)) ||
   (c =? 8232) || (c =? 8233) || (c =? 8239) || (c =? 8287) ||
   (c =? 12288) || (c =? 65279))%N.

Fixpoint trimStart (s : jsstring) : jsstring :=
  match s with
  | [] => []
  | c :: rest => if isWhiteSpace c then trimStart rest else s
  end.

Definition trimEnd (s : jsstring) : jsstring := rev (trimStart (rev s)).

(** [s.trim()] *)
Definition trim (s : jsstring) : jsstring := trimEnd (trimStart s).

(** The character class [a-zA-Z0-9 \-_]. *)
Definition allowed (c : N) : bool :=
  (((97 <=? c) && (c <=? 122)) || ((65 <=? c) && (c <=? 90)) ||
   ((48 <=? c) && (c <=? 57)) || (c =? 32) || (c =? 45) || (c =? 95))%N.

(** [validateNameLength(name)] *)
Definition validateNameLength (name : value) : outcome bool :=
  match name with
  | NotStr => Throws (ValidationError MustBeString)
  | Str s =>
      let trimmedName := trim s in
      if (List.length trimmedName <? 1)%nat
      then Throws (ValidationError TooShort)
      else if (20 <? List.length trimmedName)%nat
           then Throws (ValidationError TooLong)
           else Returns true
  end.

(** [sanitizeName(name)] *)
Definition sanitizeName (name : value) : outcome jsstring :=
  match name with
  | NotStr => Throws (ValidationError MustBeString)
  | Str s =>
      let sanitized := filter allowed s in
      let trimmed := trim sanitized in
      match validateNameLength (Str trimmed) with
      | Returns _ => Returns trimmed
      | Throws e => Throws e
      end
  end.

(** [generateErrorMessage(error)] *)
Definition generateErrorMessage (e : thrown) : message :=
  match e with
  | ValidationError m => m
  | OtherError => GenericFailure
  end.

(** [validateAndSanitizeName(name)]: the [try] body, then the [catch]. *)
Definition validateAndSanitizeName (name : value) : outcome jsstring :=
  let body :=
    match sanitizeName name with
    | Returns sanitized =>
        match validateNameLength (Str sanitized) with
        | Returns _ => Returns sanitized
        | Throws e => Throws e
        end
    | Throws e => Throws e
    end in
  match body with
  | Returns sanitized => Returns sanitized
  | Throws (ValidationError m) => Throws (ValidationError m)
  | Throws OtherError => Throws (ValidationError ProcessingFailed)
  end.

End NameValidation.

(** A name as the sanitizer leaves it: allowed characters only, no
    white space at either end, 1 to 20 code units. *)
Definition cleanName (s : NameValidation.jsstring) : Prop :=
  forallb NameValidation.allowed s = true /\
  NameValidation.trim s = s /\
  (1 <= List.length s <= 20)%nat.

(** Proof steps used again and again. *)

(** Split a manager into its fields. *)
Ltac destruct_manager g :=
  destruct g as [g_canvas g_difficulty g_state g_startTime g_currentTime
                 g_score g_loop g_character g_level g_detector g_renderer
                 g_animation g_input g_events].

(** Give a pair-valued call that was destructed its projections back. *)
Ltac refold_fst l E :=
  match type of E with
  | ?call = (l, _) => replace l with (fst call) by (rewrite E; reflexivity)
  end.

(** * Properties *)

(** ** JavaScript numbers *)

Lemma Rltb_true (a b : R) : Rltb a b = true <-> a < b.
Proof.
  unfold Rltb. destruct (Rlt_dec a b) as [H | H]; split; intro E;
    try reflexivity; try assumption; try discriminate; contradiction.
Qed.

Lemma Rltb_false (a b : R) : Rltb a b = false <-> b <= a.
Proof.
  unfold Rltb. destruct (Rlt_dec a b) as [H | H]; split; intro E;
    try reflexivity; try discriminate; lra.
Qed.

Lemma lt_Num (a b : R) : (Num a <? Num b)%js = true <-> a < b.
Proof. apply Rltb_true. Qed.

Lemma gt_Num (a b : R) : (Num a >? Num b)%js = true <-> b < a.
Proof. apply Rltb_true. Qed.

Lemma lt_irrefl (a : jsnum) : (a <? a)%js = false.
Proof.
  destruct a as [u |]; simpl; [| reflexivity].
  apply Rltb_false. lra.
Qed.

Lemma div_Num (u v : R) : v <> 0 -> (Num u / Num v)%js = Num (u / v).
Proof.
  intro H. unfold JS.div. destruct (Req_dec_T v 0); [contradiction | reflexivity].
Qed.

Lemma sqrt_Num (u : R) : 0 <= u -> JS.sqrt (Num u) = Num (sqrt u).
Proof.
  intro H. unfold JS.sqrt. destruct (Rlt_dec u 0); [lra | reflexivity].
Qed.

(** ** Character *)

Lemma setDirection_initial (d : string) (c : Character.t) :
  Character.initialX (Character.setDirection d c) = Character.initialX c /\
  Character.initialY (Character.setDirection d c) = Character.initialY c.
Proof.
  unfold Character.setDirection.
  destruct (existsb (String.eqb d) Character.validDirections); split; reflexivity.
Qed.

Lemma update_initial (s : jsnum) (c : Character.t) :
  Character.initialX (Character.update s c) = Character.initialX c /\
  Character.initialY (Character.update s c) = Character.initialY c.
Proof.
  unfold Character.update.
  destruct (Character.direction c) as [d |]; [| split; reflexivity].
  repeat match goal with
         | |- context [if ?b then _ else _] => destruct b
         end; split; reflexivity.
Qed.

(** The stored initial position follows the two-argument resets. *)
Lemma run_initial (ops : list Character.op) (c : Character.t) :
  (Character.initialX (Character.run ops c),
   Character.initialY (Character.run ops c))
  = initialAfter ops (Character.initialX c, Character.initialY c).
Proof.
  revert c. induction ops as [| o ops IH]; intro c; [reflexivity |].
  change (Character.run (o :: ops) c)
    with (Character.run ops (Character.apply o c)).
  rewrite IH. unfold initialAfter at 2. simpl fold_left.
  fold (initialAfter ops). f_equal.
  destruct o as [d | s | ox oy]; simpl.
  - destruct (setDirection_initial d c) as [-> ->]. reflexivity.
  - destruct (update_initial s c) as [-> ->]. reflexivity.
  - destruct ox as [nx |], oy as [ny |]; reflexivity.
Qed.


(** C7 as the specification states it fails: after [reset(5, 5)], a
    [reset()] without arguments puts a character built at (0, 0) at (5, 5),
    not at its construction point. *)
Lemma reset_forgets_construction_point :
  let c := Character.run [Character.OpReset (Some (Num 5)) (Some (Num 5))]
                         (Character.new (Num 0) (Num 0) (Num 10)) in
  Character.getPosition (Character.reset None None c)
  = Point.mk (Num 5) (Num 5) /\
  Character.getPosition (Character.reset None None c)
  <> Character.getPosition (Character.new (Num 0) (Num 0) (Num 10)).
Proof.
  simpl. split; [reflexivity |].
  unfold Character.getPosition. simpl. intro H.
  injection H as H _. lra.
Qed.

(** The initial position after a history: the construction point when the
    history has no two-argument reset, else the point of the latest one. *)
Lemma initialAfter_cases (ops : list Character.op) (p : jsnum * jsnum) :
  (existsb fullReset ops = false /\ initialAfter ops p = p) \/
  (exists ops1 nx ny ops2,
      ops = ops1 ++ Character.OpReset (Some nx) (Some ny) :: ops2 /\
      existsb fullReset ops2 = false /\
      initialAfter ops p = (nx, ny)).
Proof.
  revert p. induction ops as [| o ops IH]; intro p.
  - left. split; reflexivity.
  - destruct (fullReset o) eqn:Ho.
    + destruct o as [d | s | [nx |] [ny |]]; try discriminate Ho.
      destruct (IH (nx, ny)) as [[Hn E] | (o1 & ax & ay & o2 & E1 & Hn & E2)].
      * right. exists [], nx, ny, ops. repeat split; assumption.
      * right. exists (Character.OpReset (Some nx) (Some ny) :: o1), ax, ay, o2.
        repeat split; [rewrite E1; reflexivity | assumption | exact E2].
    + assert (Hstep : initialAfter (o :: ops) p = initialAfter ops p).
      { destruct o as [d | s | [nx |] [ny |]]; try reflexivity; discriminate Ho. }
      rewrite Hstep.
      destruct (IH p) as [[Hn E] | (o1 & ax & ay & o2 & E1 & Hn & E2)].
      * left. split; [simpl; rewrite Ho; exact Hn | exact E].
      * right. exists (o :: o1), ax, ay, o2.
        repeat split; [rewrite E1; reflexivity | assumption | exact E2].
Qed.

(** C7, amended.  After any history of operations on a character built at
    [(x0, y0)]: [reset(px, py)] puts it at [(px, py)], and [reset()] puts it
    at its current initial position, which is the construction point when
    the history has no two-argument reset, and otherwise the point of the
    latest two-argument reset; both clear the heading. *)
Theorem reset_position_and_heading :
  forall (x0 y0 size0 : jsnum) (ops : list Character.op) (px py : jsnum),
    let c := Character.run ops (Character.new x0 y0 size0) in
    Character.getPosition (Character.reset (Some px) (Some py) c)
    = Point.mk px py /\
    Character.direction (Character.reset (Some px) (Some py) c) = None /\
    Character.direction (Character.reset None None c) = None /\
    ((existsb fullReset ops = false /\
      Character.getPosition (Character.reset None None c) = Point.mk x0 y0) \/
     (exists ops1 nx ny ops2,
         ops = ops1 ++ Character.OpReset (Some nx) (Some ny) :: ops2 /\
         existsb fullReset ops2 = false /\
         Character.getPosition (Character.reset None None c) = Point.mk nx ny)).
Proof.
  intros x0 y0 size0 ops px py c.
  assert (HI := run_initial ops (Character.new x0 y0 size0)).
  fold c in HI. simpl in HI.
  split; [reflexivity |]. split; [reflexivity |]. split; [reflexivity |].
  assert (HP : Character.getPosition (Character.reset None None c)
               = Point.mk (fst (initialAfter ops (x0, y0)))
                          (snd (initialAfter ops (x0, y0)))).
  { rewrite <- HI. reflexivity. }
  rewrite HP.
  destruct (initialAfter_cases ops (x0, y0))
    as [[Hn E] | (o1 & nx & ny & o2 & E1 & Hn & E2)].
  - left. rewrite E. split; [exact Hn | reflexivity].
  - right. exists o1, nx, ny, o2. rewrite E2. repeat split; assumption.
Qed.

(** ** LevelGenerator: the shape of a generated level *)

Lemma generateWaypoints_eq (rnd : Random) (k : nat) (g : LevelGenerator.t) :
  LevelGenerator.generateWaypoints rnd k g =
  let n := LevelGenerator.numWaypoints (rnd k) in
  let segmentWidth :=
    ((Num (LevelGenerator.width g) - Num 150) / (Num (IZR n) + Num 1))%js in
  let wl := LevelGenerator.waypointLoop rnd (LevelGenerator.height g)
              segmentWidth 1 (Z.to_nat n) (S k) in
  (LevelGenerator.set_waypoints
     (Point.mk (Num 50) (Num (LevelGenerator.height g) / Num 2)%js
      :: fst wl
      ++ [Point.mk (Num (LevelGenerator.width g) - Num 50)%js
                   (Num 100 + Num (rnd (snd wl))
                              * (Num (LevelGenerator.height g) - Num 200))%js]) g,
   S (snd wl)).
Proof.
  unfold LevelGenerator.generateWaypoints. cbv zeta.
  destruct (LevelGenerator.waypointLoop _ _ _ _ _ _) as [inner k'].
  reflexivity.
Qed.

Lemma generatePath_eq (rnd : Random) (k : nat) (g : LevelGenerator.t) :
  LevelGenerator.generatePath rnd k g =
  (LevelGenerator.set_path
     (fst (LevelGenerator.segmentLoop rnd (LevelGenerator.waypoints g) k)) g,
   snd (LevelGenerator.segmentLoop rnd (LevelGenerator.waypoints g) k)).
Proof.
  unfold LevelGenerator.generatePath.
  destruct (LevelGenerator.segmentLoop _ _ _) as [p k']. reflexivity.
Qed.

Lemma generate_eq (rnd : Random) (g : LevelGenerator.t) :
  LevelGenerator.generate rnd g =
  let g1 := fst (LevelGenerator.generateWaypoints rnd 0 g) in
  let k1 := snd (LevelGenerator.generateWaypoints rnd 0 g) in
  LevelGenerator.setStartAndGoalPositions
    (LevelGenerator.generateWalls (fst (LevelGenerator.generatePath rnd k1 g1))).
Proof.
  unfold LevelGenerator.generate.
  destruct (LevelGenerator.generateWaypoints rnd 0 g) as [g1 k1].
  cbn [fst snd].
  destruct (LevelGenerator.generatePath rnd k1 g1) as [g2 k2].
  reflexivity.
Qed.

Lemma setStartAndGoalPositions_fields (g : LevelGenerator.t) :
  LevelGenerator.width (LevelGenerator.setStartAndGoalPositions g)
  = LevelGenerator.width g /\
  LevelGenerator.height (LevelGenerator.setStartAndGoalPositions g)
  = LevelGenerator.height g /\
  LevelGenerator.settings (LevelGenerator.setStartAndGoalPositions g)
  = LevelGenerator.settings g /\
  LevelGenerator.walls (LevelGenerator.setStartAndGoalPositions g)
  = LevelGenerator.walls g /\
  LevelGenerator.path (LevelGenerator.setStartAndGoalPositions g)
  = LevelGenerator.path g /\
  LevelGenerator.waypoints (LevelGenerator.setStartAndGoalPositions g)
  = LevelGenerator.waypoints g.
Proof.
  unfold LevelGenerator.setStartAndGoalPositions.
  destruct (LevelGenerator.waypoints g) as [| p [| q l]] eqn:E;
    cbn; rewrite ?E; repeat split; reflexivity.
Qed.

(** [generate] keeps the canvas size and the settings, and builds the
    level from the waypoints it draws first. *)
Lemma generate_fields (rnd : Random) (g : LevelGenerator.t) :
  let g' := LevelGenerator.generate rnd g in
  let wps := LevelGenerator.waypoints
               (fst (LevelGenerator.generateWaypoints rnd 0 g)) in
  let k1 := snd (LevelGenerator.generateWaypoints rnd 0 g) in
  LevelGenerator.width g' = LevelGenerator.width g /\
  LevelGenerator.height g' = LevelGenerator.height g /\
  LevelGenerator.settings g' = LevelGenerator.settings g /\
  LevelGenerator.waypoints g' = wps /\
  LevelGenerator.path g' = fst (LevelGenerator.segmentLoop rnd wps k1) /\
  LevelGenerator.walls g' =
    LevelGenerator.wallLoop
      (JS.toNumber (LevelGenerator.getPathWidth g) / Num 2)%js
      (LevelGenerator.path g')
    ++ LevelGenerator.boundaryWalls (LevelGenerator.width g)
                                    (LevelGenerator.height g).
Proof.
  cbv zeta. rewrite generate_eq. cbv zeta.
  destruct (setStartAndGoalPositions_fields
              (LevelGenerator.generateWalls
                 (fst (LevelGenerator.generatePath rnd
                         (snd (LevelGenerator.generateWaypoints rnd 0 g))
                         (fst (LevelGenerator.generateWaypoints rnd 0 g))))))
    as (-> & -> & -> & -> & -> & ->).
  rewrite generatePath_eq, generateWaypoints_eq. cbv zeta.
  repeat split.
Qed.

Lemma last_cons_app {A : Type} (l : list A) (a b d : A) :
  last (a :: l ++ [b]) d = b.
Proof.
  revert a. induction l as [| c l IH]; intro a; [reflexivity |].
  change (last (a :: (c :: l) ++ [b]) d) with (last (c :: l ++ [b]) d).
  apply IH.
Qed.

Lemma setStartAndGoalPositions_ends
      (g : LevelGenerator.t) (first : Point.t) (l : list Point.t) (e : Point.t) :
  LevelGenerator.waypoints g = first :: l ++ [e] ->
  LevelGenerator.startPosition (LevelGenerator.setStartAndGoalPositions g)
  = Some first /\
  LevelGenerator.goalPosition (LevelGenerator.setStartAndGoalPositions g)
  = Some e.
Proof.
  intro H. unfold LevelGenerator.setStartAndGoalPositions. rewrite H.
  assert (HL : last (first :: l ++ [e]) first = e) by apply last_cons_app.
  destruct l as [| q l]; cbn [app] in *;
    cbn [LevelGenerator.set_positions LevelGenerator.startPosition
         LevelGenerator.goalPosition];
    rewrite HL; split; reflexivity.
Qed.

(** The waypoints a generated level is built from: the start, the inner
    waypoints, the goal. *)
Lemma generate_waypoints (rnd : Random) (g : LevelGenerator.t) :
  let n := LevelGenerator.numWaypoints (rnd 0%nat) in
  let wl := LevelGenerator.waypointLoop rnd (LevelGenerator.height g)
              ((Num (LevelGenerator.width g) - Num 150)
               / (Num (IZR n) + Num 1))%js 1 (Z.to_nat n) 1 in
  LevelGenerator.waypoints (LevelGenerator.generate rnd g) =
  Point.mk (Num 50) (Num (LevelGenerator.height g / 2))
  :: fst wl
  ++ [Point.mk (Num (LevelGenerator.width g - 50))
               (Num (100 + rnd (snd wl) * (LevelGenerator.height g - 200)))].
Proof.
  cbv zeta.
  destruct (generate_fields rnd g) as (_ & _ & _ & -> & _).
  rewrite generateWaypoints_eq. cbv zeta.
  cbn [fst LevelGenerator.set_waypoints LevelGenerator.waypoints].
  rewrite (div_Num (LevelGenerator.height g) 2) by lra.
  reflexivity.
Qed.

(** The start is the first waypoint, (50, height / 2); the goal is the
    last one, (width - 50, 100 + r * (height - 200)) for an oracle value
    [r]. *)
Lemma generate_positions (rnd : Random) (g : LevelGenerator.t) :
  exists k : nat,
    LevelGenerator.getStartPosition (LevelGenerator.generate rnd g)
    = Some (Point.mk (Num 50) (Num (LevelGenerator.height g / 2))) /\
    LevelGenerator.getGoalPosition (LevelGenerator.generate rnd g)
    = Some (Point.mk (Num (LevelGenerator.width g - 50))
                     (Num (100 + rnd k * (LevelGenerator.height g - 200)))).
Proof.
  assert (HW := generate_waypoints rnd g). cbv zeta in HW.
  set (wl := LevelGenerator.waypointLoop _ _ _ _ _ _) in HW.
  exists (snd wl).
  rewrite generate_eq in *. cbv zeta in *.
  destruct (setStartAndGoalPositions_fields
              (LevelGenerator.generateWalls
                 (fst (LevelGenerator.generatePath rnd
                         (snd (LevelGenerator.generateWaypoints rnd 0 g))
                         (fst (LevelGenerator.generateWaypoints rnd 0 g))))))
    as (_ & _ & _ & _ & _ & E).
  rewrite E in HW.
  apply (setStartAndGoalPositions_ends _ _ _ _ HW).
Qed.

(** ** LevelGenerator: difficulty *)

Lemma generate_getters (rnd : Random) (g : LevelGenerator.t) :
  LevelGenerator.getPathWidth (LevelGenerator.generate rnd g)
  = LevelGenerator.getPathWidth g /\
  LevelGenerator.getCharacterSpeed (LevelGenerator.generate rnd g)
  = LevelGenerator.getCharacterSpeed g.
Proof.
  destruct (generate_fields rnd g) as (_ & _ & E & _).
  unfold LevelGenerator.getPathWidth, LevelGenerator.getCharacterSpeed.
  rewrite E. split; reflexivity.
Qed.

(** C2.  For each of the four difficulty tags, on every canvas and for
    every outcome of the random source, the generated level has the path
    width and the character speed of the table: easy 100 and 2, medium 60
    and 3, hard 40 and 4, super-hard 30 and 6. *)
Theorem difficulty_table :
  forall (w h : R) (rnd : Random),
    levelHas w h rnd "easy" 100 2 /\
    levelHas w h rnd "medium" 60 3 /\
    levelHas w h rnd "hard" 40 4 /\
    levelHas w h rnd "super-hard" 30 6.
Proof.
  intros w h rnd. unfold levelHas.
  repeat split; eexists; (split; [reflexivity |]);
    match goal with
    | |- context [LevelGenerator.generate rnd ?g] =>
        destruct (generate_getters rnd g) as [-> ->]
    end; split; reflexivity.
Qed.

Lemma assoc_difficultySettings_None (d : string) :
  ~ In d difficultyTags ->
  LevelGenerator.assoc d LevelGenerator.difficultySettings = None.
Proof.
  intro H. unfold LevelGenerator.difficultySettings. simpl.
  repeat match goal with
         | |- context [String.eqb d ?s] =>
             destruct (String.eqb_spec d s) as [E | _];
             [exfalso; apply H; rewrite E; simpl; tauto |]
         end.
  reflexivity.
Qed.

Lemma existsb_eqb_false (d : string) (l : list string) :
  ~ In d l -> existsb (String.eqb d) l = false.
Proof.
  intro H. induction l as [| s l IH]; [reflexivity |].
  simpl. destruct (String.eqb_spec d s) as [E | _].
  - exfalso. apply H. left. symmetry. exact E.
  - apply IH. intro Hin. apply H. right. exact Hin.
Qed.

(** The part of the validation that works: a difficulty that is neither a
    tag nor a property name of [Object.prototype] is rejected. *)
Lemma constructor_rejects_unknown (w h : R) (d : string) :
  ~ In d difficultyTags ->
  ~ In d LevelGenerator.objectPrototypeKeys ->
  LevelGenerator.new w h d = Thrown ("Invalid difficulty: " ++ d).
Proof.
  intros H1 H2. unfold LevelGenerator.new, LevelGenerator.getProperty.
  rewrite (assoc_difficultySettings_None d H1), (existsb_eqb_false d _ H2).
  reflexivity.
Qed.

(** C4, the defect.  The difficulty "constructor" is outside the four
    tags, yet the constructor does not throw: the lookup finds
    [Object.prototype.constructor] through the prototype chain.  The
    generator it returns has no path width and no speed, and [generate]
    produces a level from it (waypoints, start, goal and walls); the same
    holds for every property name of [Object.prototype]. *)
Theorem constructor_accepts_prototype_key :
  forall (w h : R) (rnd : Random),
    ~ In "constructor"%string difficultyTags /\
    (forall d : string,
        In d LevelGenerator.objectPrototypeKeys ->
        exists g : LevelGenerator.t,
          LevelGenerator.new w h d = Ok g /\
          LevelGenerator.settings g = LevelGenerator.Inherited d /\
          LevelGenerator.getPathWidth g = None /\
          LevelGenerator.getCharacterSpeed g = None) /\
    (exists g : LevelGenerator.t,
        LevelGenerator.new w h "constructor" = Ok g /\
        (exists s e : Point.t,
            LevelGenerator.getStartPosition (LevelGenerator.generate rnd g) = Some s /\
            LevelGenerator.getGoalPosition (LevelGenerator.generate rnd g) = Some e) /\
        LevelGenerator.getWalls (LevelGenerator.generate rnd g) <> []).
Proof.
  intros w h rnd. split; [| split].
  - simpl. intros [H | [H | [H | [H | []]]]]; discriminate H.
  - intros d Hd. simpl in Hd.
    repeat (destruct Hd as [<- | Hd];
            [eexists; repeat split; reflexivity |]).
    contradiction.
  - eexists. split; [reflexivity |]. split.
    + destruct (generate_positions rnd
                  (LevelGenerator.mk w h "constructor"
                     (LevelGenerator.Inherited "constructor") [] [] None None []))
        as (k & Hs & He).
      eexists; eexists; split; [exact Hs | exact He].
    + unfold LevelGenerator.getWalls.
      match goal with
      | |- LevelGenerator.walls (LevelGenerator.generate rnd ?g) <> [] =>
          destruct (generate_fields rnd g) as (_ & _ & _ & _ & _ & ->)
      end.
      intro H. apply app_eq_nil in H. destruct H as [_ H]. discriminate H.
Qed.

(** ** LevelGenerator: start and goal *)

Lemma new_fields (w h : R) (d : string) (g : LevelGenerator.t) :
  LevelGenerator.new w h d = Ok g ->
  LevelGenerator.width g = w /\ LevelGenerator.height g = h.
Proof.
  unfold LevelGenerator.new.
  destruct (LevelGenerator.getProperty d); intro H; inversion H.
  split; reflexivity.
Qed.

(** C8 as the specification states it fails: on a canvas 100 pixels wide
    the start is at x = 50, which is the midpoint and not left of it. *)
Lemma start_not_left_on_narrow_canvas :
  exists g : LevelGenerator.t,
    LevelGenerator.new 100 600 "easy" = Ok g /\
    ~ startLeftGoalRight 100 (LevelGenerator.generate rndZero g).
Proof.
  eexists. split; [reflexivity |].
  intros (s & e & Hs & _ & Hlt & _).
  match type of Hs with
  | LevelGenerator.getStartPosition (LevelGenerator.generate _ ?g) = _ =>
      destruct (generate_positions rndZero g) as (k & Hs' & _)
  end.
  rewrite Hs' in Hs. inversion Hs; subst s. clear Hs.
  cbn [Point.x] in Hlt. rewrite div_Num in Hlt by lra.
  apply lt_Num in Hlt. lra.
Qed.

(** C8, amended.  The start is at x = 50 and the goal at x = width - 50 for
    every outcome of the random source, so the start is left of the
    horizontal midpoint and the goal right of it exactly on the canvases
    wider than 100 pixels. *)
Theorem start_left_goal_right :
  forall (w h : R) (d : string) (rnd : Random) (g : LevelGenerator.t),
    LevelGenerator.new w h d = Ok g ->
    (exists s e : Point.t,
        LevelGenerator.getStartPosition (LevelGenerator.generate rnd g) = Some s /\
        LevelGenerator.getGoalPosition (LevelGenerator.generate rnd g) = Some e /\
        Point.x s = Num 50 /\ Point.x e = Num (w - 50)) /\
    (100 < w <-> startLeftGoalRight w (LevelGenerator.generate rnd g)).
Proof.
  intros w h d rnd g Hnew.
  destruct (new_fields w h d g Hnew) as [Hw Hh].
  destruct (generate_positions rnd g) as (k & Hs & He).
  rewrite Hw, Hh in *.
  split.
  - eexists; eexists. split; [exact Hs |]. split; [exact He |].
    split; reflexivity.
  - unfold startLeftGoalRight. split.
    + intro H. eexists; eexists. split; [exact Hs |]. split; [exact He |].
      cbn [Point.x]. rewrite div_Num by lra. split.
      * apply lt_Num. lra.
      * apply gt_Num. lra.
    + intros (s & e & Hs' & _ & Hlt & _).
      rewrite Hs in Hs'. inversion Hs'; subst s.
      cbn [Point.x] in Hlt. rewrite div_Num in Hlt by lra.
      apply lt_Num in Hlt. lra.
Qed.

(** An instance: the 800 x 600 canvas. *)
Lemma start_left_goal_right_witness :
  startLeftGoalRight 800
    (LevelGenerator.generate rndZero
       (LevelGenerator.mk 800 600 "easy"
          (LevelGenerator.OwnSettings (Num 100) (Num 2)) [] [] None None [])).
Proof.
  apply (start_left_goal_right 800 600 "easy" rndZero _ eq_refl). lra.
Defined.

(** ** CollisionDetector *)

Lemma hitsAny_app (b : Rect.t) (l1 l2 : list Rect.t) :
  CollisionDetector.hitsAny b (l1 ++ l2)
  = CollisionDetector.hitsAny b l1 || CollisionDetector.hitsAny b l2.
Proof.
  induction l1 as [| w l1 IH]; [reflexivity |].
  simpl. destruct (CollisionDetector.boundingBoxCollision b w); [reflexivity | exact IH].
Qed.

Lemma hitsAny_In (b w : Rect.t) (l : list Rect.t) :
  In w l -> CollisionDetector.boundingBoxCollision b w = true ->
  CollisionDetector.hitsAny b l = true.
Proof.
  intros Hin Hw. induction l as [| v l IH]; [contradiction |].
  simpl. destruct Hin as [-> | Hin].
  - rewrite Hw. reflexivity.
  - destruct (CollisionDetector.boundingBoxCollision b v); [reflexivity | auto].
Qed.

(** Overlap of finite rectangles is strict overlap of both projections. *)
Lemma boundingBoxCollision_Num (x1 y1 w1 h1 x2 y2 w2 h2 : R) :
  CollisionDetector.boundingBoxCollision
    (Rect.mk (Num x1) (Num y1) (Num w1) (Num h1))
    (Rect.mk (Num x2) (Num y2) (Num w2) (Num h2)) = true
  <-> x1 < x2 + w2 /\ x2 < x1 + w1 /\ y1 < y2 + h2 /\ y2 < y1 + h1.
Proof.
  unfold CollisionDetector.boundingBoxCollision.
  cbn [Rect.x Rect.y Rect.width Rect.height JS.add JS.lt JS.gt].
  rewrite !andb_true_iff, !Rltb_true. tauto.
Qed.

(** Rectangles that only share an edge line do not collide. *)
Lemma edgeTouch_no_collision (r1 r2 : Rect.t) :
  edgeTouch r1 r2 -> CollisionDetector.boundingBoxCollision r1 r2 = false.
Proof.
  unfold edgeTouch, CollisionDetector.boundingBoxCollision, JS.gt.
  intros [H | [H | [H | H]]]; rewrite H, lt_irrefl;
    rewrite ?andb_false_r, ?andb_false_l; reflexivity.
Qed.

(** ** GameManager *)

Lemma handleGameOver_fields (now : Z) (g : GameManager.t) :
  GameManager.state (GameManager.handleGameOver now g) = GameManager.GameOver /\
  GameManager.score (GameManager.handleGameOver now g) = GameManager.score g /\
  GameManager.currentTime (GameManager.handleGameOver now g)
  = GameManager.currentTime g /\
  GameManager.startTime (GameManager.handleGameOver now g)
  = GameManager.startTime g /\
  GameManager.character (GameManager.handleGameOver now g)
  = GameManager.character g.
Proof.
  destruct_manager g.
  unfold GameManager.handleGameOver, GameManager.on_inputHandler.
  destruct g_input as [h |], g_animation as [a |], g_detector as [d |]; cbn;
    try (destruct (CollisionDetector.getCollisionPoint d)); cbn;
    repeat split; reflexivity.
Qed.

Lemma moveCharacter_fields (g : GameManager.t) :
  GameManager.state (GameManager.moveCharacter g) = GameManager.state g /\
  GameManager.score (GameManager.moveCharacter g) = GameManager.score g /\
  GameManager.currentTime (GameManager.moveCharacter g)
  = GameManager.currentTime g /\
  GameManager.startTime (GameManager.moveCharacter g) = GameManager.startTime g /\
  GameManager.collisionDetector (GameManager.moveCharacter g)
  = GameManager.collisionDetector g.
Proof.
  destruct_manager g.
  unfold GameManager.moveCharacter.
  destruct g_character as [c |], g_level as [l |]; cbn; repeat split; reflexivity.
Qed.

(** In the playing state with no animation in flight, [update] sets the
    timer, moves the character and tests for collisions. *)
Lemma update_playing (now : Z) (g : GameManager.t) :
  GameManager.state g = GameManager.Playing ->
  animationIdle g = true ->
  GameManager.update now g
  = GameManager.detectCollisions now
      (GameManager.moveCharacter
         (GameManager.with_currentTime (now - GameManager.startTime g) g)).
Proof.
  intros Hs Hidle. unfold GameManager.update. rewrite Hs. cbn [GameManager.isPlayingState negb].
  unfold animationIdle in Hidle.
  destruct_manager g.
  cbn in *. destruct g_animation as [a |]; [| reflexivity].
  destruct (AnimationEngine.isPlaying a); [discriminate Hidle | reflexivity].
Qed.

Lemma moveCharacter_with_currentTime (v : Z) (g : GameManager.t) :
  GameManager.moveCharacter (GameManager.with_currentTime v g)
  = GameManager.with_currentTime v (GameManager.moveCharacter g).
Proof.
  destruct_manager g.
  unfold GameManager.moveCharacter.
  destruct g_character as [c |], g_level as [l |]; reflexivity.
Qed.

(** A wall hit after the move ends the run: the state becomes gameover,
    the timer holds the elapsed time of this tick, and the recorded score
    keeps the value it had. *)
Lemma update_wall_hit (now : Z) (g : GameManager.t)
      (c : Character.t) (d : CollisionDetector.t) :
  GameManager.state g = GameManager.Playing ->
  animationIdle g = true ->
  GameManager.character (GameManager.moveCharacter g) = Some c ->
  GameManager.collisionDetector g = Some d ->
  CollisionDetector.hitsAny (Character.getBounds c) (CollisionDetector.walls d)
  = true ->
  exists g' : GameManager.t,
    GameManager.update now g = Ok g' /\
    GameManager.state g' = GameManager.GameOver /\
    GameManager.currentTime g' = (now - GameManager.startTime g)%Z /\
    GameManager.score g' = GameManager.score g /\
    GameManager.getCurrentScore g' = GameManager.score g.
Proof.
  intros Hs Hidle Hc Hd Hhit.
  rewrite (update_playing now g Hs Hidle), moveCharacter_with_currentTime.
  set (t := (now - GameManager.startTime g)%Z).
  destruct (moveCharacter_fields g) as (_ & Hsc & _ & _ & Hcd).
  unfold GameManager.detectCollisions.
  replace (GameManager.collisionDetector
             (GameManager.with_currentTime t (GameManager.moveCharacter g)))
    with (Some d) by (rewrite <- Hd, <- Hcd; destruct (GameManager.moveCharacter g); reflexivity).
  replace (GameManager.character
             (GameManager.with_currentTime t (GameManager.moveCharacter g)))
    with (Some c) by (rewrite <- Hc; destruct (GameManager.moveCharacter g); reflexivity).
  unfold CollisionDetector.checkWallCollision. rewrite Hhit.
  eexists. split; [reflexivity |].
  match goal with
  | |- context [GameManager.handleGameOver now ?m] =>
      destruct (handleGameOver_fields now m) as (E1 & E2 & E3 & _)
  end.
  unfold GameManager.getCurrentScore. rewrite E1, E2, E3.
  cbn [GameManager.isPlayingState].
  rewrite <- Hsc. destruct (GameManager.moveCharacter g); cbn. repeat split; reflexivity.
Qed.

(** C5.  In every state other than playing, [update] returns normally and
    hands back the manager unchanged (state tag, elapsed time, recorded
    score, character position and everything else), and so does any
    number of further [update] calls; the score and the elapsed time
    read from the session stay what they were. *)
Theorem update_noop_unless_playing :
  forall (g : GameManager.t) (now : Z) (nows : list Z),
    GameManager.state g <> GameManager.Playing ->
    GameManager.update now g = Ok g /\
    updates nows g = Ok g /\
    (forall g', updates nows g = Ok g' ->
                GameManager.state g' = GameManager.state g /\
                GameManager.currentTime g' = GameManager.currentTime g /\
                GameManager.score g' = GameManager.score g /\
                GameManager.getCurrentScore g' = GameManager.getCurrentScore g /\
                GameManager.character g' = GameManager.character g).
Proof.
  intros g now nows Hs.
  assert (H1 : forall t, GameManager.update t g = Ok g).
  { intro t. unfold GameManager.update.
    destruct (GameManager.state g); try reflexivity. now elim Hs. }
  assert (H2 : updates nows g = Ok g).
  { induction nows as [| t l IH]; [reflexivity |].
    simpl. rewrite H1. simpl. exact IH. }
  split; [apply H1 |]. split; [exact H2 |].
  intros g' Hg'. rewrite H2 in Hg'. inversion Hg'; subst g'.
  repeat split; reflexivity.
Qed.

(** An instance: ticks after a run has ended at a wall. *)
Lemma update_noop_unless_playing_witness :
  GameManager.update 6000 managerAfterCrash = Ok managerAfterCrash /\
  updates [6016; 6033; 6050]%Z managerAfterCrash = Ok managerAfterCrash.
Proof.
  assert (H : GameManager.state managerAfterCrash <> GameManager.Playing)
    by (simpl; discriminate).
  destruct (update_noop_unless_playing
              managerAfterCrash 6000%Z [6016; 6033; 6050]%Z H) as (H1 & H2 & _).
  split; [exact H1 | exact H2].
Defined.

(** C10.  In a tick while playing, the wall test runs first and ends the
    tick: when the character's bounds after the move overlap a wall and
    the goal hit-box at once, the state becomes gameover, not victory.
    And the overlap test is strict: rectangles that only share an edge
    line do not collide. *)
Theorem wall_test_precedes_goal_test :
  (forall (now : Z) (g : GameManager.t) (c : Character.t)
          (d : CollisionDetector.t),
      GameManager.state g = GameManager.Playing ->
      animationIdle g = true ->
      GameManager.character (GameManager.moveCharacter g) = Some c ->
      GameManager.collisionDetector g = Some d ->
      CollisionDetector.hitsAny (Character.getBounds c) (CollisionDetector.walls d)
      = true ->
      CollisionDetector.checkGoalCollision c d = Ok true ->
      exists g' : GameManager.t,
        GameManager.update now g = Ok g' /\
        GameManager.state g' = GameManager.GameOver) /\
  (forall r1 r2 : Rect.t,
      edgeTouch r1 r2 ->
      CollisionDetector.boundingBoxCollision r1 r2 = false).
Proof.
  split.
  - intros now g c d Hs Hidle Hc Hd Hwall _.
    destruct (update_wall_hit now g c d Hs Hidle Hc Hd Hwall)
      as (g' & Hu & Hst & _).
    exists g'. split; assumption.
  - exact edgeTouch_no_collision.
Qed.

(** An instance: a character overlapping a wall and the goal hit-box at
    once; and the character at the start point (50, 300), whose left edge
    lies on the right edge of the left fence. *)
Lemma wall_test_precedes_goal_test_witness :
  (exists g' : GameManager.t,
      GameManager.update 2000 managerWallAndGoal = Ok g' /\
      GameManager.state g' = GameManager.GameOver) /\
  CollisionDetector.boundingBoxCollision
    (Character.getBounds (Character.new (Num 50) (Num 300) (Num 10)))
    (Rect.mk (Num 0) (Num 0) (Num 50) (Num 600)) = false.
Proof.
  destruct wall_test_precedes_goal_test as [P1 P2]. split.
  - apply (P1 2000%Z managerWallAndGoal
              (Character.new (Num 100) (Num 100) (Num 10))
              (CollisionDetector.new
                 [Rect.mk (Num 95) (Num 95) (Num 20) (Num 20)]
                 (Some (Point.mk (Num 105) (Num 105))))).
    + reflexivity.
    + reflexivity.
    + reflexivity.
    + reflexivity.
    + apply (hitsAny_In _ (Rect.mk (Num 95) (Num 95) (Num 20) (Num 20)));
        [left; reflexivity |].
      apply boundingBoxCollision_Num. lra.
    + unfold CollisionDetector.checkGoalCollision, CollisionDetector.goalBounds.
      cbn [CollisionDetector.goal CollisionDetector.new CollisionDetector.goalSize
           Point.x Point.y].
      rewrite !div_Num by lra. f_equal.
      apply boundingBoxCollision_Num. lra.
  - apply P2. right. left.
    cbn. f_equal. lra.
Defined.

(** The level of the first run. *)
Lemma easyLevel_facts (rnd : Random) :
  (exists k : nat,
      LevelGenerator.getStartPosition (easyLevel rnd)
      = Some (Point.mk (Num 50) (Num (600 / 2))) /\
      LevelGenerator.getGoalPosition (easyLevel rnd)
      = Some (Point.mk (Num (800 - 50)) (Num (100 + rnd k * (600 - 200))))) /\
  LevelGenerator.width (easyLevel rnd) = 800 /\
  LevelGenerator.height (easyLevel rnd) = 600 /\
  LevelGenerator.getCharacterSpeed (easyLevel rnd) = Some (Num 2) /\
  exists corridor : list Rect.t,
    LevelGenerator.getWalls (easyLevel rnd)
    = corridor ++ LevelGenerator.boundaryWalls 800 600.
Proof.
  unfold easyLevel.
  set (lg0 := LevelGenerator.mk 800 600 "easy" _ [] [] None None []).
  destruct (generate_positions rnd lg0) as (k & Hs & He).
  destruct (generate_getters rnd lg0) as [_ Hspeed].
  destruct (generate_fields rnd lg0) as (Hw & Hh & _ & _ & _ & Hwalls).
  split; [exists k; split; assumption |].
  split; [exact Hw |]. split; [exact Hh |]. split; [exact Hspeed |].
  eexists. exact Hwalls.
Qed.

Lemma fresh_manager (rnd : Random) :
  GameManager.new true (Some canvas800x600) (Some "easy"%string) rnd
  = Ok (freshManager rnd).
Proof.
  destruct (easyLevel_facts rnd) as ((k & Hs & _) & _).
  unfold GameManager.new.
  change (LevelGenerator.new (Canvas.width canvas800x600)
            (Canvas.height canvas800x600) "easy")
    with (Ok (LevelGenerator.mk 800 600 "easy"
                (LevelGenerator.OwnSettings (Num 100) (Num 2)) [] [] None None [])).
  cbn [bind]. fold (easyLevel rnd). rewrite Hs. reflexivity.
Qed.

Lemma started_manager (rnd : Random) (t0 t1 : Z) :
  GameManager.startGame t0 (freshManager rnd) = Ok (startedManager rnd t0) /\
  GameManager.startGame t1 (startedManager rnd t0) = Ok (startedManager rnd t1).
Proof.
  destruct (easyLevel_facts rnd) as ((k & Hs & _) & _).
  unfold GameManager.startGame, GameManager.resetCharacterToStart.
  cbn [GameManager.character GameManager.levelGenerator
       GameManager.with_state GameManager.with_score
       GameManager.with_currentTime GameManager.with_startTime
       freshManager startedManager].
  rewrite Hs. split; reflexivity.
Qed.

(** C1, the defect.  A run on the 800 x 600 canvas at difficulty easy,
    for any outcome of the random source: the game starts at time [t0],
    the player steers left, and the tick at [t0 + elapsed] takes the
    character into the left fence.  The state becomes gameover and the
    timer shows [elapsed], but the score read from the session is 0:
    [handleGameOver] never assigns [score]. *)
Theorem gameover_score_not_recorded :
  forall (rnd : Random) (t0 elapsed : Z),
    exists g2 : GameManager.t,
      GameManager.new true (Some canvas800x600) (Some "easy"%string) rnd
      = Ok (freshManager rnd) /\
      GameManager.startGame t0 (freshManager rnd) = Ok (startedManager rnd t0) /\
      GameManager.update (t0 + elapsed)
        (GameManager.setDirection "left" (startedManager rnd t0)) = Ok g2 /\
      GameManager.getCurrentState g2 = GameManager.GameOver /\
      GameManager.currentTime g2 = elapsed /\
      GameManager.getCurrentScore g2 = 0%Z.
Proof.
  intros rnd t0 elapsed.
  destruct (easyLevel_facts rnd) as (_ & _ & _ & Hspeed & corridor & Hwalls).
  set (moved := Character.mk (Num (50 - 2)) (Num (600 / 2)) (Num 10)
                             (Some "left"%string) (Num 50) (Num (600 / 2))).
  destruct (update_wall_hit (t0 + elapsed)%Z
              (GameManager.setDirection "left" (startedManager rnd t0)) moved
              (CollisionDetector.new
                 (LevelGenerator.getWalls (easyLevel rnd))
                 (LevelGenerator.getGoalPosition (easyLevel rnd))))
    as (g2 & Hu & Hst & Hct & _ & Hsc).
  - reflexivity.
  - reflexivity.
  - unfold GameManager.moveCharacter, GameManager.setDirection.
    cbn [GameManager.character GameManager.levelGenerator GameManager.inputHandler
         GameManager.with_inputHandler GameManager.with_character startedManager].
    rewrite Hspeed. reflexivity.
  - reflexivity.
  - cbn [CollisionDetector.walls CollisionDetector.new].
    rewrite Hwalls, hitsAny_app.
    apply orb_true_iff. right.
    apply (hitsAny_In _ (Rect.mk (Num 0) (Num 0) (Num 50) (Num 600)));
      [right; right; left; reflexivity |].
    apply boundingBoxCollision_Num. lra.
  - exists g2.
    split; [apply fresh_manager |].
    split; [apply (started_manager rnd t0 t0) |].
    split; [exact Hu |]. split; [exact Hst |]. split.
    + rewrite Hct. cbn. lia.
    + exact Hsc.
Qed.

(** ** GameManager: start and restart *)

Lemma startGame_level (now : Z) (g g' : GameManager.t) :
  GameManager.startGame now g = Ok g' ->
  GameManager.levelGenerator g' = GameManager.levelGenerator g.
Proof.
  destruct_manager g.
  unfold GameManager.startGame, GameManager.resetCharacterToStart,
    GameManager.on_inputHandler, GameManager.startGameLoop.
  cbn -[LevelGenerator.generate].
  destruct g_character as [c |], g_level as [l |]; cbn;
    try destruct (LevelGenerator.getStartPosition l); cbn;
    destruct g_input as [h |], g_loop; cbn; intro H; inversion H; reflexivity.
Qed.

Lemma restartGame_level (rnd : Random) (g g' : GameManager.t) :
  GameManager.restartGame rnd g = Ok g' ->
  GameManager.levelGenerator g'
  = option_map (LevelGenerator.generate rnd) (GameManager.levelGenerator g).
Proof.
  destruct_manager g.
  unfold GameManager.restartGame, GameManager.resetCharacterToStart,
    GameManager.on_inputHandler, GameManager.stopGameLoop.
  destruct g_loop, g_input as [h |], g_animation as [a |], g_level as [l |],
    g_character as [c |], g_detector as [d |];
    cbn -[LevelGenerator.generate];
    try destruct (LevelGenerator.getStartPosition (LevelGenerator.generate rnd l));
    cbn -[LevelGenerator.generate];
    intro H; inversion H; reflexivity.
Qed.

(** [restart()] then [start()] leaves a freshly generated level behind. *)
Lemma restartThenStart_level (rnd : Random) (now : Z) (g g' : GameManager.t)
      (lg : LevelGenerator.t) :
  restartThenStart rnd now g = Ok g' ->
  GameManager.levelGenerator g = Some lg ->
  GameManager.levelGenerator g' = Some (LevelGenerator.generate rnd lg).
Proof.
  unfold restartThenStart. intros H Hlg.
  destruct (GameManager.restartGame rnd g) as [g1 | m] eqn:E1; [| discriminate H].
  cbn [bind] in H.
  rewrite (startGame_level now g1 g' H), (restartGame_level rnd g g1 E1), Hlg.
  reflexivity.
Qed.

(** C6 as the specification states it fails: for the manager of a run
    started at time 1000, [start] at time 2000 keeps the level of the
    run, whereas [restart] followed by [start] leaves a new level, with
    another goal. *)
Lemma start_while_playing_is_not_restart :
  GameManager.state (startedManager rndZero 1000) = GameManager.Playing /\
  GameManager.startGame 2000 (startedManager rndZero 1000)
  <> restartThenStart rndHalf 2000 (startedManager rndZero 1000).
Proof.
  split; [reflexivity |].
  rewrite (proj2 (started_manager rndZero 1000 2000)).
  intro H. symmetry in H.
  apply (restartThenStart_level _ _ _ _ (easyLevel rndZero)) in H;
    [| reflexivity].
  cbn [GameManager.levelGenerator startedManager] in H.
  injection H as H.
  destruct (easyLevel_facts rndZero) as ((k & _ & Hg) & Hw & Hh & _).
  destruct (generate_positions rndHalf (easyLevel rndZero)) as (k' & _ & Hg').
  rewrite <- H, Hg, Hw, Hh in Hg'.
  injection Hg' as Hy. cbn [rndZero rndHalf uval unit0 unitHalf] in Hy. lra.
Qed.

(** C6, amended.  [start] while playing returns normally and begins the
    run again on the level at hand: the state is playing, the start time
    is the clock reading, timer and score are 0, the character stands at
    the start point of the current level with no heading, input is
    enabled and the frame loop runs.  The level generator, the collision
    detector, the animation engine and the events sent stay as they are:
    no level is generated. *)
Theorem start_while_playing_keeps_level :
  forall (now : Z) (g : GameManager.t) (c : Character.t)
         (lg : LevelGenerator.t) (sp : Point.t),
    GameManager.state g = GameManager.Playing ->
    GameManager.character g = Some c ->
    GameManager.levelGenerator g = Some lg ->
    LevelGenerator.getStartPosition lg = Some sp ->
    exists g' : GameManager.t,
      GameManager.startGame now g = Ok g' /\
      GameManager.state g' = GameManager.Playing /\
      GameManager.startTime g' = now /\
      GameManager.currentTime g' = 0%Z /\
      GameManager.score g' = 0%Z /\
      GameManager.character g'
      = Some (Character.mk (Point.x sp) (Point.y sp) (Character.size c) None
                           (Point.x sp) (Point.y sp)) /\
      GameManager.inputHandler g'
      = option_map InputHandler.enable (GameManager.inputHandler g) /\
      GameManager.gameLoopId g' = true /\
      GameManager.levelGenerator g' = Some lg /\
      GameManager.collisionDetector g' = GameManager.collisionDetector g /\
      GameManager.animationEngine g' = GameManager.animationEngine g /\
      GameManager.dispatched g' = GameManager.dispatched g.
Proof.
  intros now g c lg sp Hs Hc Hlg Hsp.
  destruct_manager g.
  cbn in Hs, Hc, Hlg. subst g_state g_character g_level.
  unfold GameManager.startGame, GameManager.resetCharacterToStart,
    GameManager.on_inputHandler, GameManager.startGameLoop.
  cbn [GameManager.character GameManager.levelGenerator
       GameManager.with_state GameManager.with_score
       GameManager.with_currentTime GameManager.with_startTime].
  rewrite Hsp. cbn [bind].
  destruct g_input as [h |], g_loop; cbn; eexists; repeat split; reflexivity.
Qed.

(** An instance: [start] at time 2000 in a run started at time 1000. *)
Lemma start_while_playing_keeps_level_witness :
  exists g' : GameManager.t,
    GameManager.startGame 2000 (startedManager rndZero 1000) = Ok g' /\
    GameManager.state g' = GameManager.Playing /\
    GameManager.levelGenerator g' = Some (easyLevel rndZero).
Proof.
  destruct (easyLevel_facts rndZero) as ((k & Hsp & _) & _).
  destruct (start_while_playing_keeps_level
              2000%Z (startedManager rndZero 1000)
              (Character.new (Num 50) (Num (600 / 2)) (Num 10))
              (easyLevel rndZero) (Point.mk (Num 50) (Num (600 / 2)))
              eq_refl eq_refl eq_refl Hsp)
    as (g' & H1 & H2 & _ & _ & _ & _ & _ & _ & H3 & _).
  exists g'. repeat split; assumption.
Defined.

(** ** LevelGenerator: the path stays inside the canvas *)

Lemma numWaypoints_range (r : UnitR) :
  (3 <= LevelGenerator.numWaypoints r <= 5)%Z.
Proof.
  unfold LevelGenerator.numWaypoints, LevelGenerator.floorTimes3.
  destruct (Rltb (r * 3) _); [lia |].
  destruct (Rltb (r * 3) _); lia.
Qed.

Section PathBounds.

Variable rnd : Random.

(** A height drawn for a waypoint, [100 + r * (h - 200)], lies between
    100 and [h - 100], whichever of the two is the smaller. *)
Lemma waypoint_height (h yl yh r : R) :
  0 <= r < 1 -> yl <= 100 <= yh -> yl <= h - 100 <= yh ->
  yl <= 100 + r * (h - 200) <= yh.
Proof.
  intros Hr H100 Hh.
  assert (0 <= (1 - r) * (100 - yl)) by (apply Rmult_le_pos; lra).
  assert (0 <= r * (h - 100 - yl)) by (apply Rmult_le_pos; lra).
  assert (0 <= (1 - r) * (yh - 100)) by (apply Rmult_le_pos; lra).
  assert (0 <= r * (yh - (h - 100))) by (apply Rmult_le_pos; lra).
  split; nra.
Qed.

Lemma waypointLoop_gapped (h seg hi yl yh gx gy : R) :
  55 <= seg -> yl <= 100 <= yh -> yl <= h - 100 <= yh ->
  gx <= hi -> yl <= gy <= yh ->
  forall (n i k : nat) (prev : R),
    prev <= 50 + seg * INR i - 30 ->
    50 + seg * INR (i + n) - 25 <= gx ->
    gapped hi yl yh prev
           (fst (LevelGenerator.waypointLoop rnd h (Num seg) i n k)
            ++ [Point.mk (Num gx) (Num gy)]).
Proof.
  intros Hseg H100 Hh Hgx Hgy.
  induction n as [| n IH]; intros i k prev Hprev Hend.
  - cbn [LevelGenerator.waypointLoop fst app gapped].
    rewrite Nat.add_0_r in Hend.
    exists gx, gy. repeat split; try lra.
  - cbn [LevelGenerator.waypointLoop].
    destruct (LevelGenerator.waypointLoop rnd h (Num seg) (S i) n (S (S k)))
      as [rest k'] eqn:E.
    cbn [fst app gapped JS.add JS.mul JS.sub].
    destruct (uval_range (rnd k)) as [Ha0 Ha1].
    destruct (uval_range (rnd (S k))) as [Hb0 Hb1].
    assert (Hmono : seg * INR (S i) + seg * INR n = seg * INR (i + S n)).
    { rewrite <- Rmult_plus_distr_l, <- plus_INR.
      replace (S i + n)%nat with (i + S n)%nat by lia. reflexivity. }
    assert (Hn : 0 <= INR n) by apply pos_INR.
    assert (HSi : INR (S i) = INR i + 1) by apply S_INR.
    eexists; eexists. split; [reflexivity |].
    split; [lra |]. split; [nra |].
    split; [apply waypoint_height; [split |..]; assumption |].
    refold_fst rest E.
    apply IH.
    + rewrite HSi. nra.
    + replace (S i + n)%nat with (i + S n)%nat by lia. exact Hend.
Qed.


(** Waypoints at least 5 apart in x are joined by at least one step. *)
Lemma stepsBetween_finite (a b c d : R) :
  a + 5 <= c ->
  exists s : Z,
    (1 <= s)%Z /\
    LevelGenerator.stepsBetween (Point.mk (Num a) (Num b)) (Point.mk (Num c) (Num d))
    = Num (IZR s).
Proof.
  intro H. unfold LevelGenerator.stepsBetween.
  cbn [Point.x Point.y JS.pow2 JS.mul JS.sub JS.add].
  set (S2 := (c - a) * (c - a) + (d - b) * (d - b)).
  assert (HS : 25 <= S2).
  { assert (0 <= (c - a - 5) * (c - a + 5)) by (apply Rmult_le_pos; lra).
    assert (0 <= (d - b) * (d - b)) by apply Rle_0_sqr.
    unfold S2. lra. }
  rewrite sqrt_Num by lra. rewrite div_Num by lra. cbn [JS.floor].
  exists (Zfloor (sqrt S2 / 5)). split; [| reflexivity].
  apply Zfloor_lub.
  assert (H5 : 5 <= sqrt S2).
  { replace 5 with (sqrt (5 * 5)) at 1 by (apply sqrt_square; lra).
    apply sqrt_le_1_alt. lra. }
  simpl. lra.
Qed.



Lemma loopCount_IZR (s : Z) :
  LevelGenerator.loopCount (Num (IZR s)) = Z.to_nat (s + 1).
Proof. unfold LevelGenerator.loopCount. rewrite ZfloorZ. reflexivity. Qed.

Lemma segmentLoop_cons (p q : Point.t) (l : list Point.t) (k : nat) :
  LevelGenerator.segmentLoop rnd (p :: q :: l) k =
  let steps := LevelGenerator.stepsBetween p q in
  let sl := LevelGenerator.stepLoop rnd p q steps 0
              (LevelGenerator.loopCount steps) k in
  let ml := LevelGenerator.segmentLoop rnd (q :: l) (snd sl) in
  (fst sl ++ fst ml, snd ml).
Proof.
  change (LevelGenerator.segmentLoop rnd (p :: q :: l) k)
    with (let steps := LevelGenerator.stepsBetween p q in
          let (seg, k1) := LevelGenerator.stepLoop rnd p q steps 0
                             (LevelGenerator.loopCount steps) k in
          let (more, k2) := LevelGenerator.segmentLoop rnd (q :: l) k1 in
          (seg ++ more, k2)).
  cbv zeta.
  destruct (LevelGenerator.stepLoop rnd p q _ 0 _ k) as [seg k1].
  cbn [fst snd].
  destruct (LevelGenerator.segmentLoop rnd (q :: l) k1) as [more k2].
  reflexivity.
Qed.


End PathBounds.

(** On a canvas at least 480 wide the waypoints climb from the start by
    steps of at least 5 in x, at heights between 100 and [h - 100]. *)
Lemma generate_waypoints_band (rnd : Random) (g : LevelGenerator.t)
      (yl yh : R) :
  480 <= LevelGenerator.width g ->
  yl <= 100 <= yh -> yl <= LevelGenerator.height g - 100 <= yh ->
  exists rest : list Point.t,
    LevelGenerator.waypoints (LevelGenerator.generate rnd g)
    = Point.mk (Num 50) (Num (LevelGenerator.height g / 2)) :: rest /\
    gapped (LevelGenerator.width g - 50) yl yh 50 rest.
Proof.
  intros Hw H100 Hh.
  rewrite generate_waypoints. cbv zeta.
  set (n := LevelGenerator.numWaypoints (rnd 0%nat)).
  assert (Hn : (3 <= n <= 5)%Z) by apply numWaypoints_range.
  assert (Hn3 : 3 <= IZR n) by (apply IZR_le; lia).
  assert (Hn5 : IZR n <= 5) by (apply IZR_le; lia).
  cbn [JS.sub JS.add]. rewrite div_Num by lra.
  set (seg := (LevelGenerator.width g - 150) / (IZR n + 1)).
  assert (Hseg : seg * (IZR n + 1) = LevelGenerator.width g - 150)
    by (unfold seg; field; lra).
  assert (Hseg55 : 55 <= seg) by nra.
  set (wl := LevelGenerator.waypointLoop _ _ _ _ _ _).
  eexists. split; [reflexivity |].
  apply waypointLoop_gapped; try assumption; try lra.
  - apply waypoint_height; [apply uval_range | assumption | assumption].
  - simpl INR. lra.
  - replace (INR (1 + Z.to_nat n)) with (IZR n + 1).
    + lra.
    + rewrite plus_INR, (INR_IZR_INZ (Z.to_nat n)), Z2Nat.id by lia.
      simpl INR. lra.
Qed.

(** On a canvas at least 480 wide and 200 high the waypoints climb from
    the start by steps of at least 5 in x. *)
Lemma generate_waypoints_gapped (rnd : Random) (g : LevelGenerator.t) :
  480 <= LevelGenerator.width g -> 200 <= LevelGenerator.height g ->
  exists rest : list Point.t,
    LevelGenerator.waypoints (LevelGenerator.generate rnd g)
    = Point.mk (Num 50) (Num (LevelGenerator.height g / 2)) :: rest /\
    gapped (LevelGenerator.width g - 50) 100 (LevelGenerator.height g - 100)
           50 rest.
Proof.
  intros Hw Hh. apply generate_waypoints_band; lra.
Qed.



(** ** LevelGenerator: the corridor walls *)

Lemma stepLoop_S (rnd : Random) (p q : Point.t) (steps : jsnum) (t n k : nat) :
  fst (LevelGenerator.stepLoop rnd p q steps t (S n) k)
  = LevelGenerator.pathPoint rnd p q steps t k
    :: fst (LevelGenerator.stepLoop rnd p q steps (S t) n (S (S k))).
Proof.
  cbn [LevelGenerator.stepLoop].
  destruct (LevelGenerator.stepLoop rnd p q steps (S t) n (S (S k))).
  reflexivity.
Qed.

Lemma wallLoop_cons (hw : jsnum) (p q : Point.t) (l : list Point.t) :
  LevelGenerator.wallLoop hw (p :: q :: l)
  = LevelGenerator.wallsAt hw p q ++ LevelGenerator.wallLoop hw (q :: l).
Proof. reflexivity. Qed.

(** Beside a path point [(a, b)] whose successor [(c, d)] is another
    point, the generator puts two squares of side 20, centred at distance
    [hw + 10] from the point, one on each side of the path. *)
Lemma wallsAt_finite (hw a b c d : R) :
  let len := sqrt ((c - a) * (c - a) + (d - b) * (d - b)) in
  0 < len ->
  LevelGenerator.wallsAt (Num hw) (Point.mk (Num a) (Num b)) (Point.mk (Num c) (Num d))
  = [ Rect.mk (Num (a + - (d - b) / len * (hw + 20 / 2) - 20 / 2))
              (Num (b + (c - a) / len * (hw + 20 / 2) - 20 / 2))
              (Num 20) (Num 20);
      Rect.mk (Num (a - - (d - b) / len * (hw + 20 / 2) - 20 / 2))
              (Num (b - (c - a) / len * (hw + 20 / 2) - 20 / 2))
              (Num 20) (Num 20) ].
Proof.
  intros len Hlen. unfold LevelGenerator.wallsAt, LevelGenerator.wallThickness.
  cbn [Point.x Point.y JS.sub JS.mul JS.add JS.neg].
  assert (Hnn : 0 <= (c - a) * (c - a) + (d - b) * (d - b)).
  { assert (0 <= (c - a) * (c - a)) by apply Rle_0_sqr.
    assert (0 <= (d - b) * (d - b)) by apply Rle_0_sqr. lra. }
  rewrite sqrt_Num by exact Hnn. fold len.
  rewrite (proj2 (gt_Num len 0) Hlen).
  rewrite !(div_Num _ len) by lra. rewrite !(div_Num 20 2) by lra.
  reflexivity.
Qed.










(** * Further properties *)

(** ** Character: motion over several ticks, and what a history keeps *)

Lemma updateN_up (n : nat) (speed : jsnum) (c : Character.t) :
  Character.direction c = Some "up"%string ->
  Character.x (updateN n speed c) = Character.x c /\
  Character.y (updateN n speed c)
  = Nat.iter n (fun v => (v - speed)%js) (Character.y c) /\
  Character.direction (updateN n speed c) = Some "up"%string.
Proof.
  revert c. induction n as [| n IH]; intros c Hd.
  - cbn [updateN Nat.iter]. repeat split; try reflexivity. exact Hd.
  - cbn [updateN]. rewrite Nat.iter_succ_r.
    assert (E : Character.update speed c
                = Character.mk (Character.x c) (Character.y c - speed)%js
                               (Character.size c) (Character.direction c)
                               (Character.initialX c) (Character.initialY c))
      by (unfold Character.update; rewrite Hd; reflexivity).
    destruct (IH (Character.update speed c)) as (H1 & H2 & H3);
      [rewrite E; exact Hd |].
    rewrite H1, H2, H3, E. repeat split; reflexivity.
Qed.

Lemma updateN_down (n : nat) (speed : jsnum) (c : Character.t) :
  Character.direction c = Some "down"%string ->
  Character.x (updateN n speed c) = Character.x c /\
  Character.y (updateN n speed c)
  = Nat.iter n (fun v => (v + speed)%js) (Character.y c) /\
  Character.direction (updateN n speed c) = Some "down"%string.
Proof.
  revert c. induction n as [| n IH]; intros c Hd.
  - cbn [updateN Nat.iter]. repeat split; try reflexivity. exact Hd.
  - cbn [updateN]. rewrite Nat.iter_succ_r.
    assert (E : Character.update speed c
                = Character.mk (Character.x c) (Character.y c + speed)%js
                               (Character.size c) (Character.direction c)
                               (Character.initialX c) (Character.initialY c))
      by (unfold Character.update; rewrite Hd; reflexivity).
    destruct (IH (Character.update speed c)) as (H1 & H2 & H3);
      [rewrite E; exact Hd |].
    rewrite H1, H2, H3, E. repeat split; reflexivity.
Qed.

Lemma updateN_left (n : nat) (speed : jsnum) (c : Character.t) :
  Character.direction c = Some "left"%string ->
  Character.x (updateN n speed c)
  = Nat.iter n (fun v => (v - speed)%js) (Character.x c) /\
  Character.y (updateN n speed c) = Character.y c /\
  Character.direction (updateN n speed c) = Some "left"%string.
Proof.
  revert c. induction n as [| n IH]; intros c Hd.
  - cbn [updateN Nat.iter]. repeat split; try reflexivity. exact Hd.
  - cbn [updateN]. rewrite Nat.iter_succ_r.
    assert (E : Character.update speed c
                = Character.mk (Character.x c - speed)%js (Character.y c)
                               (Character.size c) (Character.direction c)
                               (Character.initialX c) (Character.initialY c))
      by (unfold Character.update; rewrite Hd; reflexivity).
    destruct (IH (Character.update speed c)) as (H1 & H2 & H3);
      [rewrite E; exact Hd |].
    rewrite H1, H2, H3, E. repeat split; reflexivity.
Qed.

Lemma updateN_right (n : nat) (speed : jsnum) (c : Character.t) :
  Character.direction c = Some "right"%string ->
  Character.x (updateN n speed c)
  = Nat.iter n (fun v => (v + speed)%js) (Character.x c) /\
  Character.y (updateN n speed c) = Character.y c /\
  Character.direction (updateN n speed c) = Some "right"%string.
Proof.
  revert c. induction n as [| n IH]; intros c Hd.
  - cbn [updateN Nat.iter]. repeat split; try reflexivity. exact Hd.
  - cbn [updateN]. rewrite Nat.iter_succ_r.
    assert (E : Character.update speed c
                = Character.mk (Character.x c + speed)%js (Character.y c)
                               (Character.size c) (Character.direction c)
                               (Character.initialX c) (Character.initialY c))
      by (unfold Character.update; rewrite Hd; reflexivity).
    destruct (IH (Character.update speed c)) as (H1 & H2 & H3);
      [rewrite E; exact Hd |].
    rewrite H1, H2, H3, E. repeat split; reflexivity.
Qed.

(** Repeated addition and subtraction of whole numbers. *)
Lemma iter_add_int (n : nat) (a b : Z) :
  Nat.iter n (fun v => (v + Num (IZR b))%js) (Num (IZR a))
  = Num (IZR (a + Z.of_nat n * b)).
Proof.
  induction n as [| n IH].
  - change (Nat.iter 0 (fun v => (v + Num (IZR b))%js) (Num (IZR a)))
      with (Num (IZR a)).
    replace (a + Z.of_nat 0 * b)%Z with a
      by (change (Z.of_nat 0) with 0%Z; ring).
    reflexivity.
  - rewrite Nat.iter_succ, IH. cbn [JS.add]. rewrite <- plus_IZR.
    replace (a + Z.of_nat (S n) * b)%Z with (a + Z.of_nat n * b + b)%Z
      by (rewrite Nat2Z.inj_succ; ring).
    reflexivity.
Qed.

Lemma iter_sub_int (n : nat) (a b : Z) :
  Nat.iter n (fun v => (v - Num (IZR b))%js) (Num (IZR a))
  = Num (IZR (a - Z.of_nat n * b)).
Proof.
  induction n as [| n IH].
  - change (Nat.iter 0 (fun v => (v - Num (IZR b))%js) (Num (IZR a)))
      with (Num (IZR a)).
    replace (a - Z.of_nat 0 * b)%Z with a
      by (change (Z.of_nat 0) with 0%Z; ring).
    reflexivity.
  - rewrite Nat.iter_succ, IH. cbn [JS.sub]. rewrite <- minus_IZR.
    replace (a - Z.of_nat (S n) * b)%Z with (a - Z.of_nat n * b - b)%Z
      by (rewrite Nat2Z.inj_succ; ring).
    reflexivity.
Qed.

(** X1.  A heading held over [n] ticks: the heading is still held
    afterwards, the coordinate across it is the old one unchanged, and
    the coordinate along it is the old one with [speed] subtracted (up,
    left) or added (down, right) [n] times over, by the code's own
    subtraction and addition, for every speed.  For a whole-number
    coordinate [a] and a whole-number speed [b] that stay in the range
    where every whole number is a JavaScript number
    ([|a| + n |b| <= 2^53]), that is [a - n b] and [a + n b]. *)
Theorem continuity_across_ticks :
  forall (n : nat) (c : Character.t) (speed : jsnum),
    let after d := updateN n speed (Character.setDirection d c) in
    (Character.x (after "up"%string) = Character.x c /\
     Character.y (after "up"%string)
     = Nat.iter n (fun v => (v - speed)%js) (Character.y c) /\
     Character.direction (after "up"%string) = Some "up"%string) /\
    (Character.x (after "down"%string) = Character.x c /\
     Character.y (after "down"%string)
     = Nat.iter n (fun v => (v + speed)%js) (Character.y c) /\
     Character.direction (after "down"%string) = Some "down"%string) /\
    (Character.x (after "left"%string)
     = Nat.iter n (fun v => (v - speed)%js) (Character.x c) /\
     Character.y (after "left"%string) = Character.y c /\
     Character.direction (after "left"%string) = Some "left"%string) /\
    (Character.x (after "right"%string)
     = Nat.iter n (fun v => (v + speed)%js) (Character.x c) /\
     Character.y (after "right"%string) = Character.y c /\
     Character.direction (after "right"%string) = Some "right"%string) /\
    (forall a b : Z,
        (Z.abs a + Z.of_nat n * Z.abs b <= 2 ^ 53)%Z ->
        speed = Num (IZR b) ->
        (Character.y c = Num (IZR a) ->
         Character.y (after "up"%string) = Num (IZR (a - Z.of_nat n * b)) /\
         Character.y (after "down"%string) = Num (IZR (a + Z.of_nat n * b))) /\
        (Character.x c = Num (IZR a) ->
         Character.x (after "left"%string) = Num (IZR (a - Z.of_nat n * b)) /\
         Character.x (after "right"%string) = Num (IZR (a + Z.of_nat n * b)))).
Proof.
  intros n c speed after. unfold after.
  assert (Hup := updateN_up n speed (Character.setDirection "up" c) eq_refl).
  assert (Hdown := updateN_down n speed (Character.setDirection "down" c) eq_refl).
  assert (Hleft := updateN_left n speed (Character.setDirection "left" c) eq_refl).
  assert (Hright :=
            updateN_right n speed (Character.setDirection "right" c) eq_refl).
  change (Character.x (Character.setDirection "up" c)) with (Character.x c) in Hup.
  change (Character.y (Character.setDirection "up" c)) with (Character.y c) in Hup.
  change (Character.x (Character.setDirection "down" c))
    with (Character.x c) in Hdown.
  change (Character.y (Character.setDirection "down" c))
    with (Character.y c) in Hdown.
  change (Character.x (Character.setDirection "left" c))
    with (Character.x c) in Hleft.
  change (Character.y (Character.setDirection "left" c))
    with (Character.y c) in Hleft.
  change (Character.x (Character.setDirection "right" c))
    with (Character.x c) in Hright.
  change (Character.y (Character.setDirection "right" c))
    with (Character.y c) in Hright.
  split; [exact Hup |]. split; [exact Hdown |].
  split; [exact Hleft |]. split; [exact Hright |].
  intros a b _ ->. split.
  - intro Ey.
    rewrite (proj1 (proj2 Hup)), (proj1 (proj2 Hdown)), Ey.
    split; [apply iter_sub_int | apply iter_add_int].
  - intro Ex.
    rewrite (proj1 Hleft), (proj1 Hright), Ex.
    split; [apply iter_sub_int | apply iter_add_int].
Qed.

Lemma apply_keeps_size_heading (o : Character.op) (c : Character.t) :
  validHeading (Character.direction c) ->
  Character.size (Character.apply o c) = Character.size c /\
  validHeading (Character.direction (Character.apply o c)).
Proof.
  intro Hv. destruct o as [d | s | ox oy]; cbn [Character.apply].
  - unfold Character.setDirection.
    destruct (existsb (String.eqb d) Character.validDirections) eqn:E;
      [| split; [reflexivity | exact Hv]].
    split; [reflexivity |]. cbn [Character.direction validHeading].
    apply existsb_exists in E. destruct E as (d' & Hin & Heq).
    apply String.eqb_eq in Heq. subst d'. exact Hin.
  - unfold Character.update.
    destruct (Character.direction c) as [d |] eqn:Ed; [| rewrite Ed; split; trivial].
    repeat match goal with
           | |- context [if ?b then _ else _] => destruct b
           end; cbn [Character.size Character.direction]; rewrite ?Ed;
      split; trivial.
  - destruct ox as [nx |], oy as [ny |]; split; reflexivity || exact I.
Qed.

(** X2.  Whatever operations a character goes through (setDirection with
    any string, update with any speed, reset with or without a point), its
    size stays the size it was built with, and its heading is null or one
    of 'up', 'down', 'left', 'right': an unknown direction never gets
    stored. *)
Theorem history_keeps_size_and_heading :
  forall (x0 y0 size0 : jsnum) (ops : list Character.op),
    let c := Character.run ops (Character.new x0 y0 size0) in
    Character.size c = size0 /\ validHeading (Character.direction c).
Proof.
  intros x0 y0 size0 ops.
  assert (H : forall l c0, validHeading (Character.direction c0) ->
                           Character.size (Character.run l c0) = Character.size c0 /\
                           validHeading (Character.direction (Character.run l c0))).
  { induction l as [| o l IH]; intros c0 Hv; [split; [reflexivity | exact Hv] |].
    change (Character.run (o :: l) c0)
      with (Character.run l (Character.apply o c0)).
    destruct (apply_keeps_size_heading o c0 Hv) as [Hs Hv'].
    destruct (IH _ Hv') as [Hs' Hv''].
    split; [rewrite Hs', Hs; reflexivity | exact Hv'']. }
  apply (H ops (Character.new x0 y0 size0)). exact I.
Qed.

(** ** CollisionDetector: the overlap test *)

(** X3.  The overlap test does not depend on the order of its two
    rectangles. *)
Theorem overlap_is_symmetric :
  forall r1 r2 : Rect.t,
    CollisionDetector.boundingBoxCollision r1 r2
    = CollisionDetector.boundingBoxCollision r2 r1.
Proof.
  intros r1 r2. unfold CollisionDetector.boundingBoxCollision, JS.gt.
  destruct (Rect.x r1 <? Rect.x r2 + Rect.width r2)%js,
           (Rect.x r2 <? Rect.x r1 + Rect.width r1)%js,
           (Rect.y r1 <? Rect.y r2 + Rect.height r2)%js,
           (Rect.y r2 <? Rect.y r1 + Rect.height r1)%js; reflexivity.
Qed.

Lemma add_NaN_r (a : jsnum) : (a + NaN)%js = NaN.
Proof. destruct a; reflexivity. Qed.

Lemma lt_NaN_r (a : jsnum) : (a <? NaN)%js = false.
Proof. destruct a; reflexivity. Qed.

Lemma hasNaN_no_collision_r (r1 r2 : Rect.t) :
  hasNaN r2 -> CollisionDetector.boundingBoxCollision r1 r2 = false.
Proof.
  unfold hasNaN, CollisionDetector.boundingBoxCollision, JS.gt.
  intros [H | [H | [H | H]]]; rewrite H.
  - cbn [JS.add JS.lt]. rewrite lt_NaN_r. reflexivity.
  - cbn [JS.add JS.lt]. rewrite lt_NaN_r, ?andb_false_r. reflexivity.
  - rewrite add_NaN_r, lt_NaN_r. reflexivity.
  - rewrite add_NaN_r, lt_NaN_r, ?andb_false_r. reflexivity.
Qed.

Lemma hasNaN_no_collision_l (r1 r2 : Rect.t) :
  hasNaN r1 -> CollisionDetector.boundingBoxCollision r1 r2 = false.
Proof.
  unfold hasNaN, CollisionDetector.boundingBoxCollision, JS.gt.
  intros [H | [H | [H | H]]]; rewrite H.
  - cbn [JS.add JS.lt]. reflexivity.
  - cbn [JS.add JS.lt]. rewrite ?andb_false_r. reflexivity.
  - rewrite add_NaN_r, lt_NaN_r, ?andb_false_r. reflexivity.
  - rewrite add_NaN_r, lt_NaN_r, ?andb_false_r. reflexivity.
Qed.

(** X4.  A rectangle with NaN in its position or its size overlaps
    nothing, whichever side of the test it is on. *)
Theorem nan_rectangle_never_collides :
  forall r1 r2 : Rect.t,
    hasNaN r1 \/ hasNaN r2 ->
    CollisionDetector.boundingBoxCollision r1 r2 = false.
Proof.
  intros r1 r2 [H | H].
  - apply hasNaN_no_collision_l. exact H.
  - apply hasNaN_no_collision_r. exact H.
Qed.

(** An instance: a wall square whose position is NaN. *)
Lemma nan_rectangle_never_collides_witness :
  CollisionDetector.boundingBoxCollision
    (Rect.mk (Num 0) (Num 0) (Num 800) (Num 600))
    (Rect.mk NaN NaN (Num 20) (Num 20)) = false.
Proof.
  apply nan_rectangle_never_collides. right. left. reflexivity.
Defined.

Lemma hitsAny_exists (b : Rect.t) (l : list Rect.t) :
  CollisionDetector.hitsAny b l = true <->
  exists w, In w l /\ CollisionDetector.boundingBoxCollision b w = true.
Proof.
  induction l as [| v l IH].
  - split; [discriminate | intros (w & [] & _)].
  - cbn [CollisionDetector.hitsAny].
    destruct (CollisionDetector.boundingBoxCollision b v) eqn:E.
    + split; [intros _; exists v; split; [left; reflexivity | exact E] | reflexivity].
    + rewrite IH. split.
      * intros (w & Hin & Hw). exists w. split; [right; exact Hin | exact Hw].
      * intros (w & [-> | Hin] & Hw); [congruence |].
        exists w. split; assumption.
Qed.

(** X5.  [checkWallCollision] answers true exactly when some wall of the
    detector overlaps the character's square.  On a hit it records the
    centre of that square as the collision point; on a miss it leaves the
    detector as it was, an older collision point included.  Walls and
    goal are never touched. *)
Theorem wall_check_reports_overlap :
  forall (c : Character.t) (d : CollisionDetector.t),
    let r := CollisionDetector.checkWallCollision c d in
    (fst r = true <->
     exists w, In w (CollisionDetector.walls d) /\
               CollisionDetector.boundingBoxCollision (Character.getBounds c) w
               = true) /\
    (fst r = true ->
     CollisionDetector.getCollisionPoint (snd r) = Some (centreOf c)) /\
    (fst r = false -> snd r = d) /\
    CollisionDetector.walls (snd r) = CollisionDetector.walls d /\
    CollisionDetector.goal (snd r) = CollisionDetector.goal d.
Proof.
  intros c d r. unfold r, CollisionDetector.checkWallCollision.
  rewrite <- hitsAny_exists.
  destruct (CollisionDetector.hitsAny (Character.getBounds c)
                                      (CollisionDetector.walls d)) eqn:E;
    cbn [fst snd].
  - repeat split; try reflexivity. discriminate.
  - repeat split; try reflexivity; discriminate.
Qed.

(** X6.  The goal test throws exactly when the detector has no goal.
    For a detector as the constructor builds it (goal hit-box of side
    30) and whole-number pixel coordinates of magnitude at most 2^50, it
    answers true exactly when the character's square, of side [sz] at
    [(px, py)], overlaps the square of side 30 centred on the goal
    [(gx, gy)]: [gx - 15 - sz < px < gx + 15] and
    [gy - 15 - sz < py < gy + 15]. *)
Theorem goal_check_is_square_overlap :
  (forall (c : Character.t) (d : CollisionDetector.t),
      (CollisionDetector.goal d <> None ->
       exists b, CollisionDetector.checkGoalCollision c d = Ok b) /\
      (CollisionDetector.goal d = None ->
       CollisionDetector.checkGoalCollision c d = Thrown "TypeError")) /\
  (forall (ws : list Rect.t) (gx gy px py sz : Z) (dir : option string)
          (ix iy : jsnum),
      let d := CollisionDetector.new
                 ws (Some (Point.mk (Num (IZR gx)) (Num (IZR gy)))) in
      let c := Character.mk (Num (IZR px)) (Num (IZR py)) (Num (IZR sz))
                            dir ix iy in
      (Z.abs gx <= 2 ^ 50 /\ Z.abs gy <= 2 ^ 50 /\ Z.abs px <= 2 ^ 50 /\
       Z.abs py <= 2 ^ 50 /\ Z.abs sz <= 2 ^ 50)%Z ->
      (CollisionDetector.checkGoalCollision c d = Ok true <->
       (gx - 15 - sz < px < gx + 15 /\ gy - 15 - sz < py < gy + 15)%Z)).
Proof.
  split.
  - intros c d. unfold CollisionDetector.checkGoalCollision.
    destruct (CollisionDetector.goal d) as [p |]; split.
    + intros _. eexists. reflexivity.
    + discriminate.
    + intro H. now elim H.
    + reflexivity.
  - intros ws gx gy px py sz dir ix iy d c _.
    unfold CollisionDetector.checkGoalCollision, CollisionDetector.goalBounds, d, c.
    cbn [CollisionDetector.goal CollisionDetector.new CollisionDetector.goalSize
         Point.x Point.y Character.getBounds Character.x Character.y
         Character.size].
    rewrite !div_Num by lra. cbn [JS.sub].
    assert (Hx1 : IZR px < IZR gx - 30 / 2 + 30 <-> (px < gx + 15)%Z).
    { split; intro H.
      - apply lt_IZR. rewrite plus_IZR. lra.
      - apply IZR_lt in H. rewrite plus_IZR in H. lra. }
    assert (Hx2 : IZR gx - 30 / 2 < IZR px + IZR sz <-> (gx - 15 - sz < px)%Z).
    { split; intro H.
      - apply lt_IZR. rewrite !minus_IZR. lra.
      - apply IZR_lt in H. rewrite !minus_IZR in H. lra. }
    assert (Hy1 : IZR py < IZR gy - 30 / 2 + 30 <-> (py < gy + 15)%Z).
    { split; intro H.
      - apply lt_IZR. rewrite plus_IZR. lra.
      - apply IZR_lt in H. rewrite plus_IZR in H. lra. }
    assert (Hy2 : IZR gy - 30 / 2 < IZR py + IZR sz <-> (gy - 15 - sz < py)%Z).
    { split; intro H.
      - apply lt_IZR. rewrite !minus_IZR. lra.
      - apply IZR_lt in H. rewrite !minus_IZR in H. lra. }
    split.
    + intro H. injection H as H. apply boundingBoxCollision_Num in H.
      destruct H as (H1 & H2 & H3 & H4).
      apply Hx1 in H1. apply Hx2 in H2. apply Hy1 in H3. apply Hy2 in H4.
      lia.
    + intros [[H2 H1] [H4 H3]]. f_equal. apply boundingBoxCollision_Num.
      apply Hx1 in H1. apply Hx2 in H2. apply Hy1 in H3. apply Hy2 in H4.
      repeat split; assumption.
Qed.

(** ** LevelGenerator: waypoints, regeneration, path ends, walls *)

Lemma waypointLoop_length (rnd : Random) (h : R) (seg : jsnum) (n i k : nat) :
  List.length (fst (LevelGenerator.waypointLoop rnd h seg i n k)) = n.
Proof.
  revert i k. induction n as [| n IH]; intros i k; [reflexivity |].
  cbn [LevelGenerator.waypointLoop].
  destruct (LevelGenerator.waypointLoop rnd h seg (S i) n (S (S k)))
    as [rest k'] eqn:E.
  cbn [fst List.length]. f_equal. refold_fst rest E. apply IH.
Qed.

(** X7.  Every generated level has between 5 and 7 waypoints (the start,
    3 to 5 inner ones, the goal); its start position is the first
    waypoint and its goal position the last, so neither is null after
    [generate()]. *)
Theorem waypoints_count_and_ends :
  forall (rnd : Random) (g : LevelGenerator.t),
    let level := LevelGenerator.generate rnd g in
    let wps := LevelGenerator.getWaypoints level in
    (5 <= List.length wps <= 7)%nat /\
    List.length wps = (Z.to_nat (LevelGenerator.numWaypoints (rnd 0%nat)) + 2)%nat /\
    exists s e : Point.t,
      LevelGenerator.getStartPosition level = Some s /\
      LevelGenerator.getGoalPosition level = Some e /\
      hd_error wps = Some s /\
      last wps s = e.
Proof.
  intros rnd g level wps. unfold wps, level, LevelGenerator.getWaypoints.
  assert (HW := generate_waypoints rnd g). cbv zeta in HW.
  set (wl := LevelGenerator.waypointLoop _ _ _ _ _ _) in HW.
  assert (Hlen : List.length (fst wl)
                 = Z.to_nat (LevelGenerator.numWaypoints (rnd 0%nat)))
    by apply waypointLoop_length.
  assert (Hn := numWaypoints_range (rnd 0%nat)).
  rewrite HW. cbn [List.length]. rewrite length_app, Hlen. cbn [List.length].
  split; [lia |]. split; [lia |].
  rewrite generate_eq in *. cbv zeta in *.
  destruct (setStartAndGoalPositions_fields
              (LevelGenerator.generateWalls
                 (fst (LevelGenerator.generatePath rnd
                         (snd (LevelGenerator.generateWaypoints rnd 0 g))
                         (fst (LevelGenerator.generateWaypoints rnd 0 g))))))
    as (_ & _ & _ & _ & _ & E).
  rewrite E in HW.
  destruct (setStartAndGoalPositions_ends _ _ _ _ HW) as [Hs He].
  eexists; eexists. split; [exact Hs |]. split; [exact He |].
  split; [reflexivity | apply last_cons_app].
Qed.

Lemma generate_depends (rnd : Random) (g1 g2 : LevelGenerator.t) :
  LevelGenerator.width g1 = LevelGenerator.width g2 ->
  LevelGenerator.height g1 = LevelGenerator.height g2 ->
  LevelGenerator.difficulty g1 = LevelGenerator.difficulty g2 ->
  LevelGenerator.settings g1 = LevelGenerator.settings g2 ->
  LevelGenerator.generate rnd g1 = LevelGenerator.generate rnd g2.
Proof.
  destruct g1 as [w1 h1 d1 s1 ws1 p1 sp1 gp1 wp1].
  destruct g2 as [w2 h2 d2 s2 ws2 p2 sp2 gp2 wp2].
  cbn [LevelGenerator.width LevelGenerator.height LevelGenerator.difficulty
       LevelGenerator.settings].
  intros -> -> -> ->.
  rewrite !generate_eq. cbv zeta.
  rewrite !generatePath_eq, !generateWaypoints_eq. cbv zeta.
  cbn [fst snd LevelGenerator.set_waypoints LevelGenerator.set_path
       LevelGenerator.width LevelGenerator.height LevelGenerator.difficulty
       LevelGenerator.settings LevelGenerator.walls LevelGenerator.path
       LevelGenerator.startPosition LevelGenerator.goalPosition
       LevelGenerator.waypoints].
  set (wl := LevelGenerator.waypointLoop _ _ _ _ _ _).
  unfold LevelGenerator.generateWalls, LevelGenerator.getPathWidth.
  cbn [LevelGenerator.set_walls
       LevelGenerator.width LevelGenerator.height LevelGenerator.difficulty
       LevelGenerator.settings LevelGenerator.walls LevelGenerator.path
       LevelGenerator.startPosition LevelGenerator.goalPosition
       LevelGenerator.waypoints].
  unfold LevelGenerator.setStartAndGoalPositions.
  cbn [LevelGenerator.waypoints].
  destruct (fst wl) as [| q l]; reflexivity.
Qed.

(** X8.  [generate()] builds the level from the canvas size, the settings
    and the random source alone: generating again replaces waypoints,
    path, walls, start and goal, and nothing of the level generated
    before shows in the result. *)
Theorem generate_forgets_old_level :
  forall (rnd rnd' : Random) (g : LevelGenerator.t),
    LevelGenerator.generate rnd (LevelGenerator.generate rnd' g)
    = LevelGenerator.generate rnd g.
Proof.
  intros rnd rnd' g.
  destruct (generate_fields rnd' g) as (Hw & Hh & Hs & _).
  apply generate_depends; try assumption.
  rewrite generate_eq. cbv zeta.
  rewrite generatePath_eq, generateWaypoints_eq. cbv zeta.
  unfold LevelGenerator.setStartAndGoalPositions, LevelGenerator.generateWalls.
  cbn [fst snd LevelGenerator.set_waypoints LevelGenerator.set_path
       LevelGenerator.set_walls LevelGenerator.waypoints].
  destruct (fst (LevelGenerator.waypointLoop _ _ _ _ _ _)) as [| q l];
    reflexivity.
Qed.

Lemma bezier_at_0 (a m b : R) (s : Z) :
  (1 <= s)%Z ->
  LevelGenerator.bezier (Num a) (Num m) (Num b) (Num (INR 0) / Num (IZR s))%js
  = Num a.
Proof.
  intro Hs. assert (Hspos : 0 < IZR s) by (apply IZR_lt; lia).
  unfold LevelGenerator.bezier. rewrite div_Num by lra.
  cbn [JS.add JS.sub JS.mul JS.pow2]. f_equal. simpl INR. field. lra.
Qed.

Lemma bezier_at_1 (a m b : R) (s : Z) :
  (1 <= s)%Z ->
  LevelGenerator.bezier (Num a) (Num m) (Num b)
                        (Num (INR (Z.to_nat s)) / Num (IZR s))%js
  = Num b.
Proof.
  intro Hs. assert (Hspos : 0 < IZR s) by (apply IZR_lt; lia).
  unfold LevelGenerator.bezier. rewrite div_Num by lra.
  rewrite INR_IZR_INZ, Z2Nat.id by lia.
  cbn [JS.add JS.sub JS.mul JS.pow2]. f_equal. field. lra.
Qed.

Lemma last_app_cons {A : Type} (l1 : list A) (x : A) (l2 : list A) (d : A) :
  last (l1 ++ x :: l2) d = last (x :: l2) d.
Proof.
  induction l1 as [| y l1 IH]; [reflexivity |].
  change ((y :: l1) ++ x :: l2) with (y :: (l1 ++ x :: l2)).
  destruct (l1 ++ x :: l2) as [| z l] eqn:E.
  - destruct l1; discriminate E.
  - change (last (y :: z :: l) d) with (last (z :: l) d). exact IH.
Qed.

(** Start and goal of a generated level are the ends of its waypoints. *)
Lemma generate_waypoints_ends (rnd : Random) (g : LevelGenerator.t) :
  exists (s e : Point.t) (inner : list Point.t),
    LevelGenerator.getStartPosition (LevelGenerator.generate rnd g) = Some s /\
    LevelGenerator.getGoalPosition (LevelGenerator.generate rnd g) = Some e /\
    LevelGenerator.waypoints (LevelGenerator.generate rnd g) = s :: inner ++ [e].
Proof.
  assert (HW := generate_waypoints rnd g). cbv zeta in HW.
  set (wl := LevelGenerator.waypointLoop _ _ _ _ _ _) in HW.
  assert (HW' := HW).
  rewrite generate_eq in HW |- *. cbv zeta in HW |- *.
  destruct (setStartAndGoalPositions_fields
              (LevelGenerator.generateWalls
                 (fst (LevelGenerator.generatePath rnd
                         (snd (LevelGenerator.generateWaypoints rnd 0 g))
                         (fst (LevelGenerator.generateWaypoints rnd 0 g))))))
    as (_ & _ & _ & _ & _ & E).
  rewrite E in HW.
  destruct (setStartAndGoalPositions_ends _ _ _ _ HW) as [Hs He].
  eexists; eexists; eexists. split; [exact Hs |]. split; [exact He |].
  rewrite E. exact HW.
Qed.

Section PathEnds.

Variable rnd : Random.

(** Between finite waypoints joined by [s >= 1] steps, step 0 is the first
    waypoint and step [s] the second. *)
Lemma pathPoint_ends (a b c d : R) (s : Z) (k : nat) :
  (1 <= s)%Z ->
  LevelGenerator.pathPoint rnd (Point.mk (Num a) (Num b)) (Point.mk (Num c) (Num d))
                           (Num (IZR s)) 0 k
  = Point.mk (Num a) (Num b) /\
  LevelGenerator.pathPoint rnd (Point.mk (Num a) (Num b)) (Point.mk (Num c) (Num d))
                           (Num (IZR s)) (Z.to_nat s) k
  = Point.mk (Num c) (Num d).
Proof.
  intro Hs. unfold LevelGenerator.pathPoint. cbn [Point.x Point.y].
  cbn [JS.add]. rewrite !(div_Num _ 2) by lra. cbn [JS.add JS.sub JS.mul].
  rewrite !bezier_at_0, !bezier_at_1 by exact Hs. split; reflexivity.
Qed.

Lemma stepLoop_last (p q : Point.t) (steps : jsnum) (dflt : Point.t) :
  forall n t k : nat,
    last (fst (LevelGenerator.stepLoop rnd p q steps t (S n) k)) dflt
    = LevelGenerator.pathPoint rnd p q steps (t + n) (k + 2 * n).
Proof.
  induction n as [| n IH]; intros t k.
  - rewrite stepLoop_S. cbn [LevelGenerator.stepLoop fst last].
    f_equal; lia.
  - rewrite stepLoop_S.
    change (last (?x :: ?l) dflt)
      with (match l with [] => x | _ :: _ => last l dflt end).
    rewrite IH. rewrite stepLoop_S.
    f_equal; lia.
Qed.

(** The path through a gapped run of waypoints begins at the first and
    ends at the last of them. *)
Lemma segmentLoop_ends (hi yl yh : R) :
  forall (l : list Point.t) (a b : R) (k : nat) (dflt : Point.t),
    l <> [] ->
    gapped hi yl yh a l ->
    let path := fst (LevelGenerator.segmentLoop rnd (Point.mk (Num a) (Num b) :: l) k) in
    hd_error path = Some (Point.mk (Num a) (Num b)) /\
    last path dflt = last l dflt.
Proof.
  induction l as [| q l IH]; intros a b k dflt Hne Hg; [now elim Hne |].
  cbn [gapped] in Hg. destruct Hg as (c & d & -> & Hac & Hc & Hd & Hg).
  destruct (stepsBetween_finite a b c d Hac) as (s & Hs & Esteps).
  cbv zeta. rewrite segmentLoop_cons. cbv zeta. rewrite Esteps, loopCount_IZR.
  cbn [fst].
  replace (Z.to_nat (s + 1)) with (S (Z.to_nat s)) by lia.
  set (sl := LevelGenerator.stepLoop rnd _ _ (Num (IZR s)) 0 (S (Z.to_nat s)) k).
  assert (Hhd : hd_error (fst sl) = Some (Point.mk (Num a) (Num b))).
  { unfold sl. rewrite stepLoop_S. cbn [hd_error].
    rewrite (proj1 (pathPoint_ends a b c d s k Hs)). reflexivity. }
  assert (Hlast : last (fst sl) dflt = Point.mk (Num c) (Num d)).
  { unfold sl. rewrite stepLoop_last. cbn [Nat.add].
    apply (proj2 (pathPoint_ends a b c d s _ Hs)). }
  split.
  - destruct (fst sl) as [| p0 rest]; [discriminate Hhd |]. exact Hhd.
  - destruct l as [| q' l'].
    + cbn [LevelGenerator.segmentLoop fst]. rewrite app_nil_r. exact Hlast.
    + destruct (IH c d (snd sl) dflt ltac:(discriminate) Hg) as [Hhd' Hlast'].
      cbv zeta in Hhd', Hlast'.
      destruct (fst (LevelGenerator.segmentLoop rnd
                       (Point.mk (Num c) (Num d) :: q' :: l') (snd sl)))
        as [| m0 more] eqn:Em; [discriminate Hhd' |].
      rewrite last_app_cons. rewrite Hlast'. reflexivity.
Qed.

End PathEnds.

(** X9.  On a canvas at least 480 wide and 200 high, for every outcome of
    the random source, the generated path begins exactly at the start
    position and ends exactly at the goal position. *)
Theorem path_runs_from_start_to_goal :
  forall (w h : R) (d : string) (rnd : Random) (g : LevelGenerator.t),
    480 <= w -> 200 <= h ->
    LevelGenerator.new w h d = Ok g ->
    let level := LevelGenerator.generate rnd g in
    exists s e : Point.t,
      LevelGenerator.getStartPosition level = Some s /\
      LevelGenerator.getGoalPosition level = Some e /\
      hd_error (LevelGenerator.getPath level) = Some s /\
      last (LevelGenerator.getPath level) s = e.
Proof.
  intros w h d rnd g Hw Hh Hnew level.
  destruct (new_fields w h d g Hnew) as [Ew Eh].
  destruct (generate_waypoints_ends rnd g) as (s & e & inner & Hs & He & HW).
  exists s, e. split; [exact Hs |]. split; [exact He |].
  unfold LevelGenerator.getPath, level.
  destruct (generate_fields rnd g) as (_ & _ & _ & Hwps & -> & _).
  rewrite <- Hwps.
  destruct (generate_waypoints_gapped rnd g) as (rest & Erest & Hg);
    [lra | lra |].
  rewrite Erest in HW. injection HW as <- HW. subst rest.
  destruct (segmentLoop_ends rnd (LevelGenerator.width g - 50) 100
              (LevelGenerator.height g - 100) (inner ++ [e]) 50
              (LevelGenerator.height g / 2)
              (snd (LevelGenerator.generateWaypoints rnd 0 g))
              (Point.mk (Num 50) (Num (LevelGenerator.height g / 2))))
    as [H1 H2].
  - intro Habs. apply app_eq_nil in Habs. destruct Habs as [_ Habs].
    discriminate Habs.
  - exact Hg.
  - cbv zeta in H1, H2. rewrite Erest. split; [exact H1 |].
    rewrite H2. rewrite last_app_cons. reflexivity.
Qed.

(** An instance: the level with the steep first segment. *)
Lemma path_runs_from_start_to_goal_witness :
  exists s e : Point.t,
    LevelGenerator.getStartPosition (easyLevel rndSteep) = Some s /\
    LevelGenerator.getGoalPosition (easyLevel rndSteep) = Some e /\
    hd_error (LevelGenerator.getPath (easyLevel rndSteep)) = Some s /\
    last (LevelGenerator.getPath (easyLevel rndSteep)) s = e.
Proof.
  apply (path_runs_from_start_to_goal 800 600 "easy" rndSteep _
           ltac:(lra) ltac:(lra) eq_refl).
Defined.

Lemma wallsAt_squares (hw : jsnum) (p q : Point.t) :
  (List.length (LevelGenerator.wallsAt hw p q) <= 2)%nat /\
  Forall (fun r => Rect.width r = Num 20 /\ Rect.height r = Num 20)
         (LevelGenerator.wallsAt hw p q).
Proof.
  unfold LevelGenerator.wallsAt.
  destruct (_ >? Num 0)%js; cbn [List.length]; split; try lia.
  - repeat constructor.
  - constructor.
Qed.

Lemma wallLoop_squares (hw : jsnum) (p : list Point.t) :
  (List.length (LevelGenerator.wallLoop hw p) <= 2 * pred (List.length p))%nat /\
  Forall (fun r => Rect.width r = Num 20 /\ Rect.height r = Num 20)
         (LevelGenerator.wallLoop hw p).
Proof.
  induction p as [| a p IH]; [split; [cbn; lia | constructor] |].
  destruct p as [| b p]; [split; [cbn; lia | constructor] |].
  rewrite wallLoop_cons. destruct IH as [IHl IHf].
  destruct (wallsAt_squares hw a b) as [Hl Hf].
  split.
  - rewrite length_app. cbn [List.length pred] in *. lia.
  - apply Forall_app. split; assumption.
Qed.

(** X10.  Every generated level has walls: the corridor squares, each 20
    by 20 and at most two per step of the path, followed by the four
    fence rectangles.  On a canvas of positive width and height every
    wall has positive width and height. *)
Theorem walls_present_and_positive :
  forall (rnd : Random) (g : LevelGenerator.t),
    let level := LevelGenerator.generate rnd g in
    exists corridor : list Rect.t,
      LevelGenerator.getWalls level
      = corridor ++ LevelGenerator.boundaryWalls (LevelGenerator.width g)
                                                 (LevelGenerator.height g) /\
      Forall (fun r => Rect.width r = Num 20 /\ Rect.height r = Num 20) corridor /\
      (List.length corridor
       <= 2 * pred (List.length (LevelGenerator.getPath level)))%nat /\
      (4 <= List.length (LevelGenerator.getWalls level))%nat /\
      (0 < LevelGenerator.width g -> 0 < LevelGenerator.height g ->
       Forall (fun r => (Num 0 <? Rect.width r)%js = true /\
                        (Num 0 <? Rect.height r)%js = true)
              (LevelGenerator.getWalls level)).
Proof.
  intros rnd g level. unfold level, LevelGenerator.getWalls, LevelGenerator.getPath.
  destruct (generate_fields rnd g) as (_ & _ & _ & _ & _ & ->).
  set (hw := (JS.toNumber (LevelGenerator.getPathWidth g) / Num 2)%js).
  set (p := LevelGenerator.path (LevelGenerator.generate rnd g)).
  destruct (wallLoop_squares hw p) as [Hl Hf].
  exists (LevelGenerator.wallLoop hw p).
  split; [reflexivity |]. split; [exact Hf |]. split; [exact Hl |].
  split.
  - rewrite length_app. cbn [List.length LevelGenerator.boundaryWalls]. lia.
  - intros Hw Hh. apply Forall_app. split.
    + eapply Forall_impl; [| exact Hf].
      intros r [-> ->]. split; apply lt_Num; lra.
    + unfold LevelGenerator.boundaryWalls, LevelGenerator.boundaryThickness.
      repeat constructor; cbn [Rect.width Rect.height]; apply lt_Num; lra.
Qed.

(** The two squares beside a path point before a step along the x axis. *)
Lemma wallsAt_horizontal (hw a b c sigma : R) :
  sigma * sigma = 1 -> 0 < sigma * (c - a) ->
  LevelGenerator.wallsAt (Num hw) (Point.mk (Num a) (Num b))
                         (Point.mk (Num c) (Num b))
  = [ Rect.mk (Num (a - 10)) (Num (b + sigma * (hw + 10) - 10)) (Num 20) (Num 20);
      Rect.mk (Num (a - 10)) (Num (b - sigma * (hw + 10) - 10)) (Num 20) (Num 20) ].
Proof.
  intros Hs Hpos.
  assert (Elen : sqrt ((c - a) * (c - a) + (b - b) * (b - b)) = sigma * (c - a)).
  { replace ((c - a) * (c - a) + (b - b) * (b - b))
      with (sigma * (c - a) * (sigma * (c - a)))
      by (transitivity (sigma * sigma * ((c - a) * (c - a)));
          [ring | rewrite Hs; ring]).
    apply sqrt_square. lra. }
  rewrite wallsAt_finite by (rewrite Elen; exact Hpos).
  rewrite Elen.
  assert (Eq : (c - a) / (sigma * (c - a)) = sigma).
  { assert (c - a <> 0) by nra. assert (sigma <> 0) by nra.
    apply (Rmult_eq_reg_r sigma); [| assumption].
    rewrite Hs. field. split; assumption. }
  rewrite Eq.
  replace (- (b - b) / (sigma * (c - a))) with 0
    by (unfold Rdiv; replace (- (b - b)) with 0 by ring; ring).
  replace (a + 0 * (hw + 20 / 2) - 20 / 2) with (a - 10) by field.
  replace (a - 0 * (hw + 20 / 2) - 20 / 2) with (a - 10) by field.
  replace (b + sigma * (hw + 20 / 2) - 20 / 2)
    with (b + sigma * (hw + 10) - 10) by field.
  replace (b - sigma * (hw + 20 / 2) - 20 / 2)
    with (b - sigma * (hw + 10) - 10) by field.
  reflexivity.
Qed.

(** The two squares beside a path point before a step along the y axis. *)
Lemma wallsAt_vertical (hw a b d sigma : R) :
  sigma * sigma = 1 -> 0 < sigma * (d - b) ->
  LevelGenerator.wallsAt (Num hw) (Point.mk (Num a) (Num b))
                         (Point.mk (Num a) (Num d))
  = [ Rect.mk (Num (a - sigma * (hw + 10) - 10)) (Num (b - 10)) (Num 20) (Num 20);
      Rect.mk (Num (a + sigma * (hw + 10) - 10)) (Num (b - 10)) (Num 20) (Num 20) ].
Proof.
  intros Hs Hpos.
  assert (Elen : sqrt ((a - a) * (a - a) + (d - b) * (d - b)) = sigma * (d - b)).
  { replace ((a - a) * (a - a) + (d - b) * (d - b))
      with (sigma * (d - b) * (sigma * (d - b)))
      by (transitivity (sigma * sigma * ((d - b) * (d - b)));
          [ring | rewrite Hs; ring]).
    apply sqrt_square. lra. }
  rewrite wallsAt_finite by (rewrite Elen; exact Hpos).
  rewrite Elen.
  assert (Eq : - (d - b) / (sigma * (d - b)) = - sigma).
  { assert (d - b <> 0) by nra. assert (sigma <> 0) by nra.
    apply (Rmult_eq_reg_r sigma); [| assumption].
    replace (- sigma * sigma) with (- (sigma * sigma)) by ring.
    rewrite Hs. field. split; assumption. }
  rewrite Eq.
  replace ((a - a) / (sigma * (d - b))) with 0
    by (unfold Rdiv; replace (a - a) with 0 by ring; ring).
  replace (a + - sigma * (hw + 20 / 2) - 20 / 2)
    with (a - sigma * (hw + 10) - 10) by field.
  replace (a - - sigma * (hw + 20 / 2) - 20 / 2)
    with (a + sigma * (hw + 10) - 10) by field.
  replace (b + 0 * (hw + 20 / 2) - 20 / 2) with (b - 10) by field.
  replace (b - 0 * (hw + 20 / 2) - 20 / 2) with (b - 10) by field.
  reflexivity.
Qed.

(** X11.  Beside a path point whose successor is the same finite point no
    corridor square is placed.  Before a step along one axis, in
    whole-number coordinates of magnitude at most 2^25, [generateWalls]
    places exactly two squares of side 20, centred at distance
    [hw + 10] from the path point [(a, b)] on the line across the step:
    for a step in x at [(a, b + hw + 10)] and [(a, b - hw - 10)], for a
    step in y at [(a - hw - 10, b)] and [(a + hw + 10, b)], the first
    of the two on the side that the code calls left. *)
Theorem corridor_squares_flank_path :
  (forall hw a b : R,
      LevelGenerator.wallsAt (Num hw) (Point.mk (Num a) (Num b))
                             (Point.mk (Num a) (Num b)) = []) /\
  (forall hw a b c : Z,
      (Z.abs hw <= 2 ^ 25 /\ Z.abs a <= 2 ^ 25 /\ Z.abs b <= 2 ^ 25 /\
       Z.abs c <= 2 ^ 25)%Z ->
      let square x y := Rect.mk (Num (IZR x)) (Num (IZR y)) (Num 20) (Num 20) in
      let step_x next := LevelGenerator.wallsAt
                           (Num (IZR hw))
                           (Point.mk (Num (IZR a)) (Num (IZR b)))
                           (Point.mk (Num (IZR next)) (Num (IZR b))) in
      let step_y next := LevelGenerator.wallsAt
                           (Num (IZR hw))
                           (Point.mk (Num (IZR a)) (Num (IZR b)))
                           (Point.mk (Num (IZR a)) (Num (IZR next))) in
      ((a < c)%Z ->
       step_x c = [ square (a - 10)%Z (b + (hw + 10) - 10)%Z;
                    square (a - 10)%Z (b - (hw + 10) - 10)%Z ]) /\
      ((c < a)%Z ->
       step_x c = [ square (a - 10)%Z (b - (hw + 10) - 10)%Z;
                    square (a - 10)%Z (b + (hw + 10) - 10)%Z ]) /\
      ((b < c)%Z ->
       step_y c = [ square (a - (hw + 10) - 10)%Z (b - 10)%Z;
                    square (a + (hw + 10) - 10)%Z (b - 10)%Z ]) /\
      ((c < b)%Z ->
       step_y c = [ square (a + (hw + 10) - 10)%Z (b - 10)%Z;
                    square (a - (hw + 10) - 10)%Z (b - 10)%Z ])).
Proof.
  split.
  - intros hw a b. unfold LevelGenerator.wallsAt.
    cbn [Point.x Point.y JS.sub JS.mul JS.add].
    rewrite sqrt_Num by lra.
    replace ((a - a) * (a - a) + (b - b) * (b - b)) with 0 by ring.
    rewrite sqrt_0. unfold JS.gt. rewrite lt_irrefl. reflexivity.
  - intros hw a b c _ square step_x step_y. unfold square, step_x, step_y.
    split; [| split; [| split]]; intro H; apply IZR_lt in H.
    + rewrite (wallsAt_horizontal _ _ _ _ 1) by lra.
      rewrite !minus_IZR, !plus_IZR.
      replace (IZR b + 1 * (IZR hw + 10) - 10) with (IZR b + (IZR hw + 10) - 10)
        by ring.
      replace (IZR b - 1 * (IZR hw + 10) - 10) with (IZR b - (IZR hw + 10) - 10)
        by ring.
      reflexivity.
    + rewrite (wallsAt_horizontal _ _ _ _ (-1)) by lra.
      rewrite !minus_IZR, !plus_IZR.
      replace (IZR b + -1 * (IZR hw + 10) - 10) with (IZR b - (IZR hw + 10) - 10)
        by ring.
      replace (IZR b - -1 * (IZR hw + 10) - 10) with (IZR b + (IZR hw + 10) - 10)
        by ring.
      reflexivity.
    + rewrite (wallsAt_vertical _ _ _ _ 1) by lra.
      rewrite !minus_IZR, !plus_IZR.
      replace (IZR a - 1 * (IZR hw + 10) - 10) with (IZR a - (IZR hw + 10) - 10)
        by ring.
      replace (IZR a + 1 * (IZR hw + 10) - 10) with (IZR a + (IZR hw + 10) - 10)
        by ring.
      reflexivity.
    + rewrite (wallsAt_vertical _ _ _ _ (-1)) by lra.
      rewrite !minus_IZR, !plus_IZR.
      replace (IZR a - -1 * (IZR hw + 10) - 10) with (IZR a + (IZR hw + 10) - 10)
        by ring.
      replace (IZR a + -1 * (IZR hw + 10) - 10) with (IZR a - (IZR hw + 10) - 10)
        by ring.
      reflexivity.
Qed.

(** An instance: a step to the right from (100, 100) to (105, 100) in a
    corridor of half width 50. *)
Lemma corridor_squares_flank_path_witness :
  LevelGenerator.wallsAt (Num 50) (Point.mk (Num 100) (Num 100))
                         (Point.mk (Num 105) (Num 100))
  = [ Rect.mk (Num 90) (Num 150) (Num 20) (Num 20);
      Rect.mk (Num 90) (Num 30) (Num 20) (Num 20) ].
Proof.
  destruct corridor_squares_flank_path as [_ H].
  destruct (H 50%Z 100%Z 100%Z 105%Z) as (H1 & _).
  - cbn. lia.
  - exact (H1 eq_refl).
Defined.

Lemma sub_NaN_r (a : jsnum) : (a - NaN)%js = NaN.
Proof. destruct a; reflexivity. Qed.

Lemma mul_NaN_r (a : jsnum) : (a * NaN)%js = NaN.
Proof. destruct a; reflexivity. Qed.

Lemma wallsAt_NaN (p q : Point.t) :
  Forall hasNaN (LevelGenerator.wallsAt NaN p q).
Proof.
  unfold LevelGenerator.wallsAt.
  destruct (_ >? Num 0)%js; [| constructor].
  cbn [JS.add]. rewrite !mul_NaN_r, !add_NaN_r, !sub_NaN_r. cbn [JS.sub].
  repeat constructor; left; reflexivity.
Qed.

Lemma wallLoop_NaN (p : list Point.t) :
  Forall hasNaN (LevelGenerator.wallLoop NaN p).
Proof.
  induction p as [| a p IH]; [constructor |].
  destruct p as [| b p]; [constructor |].
  rewrite wallLoop_cons. apply Forall_app. split; [apply wallsAt_NaN | exact IH].
Qed.

Lemma hitsAny_NaN_bounds (b : Rect.t) (ws : list Rect.t) :
  hasNaN b -> CollisionDetector.hitsAny b ws = false.
Proof.
  intro H. induction ws as [| w ws IH]; [reflexivity |].
  cbn [CollisionDetector.hitsAny].
  rewrite (hasNaN_no_collision_l b w H). exact IH.
Qed.

(** X12.  A generator whose settings are a member of [Object.prototype]
    (the constructor lets such difficulties through) has no path width
    and no speed.  The corridor squares of its levels have NaN positions;
    a character with a heading gets a NaN coordinate at its first tick,
    and from then on it overlaps no wall of the level, the fence
    included, and no other rectangle either. *)
Theorem inherited_settings_level_is_intangible :
  forall (rnd : Random) (g : LevelGenerator.t) (name : string),
    LevelGenerator.settings g = LevelGenerator.Inherited name ->
    let level := LevelGenerator.generate rnd g in
    (exists corridor : list Rect.t,
        LevelGenerator.getWalls level
        = corridor ++ LevelGenerator.boundaryWalls (LevelGenerator.width g)
                                                   (LevelGenerator.height g) /\
        Forall hasNaN corridor) /\
    (forall (c : Character.t) (d : string),
        Character.direction c = Some d -> In d Character.validDirections ->
        let moved := Character.update
                       (JS.toNumber (LevelGenerator.getCharacterSpeed level)) c in
        hasNaN (Character.getBounds moved) /\
        CollisionDetector.hitsAny (Character.getBounds moved)
                                  (LevelGenerator.getWalls level) = false /\
        forall r : Rect.t,
          CollisionDetector.boundingBoxCollision (Character.getBounds moved) r
          = false).
Proof.
  intros rnd g name Hset level. split.
  - unfold level, LevelGenerator.getWalls.
    destruct (generate_fields rnd g) as (_ & _ & _ & _ & _ & ->).
    unfold LevelGenerator.getPathWidth. rewrite Hset.
    cbn [JS.toNumber JS.div].
    eexists. split; [reflexivity | apply wallLoop_NaN].
  - intros c d Hd Hin moved.
    assert (HN : hasNaN (Character.getBounds moved)).
    { unfold moved, level.
      destruct (generate_getters rnd g) as [_ ->].
      unfold LevelGenerator.getCharacterSpeed. rewrite Hset.
      cbn [JS.toNumber]. unfold Character.update. rewrite Hd.
      cbn [Character.validDirections In] in Hin.
      destruct Hin as [<- | [<- | [<- | [<- | []]]]];
        cbn [String.eqb Ascii.eqb Bool.eqb andb];
        unfold hasNaN, Character.getBounds;
        cbn [Rect.x Rect.y Character.x Character.y];
        rewrite ?sub_NaN_r, ?add_NaN_r; auto. }
    split; [exact HN |]. split.
    + apply hitsAny_NaN_bounds. exact HN.
    + intro r. apply hasNaN_no_collision_l. exact HN.
Qed.

(** An instance: the generator built for the difficulty "constructor",
    and a character heading right. *)
Lemma inherited_settings_level_is_intangible_witness :
  CollisionDetector.hitsAny
    (Character.getBounds
       (Character.update
          (JS.toNumber
             (LevelGenerator.getCharacterSpeed
                (LevelGenerator.generate rndZero
                   (LevelGenerator.mk 800 600 "constructor"
                      (LevelGenerator.Inherited "constructor")
                      [] [] None None []))))
          (Character.setDirection "right"
             (Character.new (Num 50) (Num 300) (Num 10)))))
    (LevelGenerator.getWalls
       (LevelGenerator.generate rndZero
          (LevelGenerator.mk 800 600 "constructor"
             (LevelGenerator.Inherited "constructor") [] [] None None [])))
  = false.
Proof.
  destruct (inherited_settings_level_is_intangible rndZero
              (LevelGenerator.mk 800 600 "constructor"
                 (LevelGenerator.Inherited "constructor") [] [] None None [])
              "constructor" eq_refl) as [_ H].
  destruct (H (Character.setDirection "right"
                 (Character.new (Num 50) (Num 300) (Num 10)))
              "right"%string eq_refl) as (_ & H2 & _).
  - right. right. right. left. reflexivity.
  - exact H2.
Defined.

(** ** GameManager: what a tick does *)

Lemma handleGameOver_frame (now : Z) (g : GameManager.t) :
  GameManager.levelGenerator (GameManager.handleGameOver now g)
  = GameManager.levelGenerator g /\
  GameManager.collisionDetector (GameManager.handleGameOver now g)
  = GameManager.collisionDetector g /\
  GameManager.inputHandler (GameManager.handleGameOver now g)
  = option_map InputHandler.disable (GameManager.inputHandler g).
Proof.
  destruct_manager g.
  unfold GameManager.handleGameOver, GameManager.on_inputHandler.
  destruct g_input as [h |], g_animation as [a |], g_detector as [d |]; cbn;
    try (destruct (CollisionDetector.getCollisionPoint d)); cbn;
    repeat split; reflexivity.
Qed.

Lemma handleGoalReached_fields (now : Z) (g g' : GameManager.t) :
  GameManager.handleGoalReached now g = Ok g' ->
  GameManager.state g' = GameManager.Victory /\
  GameManager.score g' = GameManager.currentTime g /\
  GameManager.currentTime g' = GameManager.currentTime g /\
  GameManager.startTime g' = GameManager.startTime g /\
  GameManager.character g' = GameManager.character g /\
  GameManager.levelGenerator g' = GameManager.levelGenerator g /\
  GameManager.collisionDetector g' = GameManager.collisionDetector g /\
  GameManager.inputHandler g'
  = option_map InputHandler.disable (GameManager.inputHandler g).
Proof.
  destruct_manager g.
  unfold GameManager.handleGoalReached, GameManager.on_inputHandler.
  destruct g_input as [h |], g_animation as [a |], g_level as [l |]; cbn;
    try (destruct (LevelGenerator.getGoalPosition l)); cbn;
    intro H; inversion H; repeat split; reflexivity.
Qed.

(** With the goal of the level set, [handleGoalReached] does not throw. *)
Lemma handleGoalReached_ok (now : Z) (g : GameManager.t) :
  (forall lg, GameManager.levelGenerator g = Some lg ->
              LevelGenerator.getGoalPosition lg <> None) ->
  exists g', GameManager.handleGoalReached now g = Ok g'.
Proof.
  destruct_manager g. intro H.
  unfold GameManager.handleGoalReached, GameManager.on_inputHandler.
  destruct g_input as [h |], g_animation as [a |], g_level as [l |]; cbn;
    try (destruct (LevelGenerator.getGoalPosition l) eqn:E;
         [| exfalso; apply (H l eq_refl); exact E]);
    eexists; reflexivity.
Qed.

Lemma with_currentTime_moveCharacter_fields (t : Z) (g : GameManager.t) :
  let g1 := GameManager.with_currentTime t (GameManager.moveCharacter g) in
  GameManager.state g1 = GameManager.state g /\
  GameManager.startTime g1 = GameManager.startTime g /\
  GameManager.currentTime g1 = t /\
  GameManager.score g1 = GameManager.score g /\
  GameManager.levelGenerator g1 = GameManager.levelGenerator g /\
  GameManager.collisionDetector g1 = GameManager.collisionDetector g /\
  GameManager.inputHandler g1 = GameManager.inputHandler g /\
  GameManager.animationEngine g1 = GameManager.animationEngine g /\
  GameManager.dispatched g1 = GameManager.dispatched g /\
  GameManager.character g1 = GameManager.character (GameManager.moveCharacter g).
Proof.
  destruct_manager g. unfold GameManager.moveCharacter.
  destruct g_character as [c |], g_level as [l |]; cbn; repeat split; reflexivity.
Qed.

(** X13.  In a tick while playing with no animation in flight, when the
    moved character overlaps no wall but the goal hit-box, the state
    becomes victory and the score is set to the elapsed time of this
    tick, [now - startTime]; that is also what [getCurrentScore()]
    returns afterwards. *)
Theorem goal_reached_records_score :
  forall (now : Z) (g : GameManager.t) (c : Character.t)
         (d : CollisionDetector.t),
    GameManager.state g = GameManager.Playing ->
    animationIdle g = true ->
    wellFormed g ->
    GameManager.character (GameManager.moveCharacter g) = Some c ->
    GameManager.collisionDetector g = Some d ->
    CollisionDetector.hitsAny (Character.getBounds c) (CollisionDetector.walls d)
    = false ->
    CollisionDetector.checkGoalCollision c d = Ok true ->
    exists g' : GameManager.t,
      GameManager.update now g = Ok g' /\
      GameManager.state g' = GameManager.Victory /\
      GameManager.score g' = (now - GameManager.startTime g)%Z /\
      GameManager.currentTime g' = (now - GameManager.startTime g)%Z /\
      GameManager.getCurrentScore g' = (now - GameManager.startTime g)%Z /\
      GameManager.character g' = Some c.
Proof.
  intros now g c d Hs Hidle [Hwf _] Hc Hd Hmiss Hgoal.
  rewrite (update_playing now g Hs Hidle), moveCharacter_with_currentTime.
  set (t := (now - GameManager.startTime g)%Z).
  destruct (with_currentTime_moveCharacter_fields t g)
    as (E1 & E2 & E3 & E4 & E5 & E6 & E7 & E8 & E9 & E10).
  cbv zeta in *.
  set (g1 := GameManager.with_currentTime t (GameManager.moveCharacter g)) in *.
  unfold GameManager.detectCollisions. rewrite E6, Hd, E10, Hc.
  unfold CollisionDetector.checkWallCollision. rewrite Hmiss, Hgoal.
  cbn [bind].
  destruct (handleGoalReached_ok now (GameManager.with_collisionDetector (Some d) g1))
    as [g' Hg'].
  { intros lg Hlg. apply Hwf.
    rewrite <- E5. destruct g1; exact Hlg. }
  exists g'. split; [exact Hg' |].
  destruct (handleGoalReached_fields now _ g' Hg')
    as (F1 & F2 & F3 & F4 & F5 & _).
  unfold GameManager.getCurrentScore. rewrite F1, F2, F3, F5.
  cbn [GameManager.isPlayingState].
  replace (GameManager.currentTime (GameManager.with_collisionDetector (Some d) g1))
    with t by (rewrite <- E3; destruct g1; reflexivity).
  replace (GameManager.character (GameManager.with_collisionDetector (Some d) g1))
    with (Some c) by (rewrite <- Hc, <- E10; destruct g1; reflexivity).
  repeat split; reflexivity.
Qed.

(** An instance: a character standing on the goal, away from the wall. *)
Lemma goal_reached_records_score_witness :
  exists g' : GameManager.t,
    GameManager.update 6000 managerAtGoal = Ok g' /\
    GameManager.state g' = GameManager.Victory /\
    GameManager.score g' = 5000%Z.
Proof.
  destruct (goal_reached_records_score 6000%Z managerAtGoal
              (Character.new (Num 100) (Num 100) (Num 10))
              (CollisionDetector.new
                 [Rect.mk (Num 0) (Num 0) (Num 50) (Num 600)]
                 (Some (Point.mk (Num 105) (Num 105)))))
    as (g' & H1 & H2 & H3 & _).
  - reflexivity.
  - reflexivity.
  - split.
    + intros lg H. discriminate H.
    + intros d H. injection H as <-. split; discriminate.
  - reflexivity.
  - reflexivity.
  - cbn [CollisionDetector.walls CollisionDetector.new CollisionDetector.hitsAny].
    replace (CollisionDetector.boundingBoxCollision _ _) with false; [reflexivity |].
    symmetry. apply not_true_is_false. intro H.
    apply boundingBoxCollision_Num in H. lra.
  - unfold CollisionDetector.checkGoalCollision, CollisionDetector.goalBounds.
    cbn [CollisionDetector.goal CollisionDetector.new CollisionDetector.goalSize
         Point.x Point.y].
    rewrite !div_Num by lra. f_equal.
    apply boundingBoxCollision_Num. lra.
  - exists g'. split; [exact H1 |]. split; [exact H2 |]. exact H3.
Defined.

(** X14.  In a tick while playing with no animation in flight, when the
    moved character overlaps neither a wall nor the goal hit-box, the
    tick only sets the timer to [now - startTime] and moves the
    character: the state stays playing, the score is untouched, and
    [getCurrentScore()] returns the elapsed time. *)
Theorem safe_tick_keeps_playing :
  forall (now : Z) (g : GameManager.t) (c : Character.t)
         (d : CollisionDetector.t),
    GameManager.state g = GameManager.Playing ->
    animationIdle g = true ->
    GameManager.character (GameManager.moveCharacter g) = Some c ->
    GameManager.collisionDetector g = Some d ->
    CollisionDetector.hitsAny (Character.getBounds c) (CollisionDetector.walls d)
    = false ->
    CollisionDetector.checkGoalCollision c d = Ok false ->
    let g' := GameManager.with_currentTime (now - GameManager.startTime g)
                (GameManager.moveCharacter g) in
    GameManager.update now g = Ok g' /\
    GameManager.state g' = GameManager.Playing /\
    GameManager.character g' = Some c /\
    GameManager.score g' = GameManager.score g /\
    GameManager.getCurrentScore g' = (now - GameManager.startTime g)%Z /\
    GameManager.dispatched g' = GameManager.dispatched g.
Proof.
  intros now g c d Hs Hidle Hc Hd Hmiss Hgoal g'.
  rewrite (update_playing now g Hs Hidle), moveCharacter_with_currentTime.
  destruct (with_currentTime_moveCharacter_fields
              (now - GameManager.startTime g) g)
    as (E1 & E2 & E3 & E4 & E5 & E6 & E7 & E8 & E9 & E10).
  cbv zeta in *. fold g' in E1, E2, E3, E4, E5, E6, E7, E8, E9, E10 |- *.
  unfold GameManager.detectCollisions. rewrite E6, Hd, E10, Hc.
  unfold CollisionDetector.checkWallCollision. rewrite Hmiss, Hgoal.
  cbn [bind]. split.
  - unfold GameManager.render. f_equal.
    rewrite <- Hd, <- E6. destruct g'; reflexivity.
  - unfold GameManager.getCurrentScore.
    rewrite E1, Hs, E3, E4, E9. cbn [GameManager.isPlayingState].
    repeat split; reflexivity.
Qed.

(** An instance: the first tick of a run, before any key is pressed, of a
    manager without level generator whose character stands clear of the
    wall and the goal. *)
Lemma safe_tick_keeps_playing_witness :
  let g := GameManager.mk canvas800x600 "easy" GameManager.Playing 1000 0 0 true
             (Some (Character.new (Num 100) (Num 100) (Num 10))) None
             (Some (CollisionDetector.new
                      [Rect.mk (Num 0) (Num 0) (Num 50) (Num 600)]
                      (Some (Point.mk (Num 700) (Num 300)))))
             false None None [] in
  GameManager.update 1016 g = Ok (GameManager.with_currentTime 16 g).
Proof.
  cbv zeta.
  match goal with
  | |- GameManager.update _ ?g = _ =>
      destruct (safe_tick_keeps_playing 1016%Z g
                  (Character.new (Num 100) (Num 100) (Num 10))
                  (CollisionDetector.new
                     [Rect.mk (Num 0) (Num 0) (Num 50) (Num 600)]
                     (Some (Point.mk (Num 700) (Num 300)))))
        as (H & _)
  end.
  - reflexivity.
  - reflexivity.
  - reflexivity.
  - reflexivity.
  - cbn [CollisionDetector.walls CollisionDetector.new CollisionDetector.hitsAny].
    replace (CollisionDetector.boundingBoxCollision _ _) with false; [reflexivity |].
    symmetry. apply not_true_is_false. intro H.
    apply boundingBoxCollision_Num in H. lra.
  - unfold CollisionDetector.checkGoalCollision, CollisionDetector.goalBounds.
    cbn [CollisionDetector.goal CollisionDetector.new CollisionDetector.goalSize
         Point.x Point.y].
    rewrite !div_Num by lra. f_equal.
    apply not_true_is_false. intro H.
    apply boundingBoxCollision_Num in H. lra.
  - exact H.
Defined.

Lemma detectCollisions_frame (now : Z) (g g' : GameManager.t) :
  GameManager.detectCollisions now g = Ok g' ->
  GameManager.startTime g' = GameManager.startTime g /\
  GameManager.currentTime g' = GameManager.currentTime g /\
  GameManager.levelGenerator g' = GameManager.levelGenerator g /\
  GameManager.character g' = GameManager.character g /\
  ((GameManager.state g' = GameManager.Victory /\
    GameManager.score g' = GameManager.currentTime g) \/
   (GameManager.state g' = GameManager.GameOver /\
    GameManager.score g' = GameManager.score g) \/
   (GameManager.state g' = GameManager.state g /\
    GameManager.score g' = GameManager.score g)).
Proof.
  unfold GameManager.detectCollisions.
  destruct (GameManager.collisionDetector g) as [d |] eqn:Ed.
  - destruct (GameManager.character g) as [c |] eqn:Ec; [| discriminate].
    rewrite <- Ec.
    destruct (CollisionDetector.checkWallCollision c d) as [hit d'].
    set (g1 := GameManager.with_collisionDetector (Some d') g).
    assert (F : GameManager.startTime g1 = GameManager.startTime g /\
                GameManager.currentTime g1 = GameManager.currentTime g /\
                GameManager.levelGenerator g1 = GameManager.levelGenerator g /\
                GameManager.character g1 = GameManager.character g /\
                GameManager.score g1 = GameManager.score g /\
                GameManager.state g1 = GameManager.state g)
      by (destruct g; repeat split; reflexivity).
    destruct F as (F1 & F2 & F3 & F4 & F5 & F6).
    destruct hit.
    + intro H. injection H as <-.
      destruct (handleGameOver_fields now g1) as (A1 & A2 & A3 & A4 & A5).
      destruct (handleGameOver_frame now g1) as (B1 & _).
      rewrite A4, A3, B1, A5, A1, A2, F1, F2, F3, F4, F5.
      do 4 (split; [reflexivity |]). right. left. split; reflexivity.
    + destruct (CollisionDetector.checkGoalCollision c d') as [hitGoal | m];
        [| discriminate]. cbn [bind].
      destruct hitGoal.
      * intro H.
        destruct (handleGoalReached_fields now g1 g' H)
          as (A1 & A2 & A3 & A4 & A5 & A6 & _).
        rewrite A1, A2, A3, A4, A5, A6, F1, F2, F3, F4.
        do 4 (split; [reflexivity |]). left. split; reflexivity.
      * intro H. injection H as <-. unfold GameManager.render.
        rewrite F1, F2, F3, F4, F5, F6.
        do 4 (split; [reflexivity |]). right. right. split; reflexivity.
  - intro H. injection H as <-. unfold GameManager.render.
    do 4 (split; [reflexivity |]). right. right. split; reflexivity.
Qed.

Lemma moveCharacter_level (g : GameManager.t) :
  GameManager.levelGenerator (GameManager.moveCharacter g)
  = GameManager.levelGenerator g.
Proof.
  destruct_manager g.
  unfold GameManager.moveCharacter.
  destruct g_character as [c |], g_level as [l |]; reflexivity.
Qed.

(** One tick while playing: what it keeps and what it sets. *)
Lemma update_frame :
  forall (now : Z) (g g' : GameManager.t),
    GameManager.state g = GameManager.Playing ->
    GameManager.update now g = Ok g' ->
    GameManager.startTime g' = GameManager.startTime g /\
    GameManager.currentTime g' = (now - GameManager.startTime g)%Z /\
    GameManager.levelGenerator g' = GameManager.levelGenerator g /\
    ((GameManager.state g' = GameManager.Victory /\
      GameManager.score g' = (now - GameManager.startTime g)%Z) \/
     ((GameManager.state g' = GameManager.GameOver \/
       GameManager.state g' = GameManager.Playing) /\
      GameManager.score g' = GameManager.score g)).
Proof.
  intros now g g' Hs. unfold GameManager.update. rewrite Hs.
  cbn [GameManager.isPlayingState negb].
  set (t := (now - GameManager.startTime g)%Z).
  set (gt := GameManager.with_currentTime t g).
  assert (F : GameManager.startTime gt = GameManager.startTime g /\
              GameManager.currentTime gt = t /\
              GameManager.levelGenerator gt = GameManager.levelGenerator g /\
              GameManager.score gt = GameManager.score g /\
              GameManager.state gt = GameManager.Playing /\
              GameManager.animationEngine gt = GameManager.animationEngine g)
    by (rewrite <- Hs; destruct g; repeat split; reflexivity).
  destruct F as (F1 & F2 & F3 & F4 & F5 & F6). rewrite F6.
  assert (Hmove : GameManager.detectCollisions now (GameManager.moveCharacter gt)
                  = Ok g' ->
                  GameManager.startTime g' = GameManager.startTime g /\
                  GameManager.currentTime g' = t /\
                  GameManager.levelGenerator g' = GameManager.levelGenerator g /\
                  (GameManager.state g' = GameManager.Victory /\
                   GameManager.score g' = t \/
                   (GameManager.state g' = GameManager.GameOver \/
                    GameManager.state g' = GameManager.Playing) /\
                   GameManager.score g' = GameManager.score g)).
  { intro H. apply detectCollisions_frame in H.
    destruct H as (A1 & A2 & A3 & _ & A4).
    destruct (moveCharacter_fields gt) as (M1 & M2 & M3 & M4 & _).
    pose proof (moveCharacter_level gt) as M5.
    rewrite A1, A2, A3, M3, M4, M5, F1, F2, F3.
    do 3 (split; [reflexivity |]).
    destruct A4 as [[B1 B2] | [[B1 B2] | [B1 B2]]].
    - left. split; [exact B1 |]. rewrite B2, M3, F2. reflexivity.
    - right. split; [left; exact B1 |]. rewrite B2, M2, F4. reflexivity.
    - right. split; [right; rewrite B1, M1, F5; reflexivity |].
      rewrite B2, M2, F4. reflexivity. }
  destruct (GameManager.animationEngine g) as [a |]; [| exact Hmove].
  destruct (AnimationEngine.isPlaying a); [| exact Hmove].
  destruct (AnimationEngine.update now a) as [a' cb].
  intro H. injection H as <-. unfold GameManager.render.
  rewrite <- F1, <- F3, <- F4, <- F2 at 1.
  destruct gt. cbn in F5. subst.
  destruct cb as [[|] |]; cbn; repeat split; right; (split; [right |]);
    reflexivity.
Qed.

(** X15.  Whatever a tick while playing does, it leaves the start time
    and the level as they are and sets the timer to [now - startTime],
    recomputed from the start time, not added up.  The state afterwards
    is playing, gameover or victory, and the score keeps its value unless
    the tick ends in victory, where it becomes the elapsed time. *)
Theorem tick_frame :
  forall (now : Z) (g g' : GameManager.t),
    GameManager.state g = GameManager.Playing ->
    GameManager.update now g = Ok g' ->
    GameManager.startTime g' = GameManager.startTime g /\
    GameManager.currentTime g' = (now - GameManager.startTime g)%Z /\
    GameManager.levelGenerator g' = GameManager.levelGenerator g /\
    ((GameManager.state g' = GameManager.Victory /\
      GameManager.score g' = (now - GameManager.startTime g)%Z) \/
     ((GameManager.state g' = GameManager.GameOver \/
       GameManager.state g' = GameManager.Playing) /\
      GameManager.score g' = GameManager.score g)).
Proof.
  intros now g g' Hs Hu. exact (update_frame now g g' Hs Hu).
Qed.

(** An instance: a tick 16 ms after the start of a manager that has no
    collision detector. *)
Lemma tick_frame_witness :
  let g := GameManager.mk canvas800x600 "easy" GameManager.Playing 1000 0 7 true
             (Some (Character.new (Num 100) (Num 100) (Num 10))) None None
             false None None [] in
  let g' := GameManager.with_currentTime 16 g in
  GameManager.state g = GameManager.Playing /\
  GameManager.update 1016 g = Ok g' /\
  GameManager.startTime g' = 1000%Z /\
  GameManager.currentTime g' = 16%Z /\
  GameManager.levelGenerator g' = None /\
  ((GameManager.state g' = GameManager.Victory /\
    GameManager.score g' = 16%Z) \/
   ((GameManager.state g' = GameManager.GameOver \/
     GameManager.state g' = GameManager.Playing) /\
    GameManager.score g' = 7%Z)).
Proof.
  cbv zeta. split; [reflexivity |]. split; [reflexivity |].
  match goal with
  | |- GameManager.startTime ?g' = _ /\ _ =>
      apply (tick_frame 1016%Z
               (GameManager.mk canvas800x600 "easy" GameManager.Playing 1000 0 7
                  true (Some (Character.new (Num 100) (Num 100) (Num 10)))
                  None None false None None []) g')
  end; reflexivity.
Defined.

Lemma tick_not_playing (o : managerOp) (g : GameManager.t) :
  isTick o = true ->
  GameManager.state g <> GameManager.Playing ->
  applyOp o g = Ok g.
Proof.
  intros Ho Hs.
  assert (E : GameManager.isPlayingState (GameManager.state g) = false)
    by (destruct (GameManager.state g); try reflexivity; contradiction).
  destruct o; try discriminate; cbn [applyOp];
    unfold GameManager.gameLoop, GameManager.update; rewrite E; reflexivity.
Qed.

Lemma ticks_not_playing (ops : list managerOp) (g : GameManager.t) :
  forallb isTick ops = true ->
  GameManager.state g <> GameManager.Playing ->
  runOps ops g = Ok g.
Proof.
  intros Hops Hs. induction ops as [| o rest IH]; [reflexivity |].
  cbn [forallb] in Hops. apply andb_prop in Hops as [Ho Hrest].
  cbn [runOps]. rewrite (tick_not_playing o g Ho Hs). cbn [bind].
  apply IH. exact Hrest.
Qed.

(** X16.  In a manager with an animation engine, a tick that ends at a
    wall starts the explosion with the game-over screen as its callback
    and dispatches nothing; the state is gameover from then on, so every
    later [update] and [gameLoop] returns at its state guard: the engine
    is never updated again, the explosion stays in flight and the
    gameOver event is never dispatched by the frame loop. *)
Theorem crash_animation_never_completes :
  forall (now : Z) (g : GameManager.t) (c : Character.t)
         (d : CollisionDetector.t) (a : AnimationEngine.t),
    GameManager.state g = GameManager.Playing ->
    GameManager.animationEngine g = Some a ->
    AnimationEngine.isPlaying a = false ->
    GameManager.character (GameManager.moveCharacter g) = Some c ->
    GameManager.collisionDetector g = Some d ->
    CollisionDetector.hitsAny (Character.getBounds c) (CollisionDetector.walls d)
    = true ->
    exists g' : GameManager.t,
      GameManager.update now g = Ok g' /\
      GameManager.state g' = GameManager.GameOver /\
      GameManager.animationEngine g'
      = Some (AnimationEngine.playExplosion
                now AnimationEngine.ShowGameOverScreen a) /\
      GameManager.dispatched g' = GameManager.dispatched g /\
      forall ops : list managerOp,
        forallb isTick ops = true ->
        runOps ops g' = Ok g' /\
        (exists a', GameManager.animationEngine g' = Some a' /\
                    AnimationEngine.isPlaying a' = true).
Proof.
  intros now g c d a Hs Ha Hidle Hc Hd Hhit.
  assert (Hi : animationIdle g = true)
    by (unfold animationIdle; rewrite Ha, Hidle; reflexivity).
  rewrite (update_playing now g Hs Hi), moveCharacter_with_currentTime.
  destruct (with_currentTime_moveCharacter_fields
              (now - GameManager.startTime g) g)
    as (E1 & E2 & E3 & E4 & E5 & E6 & E7 & E8 & E9 & E10).
  cbv zeta in *.
  set (g1 := GameManager.with_currentTime _ _) in *.
  unfold GameManager.detectCollisions. rewrite E6, Hd, E10, Hc.
  unfold CollisionDetector.checkWallCollision. rewrite Hhit.
  eexists. split; [reflexivity |].
  unfold GameManager.handleGameOver, GameManager.on_inputHandler.
  rewrite <- E9. rewrite Ha in E8.
  destruct g1 as [g_canvas g_difficulty g_state g_startTime g_currentTime
                  g_score g_loop g_character g_level g_detector g_renderer
                  g_animation g_input g_events].
  cbn in E8. subst g_animation.
  destruct g_input as [h |]; cbn;
    (split; [reflexivity |]); (split; [reflexivity |]);
    (split; [reflexivity |]);
    intros ops Hops;
    (split; [apply ticks_not_playing; [exact Hops | discriminate]
            | eexists; split; reflexivity]).
Qed.

(** An instance: the character of [managerWallWithEngine] stands in a
    wall. *)
Lemma crash_animation_never_completes_witness :
  exists g' : GameManager.t,
    GameManager.update 2000 managerWallWithEngine = Ok g' /\
    GameManager.state g' = GameManager.GameOver /\
    GameManager.animationEngine g'
    = Some (AnimationEngine.playExplosion
              2000 AnimationEngine.ShowGameOverScreen AnimationEngine.new) /\
    GameManager.dispatched g' = [] /\
    forall ops : list managerOp,
      forallb isTick ops = true ->
      runOps ops g' = Ok g' /\
      (exists a', GameManager.animationEngine g' = Some a' /\
                  AnimationEngine.isPlaying a' = true).
Proof.
  apply (crash_animation_never_completes 2000%Z managerWallWithEngine
           (Character.new (Num 100) (Num 100) (Num 10))
           (CollisionDetector.new
              [Rect.mk (Num 95) (Num 95) (Num 20) (Num 20)]
              (Some (Point.mk (Num 105) (Num 105))))
           AnimationEngine.new).
  - reflexivity.
  - reflexivity.
  - reflexivity.
  - reflexivity.
  - reflexivity.
  - apply (hitsAny_In _ (Rect.mk (Num 95) (Num 95) (Num 20) (Num 20)));
      [left; reflexivity |].
    apply boundingBoxCollision_Num. lra.
Defined.

(** X17.  Pausing a running game and resuming it at clock reading [now]
    drops the paused interval from the timer: the start time is moved to
    [now - currentTime], so a tick at [now'] after the resume shows the
    elapsed time at the pause plus [now' - now].  While paused the loop is
    stopped, input is off and [getCurrentScore()] reports the recorded
    score, not the elapsed time; the resume turns loop and input on again
    and leaves timer, score, character, level and detector as they were. *)
Theorem pause_resume_drops_paused_time :
  forall (now : Z) (g : GameManager.t),
    GameManager.state g = GameManager.Playing ->
    let p := GameManager.pauseGame g in
    let r := GameManager.resumeGame now p in
    (GameManager.state p = GameManager.Paused /\
     GameManager.gameLoopId p = false /\
     GameManager.inputHandler p
     = option_map InputHandler.disable (GameManager.inputHandler g) /\
     GameManager.getCurrentScore p = GameManager.score g) /\
    (GameManager.state r = GameManager.Playing /\
     GameManager.startTime r = (now - GameManager.currentTime g)%Z /\
     GameManager.currentTime r = GameManager.currentTime g /\
     GameManager.score r = GameManager.score g /\
     GameManager.character r = GameManager.character g /\
     GameManager.levelGenerator r = GameManager.levelGenerator g /\
     GameManager.collisionDetector r = GameManager.collisionDetector g /\
     GameManager.gameLoopId r = true /\
     GameManager.inputHandler r
     = option_map InputHandler.enable (GameManager.inputHandler g)) /\
    (forall (now' : Z) (r' : GameManager.t),
        GameManager.update now' r = Ok r' ->
        GameManager.currentTime r'
        = (GameManager.currentTime g + (now' - now))%Z).
Proof.
  intros now g Hs p r.
  assert (R : GameManager.state r = GameManager.Playing /\
              GameManager.startTime r = (now - GameManager.currentTime g)%Z).
  { subst r p. destruct_manager g. cbn in Hs. subst g_state.
    unfold GameManager.pauseGame, GameManager.resumeGame,
      GameManager.on_inputHandler, GameManager.stopGameLoop,
      GameManager.startGameLoop.
    destruct g_loop, g_input as [h |]; cbn; split; try reflexivity; lia. }
  destruct R as [R1 R2].
  split; [| split].
  - subst p. destruct_manager g. cbn in Hs. subst g_state.
    unfold GameManager.pauseGame, GameManager.on_inputHandler,
      GameManager.stopGameLoop, GameManager.getCurrentScore.
    destruct g_loop, g_input as [h |]; cbn; repeat split; reflexivity.
  - split; [exact R1 |]. split; [exact R2 |].
    subst r p. destruct_manager g. cbn in Hs. subst g_state.
    unfold GameManager.pauseGame, GameManager.resumeGame,
      GameManager.on_inputHandler, GameManager.stopGameLoop,
      GameManager.startGameLoop.
    destruct g_loop, g_input as [h |]; cbn; repeat split; reflexivity.
  - intros now' r' Hu.
    destruct (update_frame now' r r' R1 Hu) as (_ & E & _).
    rewrite E, R2. lia.
Qed.

(** An instance: the first run on the 800 x 600 canvas, paused by a
    player who has played 0 ms, and resumed at 9000. *)
Lemma pause_resume_drops_paused_time_witness :
  GameManager.startTime
    (GameManager.resumeGame 9000 (GameManager.pauseGame (startedManager rndZero 1000)))
  = 9000%Z.
Proof.
  destruct (pause_resume_drops_paused_time 9000%Z (startedManager rndZero 1000)
              eq_refl) as (_ & (_ & E & _) & _).
  exact E.
Defined.

(** X18.  [restartGame()] never throws, whatever the manager holds, and
    puts the session back to the menu: timer, start time and score are 0,
    the loop is stopped, input is off with no direction stored, no
    animation is in flight and no event is dispatched.  With a level
    generator a new level is generated, the character stands at its start
    point (50, height/2) with no heading, and the collision detector gets
    the walls and the goal of the new level and forgets the last collision
    point. *)
Theorem restart_always_resets :
  forall (rnd : Random) (g : GameManager.t),
    exists g' : GameManager.t,
      GameManager.restartGame rnd g = Ok g' /\
      GameManager.state g' = GameManager.Menu /\
      GameManager.startTime g' = 0%Z /\
      GameManager.currentTime g' = 0%Z /\
      GameManager.score g' = 0%Z /\
      GameManager.gameLoopId g' = false /\
      GameManager.dispatched g' = GameManager.dispatched g /\
      GameManager.inputHandler g'
      = option_map (fun _ => InputHandler.mk false None)
                   (GameManager.inputHandler g) /\
      animationIdle g' = true /\
      GameManager.levelGenerator g'
      = option_map (LevelGenerator.generate rnd) (GameManager.levelGenerator g) /\
      (forall (lg0 : LevelGenerator.t) (c : Character.t),
          GameManager.levelGenerator g = Some lg0 ->
          GameManager.character g = Some c ->
          exists c' : Character.t,
            GameManager.character g' = Some c' /\
            Character.getPosition c'
            = Point.mk (Num 50) (Num (LevelGenerator.height lg0 / 2)) /\
            Character.direction c' = None /\
            Character.size c' = Character.size c) /\
      (forall (lg0 : LevelGenerator.t) (d : CollisionDetector.t),
          GameManager.levelGenerator g = Some lg0 ->
          GameManager.collisionDetector g = Some d ->
          GameManager.collisionDetector g'
          = Some (CollisionDetector.mk
                    (LevelGenerator.getWalls (LevelGenerator.generate rnd lg0))
                    (LevelGenerator.getGoalPosition
                       (LevelGenerator.generate rnd lg0))
                    (CollisionDetector.goalSize d) None)) /\
      (GameManager.levelGenerator g = None ->
       GameManager.character g' = GameManager.character g /\
       GameManager.collisionDetector g' = GameManager.collisionDetector g).
Proof.
  intros rnd g. destruct_manager g.
  unfold GameManager.restartGame, GameManager.resetCharacterToStart,
    GameManager.on_inputHandler, GameManager.stopGameLoop, animationIdle.
  destruct g_level as [l |].
  - destruct (generate_positions rnd l) as (k & Hstart & _).
    destruct g_loop, g_input as [h |], g_animation as [a |],
      g_character as [c |], g_detector as [d |];
      cbn -[LevelGenerator.generate];
      rewrite ?Hstart; cbn -[LevelGenerator.generate];
      eexists; (split; [reflexivity |]);
      cbn -[LevelGenerator.generate];
      repeat (split; [reflexivity |]);
      (split; [intros lg0 c0 E1 E2; inversion E1; inversion E2; subst;
               eexists; repeat split; reflexivity |]);
      (split; [intros lg0 d0 E1 E2; inversion E1; inversion E2; subst;
               reflexivity |]);
      discriminate.
  - destruct g_loop, g_input as [h |], g_animation as [a |];
      cbn; eexists; (split; [reflexivity |]); cbn;
      repeat (split; [reflexivity |]);
      (split; [discriminate |]); (split; [discriminate |]);
      intros _; split; reflexivity.
Qed.

(** [wellFormed] reads the level generator, the goal of the collision
    detector and whether there is a character. *)
Lemma wellFormed_frame (g g' : GameManager.t) :
  GameManager.levelGenerator g' = GameManager.levelGenerator g ->
  option_map CollisionDetector.goal (GameManager.collisionDetector g')
  = option_map CollisionDetector.goal (GameManager.collisionDetector g) ->
  (GameManager.character g <> None -> GameManager.character g' <> None) ->
  wellFormed g -> wellFormed g'.
Proof.
  intros EL ED EC [HL HD]. split.
  - intros lg E. apply HL. rewrite <- EL. exact E.
  - intros d' E. rewrite E in ED.
    destruct (GameManager.collisionDetector g) as [d |] eqn:Ed; [| discriminate].
    cbn in ED. injection ED as ED.
    destruct (HD d eq_refl) as [H1 H2].
    split; [rewrite ED; exact H1 | apply EC; exact H2].
Qed.

Lemma startGame_wellFormed (now : Z) (g : GameManager.t) :
  wellFormed g ->
  exists g', GameManager.startGame now g = Ok g' /\ wellFormed g'.
Proof.
  intros W. pose proof W as [HL HD]. destruct_manager g.
  cbn [GameManager.levelGenerator GameManager.collisionDetector
       GameManager.character] in HL, HD.
  unfold GameManager.startGame, GameManager.resetCharacterToStart,
    GameManager.on_inputHandler, GameManager.startGameLoop.
  destruct g_character as [c |], g_level as [l |]; cbn;
    try (destruct (LevelGenerator.getStartPosition l) as [sp |] eqn:Es;
         [| exfalso; apply (proj1 (HL l eq_refl)); exact Es]);
    cbn; destruct g_input as [h |], g_loop; cbn;
    eexists; (split; [reflexivity |]);
    (eapply wellFormed_frame; [| | | exact W]);
    cbn; (reflexivity || (intros; discriminate) || (intros H; exact H)).
Qed.

Lemma pauseGame_wellFormed (g : GameManager.t) :
  wellFormed g -> wellFormed (GameManager.pauseGame g).
Proof.
  intros W. destruct_manager g.
  unfold GameManager.pauseGame, GameManager.on_inputHandler,
    GameManager.stopGameLoop.
  destruct g_state, g_input as [h |], g_loop; cbn; try exact W;
    (eapply wellFormed_frame; [| | | exact W]);
    cbn; (reflexivity || (intros H; exact H)).
Qed.

Lemma resumeGame_wellFormed (now : Z) (g : GameManager.t) :
  wellFormed g -> wellFormed (GameManager.resumeGame now g).
Proof.
  intros W. destruct_manager g.
  unfold GameManager.resumeGame, GameManager.on_inputHandler,
    GameManager.startGameLoop.
  destruct g_state, g_input as [h |], g_loop; cbn; try exact W;
    (eapply wellFormed_frame; [| | | exact W]);
    cbn; (reflexivity || (intros H; exact H)).
Qed.

Lemma restartGame_wellFormed (rnd : Random) (g : GameManager.t) :
  wellFormed g ->
  exists g', GameManager.restartGame rnd g = Ok g' /\ wellFormed g'.
Proof.
  intros [HL HD]. destruct_manager g.
  cbn [GameManager.levelGenerator GameManager.collisionDetector
       GameManager.character] in HL, HD.
  unfold GameManager.restartGame, GameManager.resetCharacterToStart,
    GameManager.on_inputHandler, GameManager.stopGameLoop.
  destruct g_level as [l |].
  - destruct (generate_positions rnd l) as (k & Hstart & Hgoal).
    destruct g_loop, g_input as [h |], g_animation as [a |],
      g_character as [c |], g_detector as [d |];
      cbn -[LevelGenerator.generate];
      rewrite ?Hstart; cbn -[LevelGenerator.generate];
      eexists; (split; [reflexivity |]);
      (split;
       [ intros lg E; cbn -[LevelGenerator.generate] in E;
         injection E as <-; rewrite Hstart, Hgoal; split; discriminate
       | intros d' E; cbn -[LevelGenerator.generate] in E;
         try discriminate; injection E as <-;
         cbn -[LevelGenerator.generate]; rewrite ?Hgoal;
         split; try discriminate;
         exfalso; apply (proj2 (HD d eq_refl)); reflexivity ]).
  - destruct g_loop, g_input as [h |], g_animation as [a |];
      cbn; eexists; (split; [reflexivity |]);
      (split; [intros lg E; discriminate | exact HD]).
Qed.

Lemma runCallback_frame (cb : option AnimationEngine.callback)
      (g : GameManager.t) :
  GameManager.levelGenerator (GameManager.runCallback cb g)
  = GameManager.levelGenerator g /\
  GameManager.collisionDetector (GameManager.runCallback cb g)
  = GameManager.collisionDetector g /\
  GameManager.character (GameManager.runCallback cb g)
  = GameManager.character g.
Proof.
  destruct_manager g. destruct cb as [[|] |]; cbn; repeat split; reflexivity.
Qed.

Lemma detectCollisions_wellFormed (now : Z) (g : GameManager.t) :
  wellFormed g ->
  exists g', GameManager.detectCollisions now g = Ok g' /\ wellFormed g'.
Proof.
  intros W. pose proof W as [HL HD].
  unfold GameManager.detectCollisions.
  destruct (GameManager.collisionDetector g) as [d |] eqn:Ed.
  - destruct (HD d eq_refl) as [Hg Hc].
    destruct (GameManager.character g) as [c |] eqn:Ec; [| contradiction].
    unfold CollisionDetector.checkWallCollision.
    destruct (CollisionDetector.hitsAny _ _).
    + eexists. split; [reflexivity |].
      destruct (handleGameOver_fields now
                  (GameManager.with_collisionDetector
                     (Some (CollisionDetector.mk
                              (CollisionDetector.walls d)
                              (CollisionDetector.goal d)
                              (CollisionDetector.goalSize d)
                              (Some (Point.mk
                                 (Rect.x (Character.getBounds c)
                                  + Rect.width (Character.getBounds c) / Num 2)%js
                                 (Rect.y (Character.getBounds c)
                                  + Rect.height (Character.getBounds c) / Num 2)%js))))
                     g))
        as (_ & _ & _ & _ & A5).
      match goal with
      | |- wellFormed (GameManager.handleGameOver now ?m) =>
          destruct (handleGameOver_frame now m) as (B1 & B2 & _)
      end.
      eapply wellFormed_frame; [| | | exact W].
      * rewrite B1. destruct g; reflexivity.
      * rewrite B2, Ed. destruct g; reflexivity.
      * rewrite A5. destruct g; cbn. intro H; exact H.
    + unfold CollisionDetector.checkGoalCollision.
      destruct (CollisionDetector.goal d) as [p |] eqn:Eg; [| contradiction].
      cbn [bind].
      destruct (CollisionDetector.boundingBoxCollision _ _).
      * destruct (handleGoalReached_ok now
                    (GameManager.with_collisionDetector (Some d) g))
          as [g' Hg'].
        { intros lg E. apply (HL lg). rewrite <- E. destruct g; reflexivity. }
        exists g'. split; [exact Hg' |].
        destruct (handleGoalReached_fields now _ g' Hg')
          as (_ & _ & _ & _ & A5 & A6 & A7 & _).
        eapply wellFormed_frame; [| | | exact W].
        -- rewrite A6. destruct g; reflexivity.
        -- rewrite A7, Ed. destruct g; reflexivity.
        -- rewrite A5. destruct g; cbn. intro H; exact H.
      * eexists. split; [reflexivity |]. unfold GameManager.render.
        eapply wellFormed_frame; [| | | exact W].
        -- destruct g; reflexivity.
        -- rewrite Ed. destruct g; reflexivity.
        -- destruct g; cbn. intro H; exact H.
  - eexists. split; [reflexivity |]. exact W.
Qed.

Lemma moveCharacter_wellFormed (g : GameManager.t) :
  wellFormed g -> wellFormed (GameManager.moveCharacter g).
Proof.
  intros W. destruct_manager g. unfold GameManager.moveCharacter.
  destruct g_character as [c |], g_level as [l |]; cbn; try exact W.
  eapply wellFormed_frame; [| | | exact W]; cbn;
    (reflexivity || (intros; discriminate)).
Qed.

Lemma update_wellFormed (now : Z) (g : GameManager.t) :
  wellFormed g ->
  exists g', GameManager.update now g = Ok g' /\ wellFormed g'.
Proof.
  intros W. unfold GameManager.update.
  destruct (negb (GameManager.isPlayingState (GameManager.state g)));
    [exists g; split; [reflexivity | exact W] |].
  set (gt := GameManager.with_currentTime _ g).
  assert (Wt : wellFormed gt).
  { eapply wellFormed_frame; [| | | exact W]; subst gt; destruct g; cbn;
      (reflexivity || (intros H; exact H)). }
  assert (Hm : exists g', GameManager.detectCollisions now
                            (GameManager.moveCharacter gt) = Ok g' /\
                          wellFormed g')
    by (apply detectCollisions_wellFormed, moveCharacter_wellFormed; exact Wt).
  destruct (GameManager.animationEngine gt) as [a |]; [| exact Hm].
  destruct (AnimationEngine.isPlaying a); [| exact Hm].
  destruct (AnimationEngine.update now a) as [a' cb].
  eexists. split; [reflexivity |]. unfold GameManager.render.
  destruct (runCallback_frame cb
              (GameManager.with_animationEngine (Some a') gt))
    as (C1 & C2 & C3).
  eapply wellFormed_frame; [| | | exact Wt].
  - rewrite C1. destruct gt; reflexivity.
  - rewrite C2. destruct gt; reflexivity.
  - rewrite C3. destruct gt; cbn. intro H; exact H.
Qed.

Lemma applyOp_wellFormed (o : managerOp) (g : GameManager.t) :
  wellFormed g ->
  exists g', applyOp o g = Ok g' /\ wellFormed g'.
Proof.
  intros W. destruct o; cbn [applyOp].
  - apply startGame_wellFormed; exact W.
  - eexists. split; [reflexivity |]. apply pauseGame_wellFormed; exact W.
  - eexists. split; [reflexivity |]. apply resumeGame_wellFormed; exact W.
  - apply restartGame_wellFormed; exact W.
  - apply update_wellFormed; exact W.
  - unfold GameManager.gameLoop.
    destruct (negb (GameManager.isPlayingState (GameManager.state g)));
      [exists g; split; [reflexivity | exact W] |].
    destruct (update_wellFormed now g W) as (g' & E & W').
    rewrite E. cbn [bind]. eexists. split; [reflexivity |].
    eapply wellFormed_frame; [| | | exact W']; destruct g'; cbn;
      (reflexivity || (intros H; exact H)).
  - eexists. split; [reflexivity |].
    destruct_manager g. unfold GameManager.setDirection.
    destruct g_input as [h |]; cbn; try exact W.
    destruct g_character as [c |]; cbn;
      (eapply wellFormed_frame; [| | | exact W]); cbn;
      (reflexivity || (intros; discriminate) || (intros H; exact H)).
  - eexists. split; [reflexivity |].
    destruct_manager g. unfold GameManager.destroy, GameManager.on_inputHandler,
      GameManager.stopGameLoop.
    destruct g_loop, g_input as [h |]; cbn; split; intros ? E; discriminate.
Qed.

Lemma runOps_wellFormed (ops : list managerOp) (g : GameManager.t) :
  wellFormed g ->
  exists g', runOps ops g = Ok g' /\ wellFormed g'.
Proof.
  revert g. induction ops as [| o rest IH]; intros g W.
  - exists g. split; [reflexivity | exact W].
  - destruct (applyOp_wellFormed o g W) as (g1 & E & W1).
    cbn [runOps]. rewrite E. cbn [bind]. apply IH. exact W1.
Qed.

Lemma new_wellFormed (browser : bool) (cv : option Canvas.t)
      (d : option string) (rnd : Random) (g : GameManager.t) :
  GameManager.new browser cv d rnd = Ok g -> wellFormed g.
Proof.
  unfold GameManager.new.
  destruct cv as [c |]; [| discriminate].
  destruct browser.
  - destruct (LevelGenerator.new _ _ _) as [lg0 | m]; [| discriminate].
    cbn [bind].
    destruct (generate_positions rnd lg0) as (k & Hstart & Hgoal).
    rewrite Hstart. destruct (Canvas.context2d c); [| discriminate].
    intro H. injection H as <-.
    split.
    + intros lg E. cbn -[LevelGenerator.generate] in E. injection E as <-.
      rewrite Hstart, Hgoal. split; discriminate.
    + intros d' E. cbn -[LevelGenerator.generate] in E. injection E as <-.
      cbn -[LevelGenerator.generate]. rewrite Hgoal. split; discriminate.
  - intro H. injection H as <-. split; intros ? E; discriminate.
Qed.

(** X19.  A manager the constructor has returned can be driven through
    any sequence of start, pause, resume, restart, update, gameLoop,
    setDirection and destroy calls without one of them throwing: none of
    the unguarded reads ([startPos.x] in startGame and restartGame,
    [this.goal.x] and [this.character.getBounds()] in the collision
    detector, [goalPos.x] in handleGoalReached) meets a null, because the
    level keeps a start and a goal point and the detector keeps a goal and
    comes with a character. *)
Theorem constructed_manager_never_throws :
  forall (browser : bool) (cv : option Canvas.t) (d : option string)
         (rnd : Random) (g : GameManager.t) (ops : list managerOp),
    GameManager.new browser cv d rnd = Ok g ->
    exists g' : GameManager.t, runOps ops g = Ok g' /\ wellFormed g'.
Proof.
  intros browser cv d rnd g ops Hnew.
  apply runOps_wellFormed. exact (new_wellFormed browser cv d rnd g Hnew).
Qed.

(** An instance: the manager of the first run, started, steered, ticked,
    restarted, started again and destroyed. *)
Lemma constructed_manager_never_throws_witness :
  exists g' : GameManager.t,
    runOps [DoStart 1000; DoSetDirection "right"; DoUpdate 1016;
            DoPause; DoResume 3000; DoGameLoop 3016; DoRestart rndHalf;
            DoStart 5000; DoUpdate 5016; DoDestroy; DoUpdate 6000]
           (freshManager rndZero) = Ok g' /\
    wellFormed g'.
Proof.
  apply (constructed_manager_never_throws
           true (Some canvas800x600) (Some "easy"%string) rndZero).
  apply fresh_manager.
Defined.

(** Every entry of the key table is found by the lookup and names a
    direction the character accepts. *)
Lemma keyMap_lookup (key d : string) :
  LevelGenerator.assoc key KeyInput.keyMap = Some d ->
  In (key, d) KeyInput.keyMap /\
  existsb (String.eqb d) Character.validDirections = true.
Proof.
  unfold KeyInput.keyMap. cbn [LevelGenerator.assoc].
  destruct (String.eqb key "ArrowUp") eqn:E1;
    [apply String.eqb_eq in E1; subst; intro H; injection H as <-;
     split; [left; reflexivity | reflexivity] |].
  destruct (String.eqb key "ArrowDown") eqn:E2;
    [apply String.eqb_eq in E2; subst; intro H; injection H as <-;
     split; [right; left; reflexivity | reflexivity] |].
  destruct (String.eqb key "ArrowLeft") eqn:E3;
    [apply String.eqb_eq in E3; subst; intro H; injection H as <-;
     split; [do 2 right; left; reflexivity | reflexivity] |].
  destruct (String.eqb key "ArrowRight") eqn:E4;
    [apply String.eqb_eq in E4; subst; intro H; injection H as <-;
     split; [do 3 right; left; reflexivity | reflexivity] |].
  discriminate.
Qed.

(** What a key event does: nothing to the manager, or [setDirection]
    with the direction of the key table, while playing and enabled. *)
Lemma keydown_cases (key : string) (g : GameManager.t) :
  managerOf (KeyInput.keydown key g) = g \/
  exists (d : string) (h : InputHandler.t),
    In (key, d) KeyInput.keyMap /\
    existsb (String.eqb d) Character.validDirections = true /\
    GameManager.state g = GameManager.Playing /\
    GameManager.inputHandler g = Some h /\
    InputHandler.enabled h = true /\
    managerOf (KeyInput.keydown key g) = GameManager.setDirection d g.
Proof.
  unfold KeyInput.keydown, KeyInput.handleKeyDown, KeyInput.shouldAcceptInput,
    GameManager.getCurrentState, KeyInput.mapKeyToDirection.
  destruct (GameManager.inputHandler g) as [h |] eqn:Eh; [| left; reflexivity].
  destruct (InputHandler.enabled h) eqn:Ee; [| left; reflexivity].
  destruct (GameManager.state g) eqn:Es; try (left; reflexivity).
  cbn [GameManager.isPlayingState negb].
  destruct (LevelGenerator.assoc key KeyInput.keyMap) as [d |] eqn:Ea.
  - right. exists d, h. destruct (keyMap_lookup key d Ea) as [H1 H2].
    repeat split; try assumption; reflexivity.
  - left. destruct (existsb _ _); reflexivity.
Qed.

(** X20.  A key event changes nothing of the game but the heading: state,
    timer, score, level, detector, loop and events stay, and a character
    keeps its position, size and initial position.  The heading changes
    only while the handler is enabled and the state is playing, and then
    to the direction the key table gives for the key; outside the playing
    state the event leaves the manager as it is. *)
Theorem key_press_changes_heading_only :
  forall (key : string) (g : GameManager.t),
    let g' := managerOf (KeyInput.keydown key g) in
    GameManager.state g' = GameManager.state g /\
    GameManager.startTime g' = GameManager.startTime g /\
    GameManager.currentTime g' = GameManager.currentTime g /\
    GameManager.score g' = GameManager.score g /\
    GameManager.gameLoopId g' = GameManager.gameLoopId g /\
    GameManager.levelGenerator g' = GameManager.levelGenerator g /\
    GameManager.collisionDetector g' = GameManager.collisionDetector g /\
    GameManager.dispatched g' = GameManager.dispatched g /\
    (GameManager.character g = None -> GameManager.character g' = None) /\
    (forall c : Character.t,
        GameManager.character g = Some c ->
        exists c' : Character.t,
          GameManager.character g' = Some c' /\
          Character.getPosition c' = Character.getPosition c /\
          Character.size c' = Character.size c /\
          Character.initialX c' = Character.initialX c /\
          Character.initialY c' = Character.initialY c /\
          (Character.direction c' = Character.direction c \/
           exists (d : string) (h : InputHandler.t),
             In (key, d) KeyInput.keyMap /\
             Character.direction c' = Some d /\
             GameManager.state g = GameManager.Playing /\
             GameManager.inputHandler g = Some h /\
             InputHandler.enabled h = true)) /\
    (GameManager.state g <> GameManager.Playing ->
     KeyInput.keydown key g = KeyInput.Done g).
Proof.
  intros key g g'.
  assert (Hlast : GameManager.state g <> GameManager.Playing ->
                  KeyInput.keydown key g = KeyInput.Done g).
  { intro Hs.
    unfold KeyInput.keydown, KeyInput.handleKeyDown, KeyInput.shouldAcceptInput,
      GameManager.getCurrentState.
    destruct (GameManager.inputHandler g) as [h |]; [| reflexivity].
    destruct (InputHandler.enabled h); [| reflexivity].
    destruct (GameManager.state g); try reflexivity. contradiction. }
  destruct (keydown_cases key g)
    as [E | (d & h & Hin & Hv & Hs & Hh & He & E)]; subst g'; rewrite E.
  - do 8 (split; [reflexivity |]). split; [intro H; exact H |].
    split; [| exact Hlast].
    intros c Ec. exists c. split; [exact Ec |].
    do 4 (split; [reflexivity |]). left. reflexivity.
  - clear E. destruct_manager g.
    cbn [GameManager.inputHandler GameManager.state] in Hh, Hs, Hlast.
    subst g_input g_state.
    unfold GameManager.setDirection.
    cbn [GameManager.inputHandler GameManager.with_inputHandler
         GameManager.character].
    destruct g_character as [c |]; cbn.
    + do 8 (split; [reflexivity |]). split; [discriminate |].
      split; [| exact Hlast].
      intros c0 Ec. injection Ec as <-.
      exists (Character.setDirection d c). split; [reflexivity |].
      unfold Character.setDirection. rewrite Hv. cbn.
      do 4 (split; [reflexivity |]). right.
      exists d, h. repeat split; try assumption; reflexivity.
    + do 8 (split; [reflexivity |]). split; [reflexivity |].
      split; [| exact Hlast]. intros c0 Ec. discriminate.
Qed.

(** X21.  Steering end to end: while playing with input enabled, an arrow
    key followed by the movement step of a tick moves the character by
    the level's speed in the direction of the arrow, up and left being
    the negative directions, and leaves the other coordinate alone. *)
Theorem arrow_key_then_move :
  forall (g : GameManager.t) (h : InputHandler.t) (c : Character.t)
         (lg : LevelGenerator.t) (speed : jsnum),
    GameManager.state g = GameManager.Playing ->
    GameManager.inputHandler g = Some h ->
    InputHandler.enabled h = true ->
    GameManager.character g = Some c ->
    GameManager.levelGenerator g = Some lg ->
    JS.toNumber (LevelGenerator.getCharacterSpeed lg) = speed ->
    let after key :=
      option_map Character.getPosition
        (GameManager.character
           (GameManager.moveCharacter (managerOf (KeyInput.keydown key g)))) in
    after "ArrowUp"%string
    = Some (Point.mk (Character.x c) (Character.y c - speed)%js) /\
    after "ArrowDown"%string
    = Some (Point.mk (Character.x c) (Character.y c + speed)%js) /\
    after "ArrowLeft"%string
    = Some (Point.mk (Character.x c - speed)%js (Character.y c)) /\
    after "ArrowRight"%string
    = Some (Point.mk (Character.x c + speed)%js (Character.y c)) /\
    (forall key : string,
        LevelGenerator.assoc key KeyInput.keyMap = None ->
        after key
        = option_map Character.getPosition
            (GameManager.character (GameManager.moveCharacter g))).
Proof.
  intros g h c lg speed Hs Hh He Hc Hl Hspeed after. subst after.
  destruct_manager g.
  cbn [GameManager.state GameManager.inputHandler GameManager.character
       GameManager.levelGenerator] in Hs, Hh, Hc, Hl.
  subst g_state g_input g_character g_level.
  unfold KeyInput.keydown, KeyInput.handleKeyDown, KeyInput.shouldAcceptInput,
    GameManager.getCurrentState, KeyInput.mapKeyToDirection.
  cbn [GameManager.inputHandler GameManager.state GameManager.isPlayingState
       negb].
  rewrite He.
  repeat split.
  - cbn. rewrite Hspeed. reflexivity.
  - cbn. rewrite Hspeed. reflexivity.
  - cbn. rewrite Hspeed. reflexivity.
  - cbn. rewrite Hspeed. reflexivity.
  - intros key Hk. rewrite Hk.
    destruct (existsb _ _); reflexivity.
Qed.

(** An instance: the started manager of the first run, where the speed
    is 2. *)
Lemma arrow_key_then_move_witness :
  option_map Character.getPosition
    (GameManager.character
       (GameManager.moveCharacter
          (managerOf (KeyInput.keydown "ArrowRight" (startedManager rndZero 1000)))))
  = Some (Point.mk (Num 50 + Num 2)%js (Num (600 / 2))).
Proof.
  destruct (easyLevel_facts rndZero) as (_ & _ & _ & Hsp & _).
  destruct (arrow_key_then_move (startedManager rndZero 1000)
              (InputHandler.mk true None)
              (Character.new (Num 50) (Num (600 / 2)) (Num 10))
              (easyLevel rndZero) (Num 2))
    as (_ & _ & _ & E & _).
  - reflexivity.
  - reflexivity.
  - reflexivity.
  - reflexivity.
  - reflexivity.
  - rewrite Hsp. reflexivity.
  - exact E.
Defined.

(** One running animation over a frame loop. *)
Lemma animate_running (nows : list Z) (t0 dur : Z) (ty : AnimationEngine.kind)
      (cb : AnimationEngine.callback) :
  animate nows (AnimationEngine.mk true (Some ty) t0 dur (Some cb))
  = if existsb (fun now => (dur <=? now - t0)%Z) nows
    then (AnimationEngine.mk false None t0 dur None, [cb])
    else (AnimationEngine.mk true (Some ty) t0 dur (Some cb), []).
Proof.
  assert (Idle : forall l, animate l (AnimationEngine.mk false None t0 dur None)
                           = (AnimationEngine.mk false None t0 dur None, [])).
  { induction l as [| now rest IH]; [reflexivity |].
    cbn [animate]. unfold AnimationEngine.update.
    cbn [AnimationEngine.isAnimating]. rewrite IH. reflexivity. }
  induction nows as [| now rest IH]; [reflexivity |].
  cbn [animate existsb]. unfold AnimationEngine.update.
  cbn [AnimationEngine.isAnimating AnimationEngine.animationDuration
       AnimationEngine.animationStartTime].
  destruct (dur <=? now - t0)%Z.
  - unfold AnimationEngine.endAnimation.
    cbn [AnimationEngine.isAnimating AnimationEngine.animationDuration
         AnimationEngine.animationStartTime AnimationEngine.animationCallback].
    rewrite Idle. reflexivity.
  - rewrite IH. cbn [orb].
    destruct (existsb _ rest); reflexivity.
Qed.

(** X22.  An animation calls its completion callback exactly once: over
    any frame loop of the engine, the explosion started at [t0] ends at
    the first clock reading 1500 ms or more after [t0], the victory
    animation at the first one 2500 ms or more after [t0]; the callback is
    called there and never again, and if no reading is that late the
    animation is still in flight and nothing has been called. *)
Theorem animation_callback_fires_once :
  forall (nows : list Z) (t0 : Z) (cb : AnimationEngine.callback)
         (a : AnimationEngine.t),
    (let r := animate nows (AnimationEngine.playExplosion t0 cb a) in
     if existsb (fun now => (1500 <=? now - t0)%Z) nows
     then AnimationEngine.isPlaying (fst r) = false /\ snd r = [cb]
     else fst r = AnimationEngine.playExplosion t0 cb a /\
          AnimationEngine.isPlaying (fst r) = true /\ snd r = []) /\
    (let r := animate nows (AnimationEngine.playVictory t0 cb a) in
     if existsb (fun now => (2500 <=? now - t0)%Z) nows
     then AnimationEngine.isPlaying (fst r) = false /\ snd r = [cb]
     else fst r = AnimationEngine.playVictory t0 cb a /\
          AnimationEngine.isPlaying (fst r) = true /\ snd r = []).
Proof.
  intros nows t0 cb a.
  unfold AnimationEngine.playExplosion, AnimationEngine.playVictory.
  cbv zeta. rewrite !animate_running.
  split.
  - destruct (existsb (fun now => (1500 <=? now - t0)%Z) nows);
      repeat split; reflexivity.
  - destruct (existsb (fun now => (2500 <=? now - t0)%Z) nows);
      repeat split; reflexivity.
Qed.

(** X23.  The constructor refuses a missing canvas.  With the component
    classes present it fails otherwise in two cases only: the level
    generator refuses the difficulty, or, the difficulty being accepted,
    the canvas gives no 2D context and the renderer refuses it.  The
    manager it returns is in the menu with start time, timer and score 0,
    no loop running and nothing dispatched; the difficulty defaults to
    easy.  With the component classes present the canvas has a 2D
    context, the level is generated for the canvas, the character stands
    on the level's start point (50, height/2) with size 10 and no
    heading, the detector watches the level's walls and goal, input is
    off and no animation is in flight; without them every component is
    null and the constructor does not fail on any canvas. *)
Theorem constructor_builds_menu_session :
  forall (browser : bool) (d : option string) (rnd : Random),
    GameManager.new browser None d rnd = Thrown "Canvas element is required" /\
    (forall (cv : Canvas.t) (m : string),
        GameManager.new browser (Some cv) d rnd = Thrown m <->
        browser = true /\
        (LevelGenerator.new (Canvas.width cv) (Canvas.height cv)
           (match d with Some s => s | None => "easy"%string end)
         = Thrown m \/
         (exists lg0 : LevelGenerator.t,
             LevelGenerator.new (Canvas.width cv) (Canvas.height cv)
               (match d with Some s => s | None => "easy"%string end)
             = Ok lg0) /\
         Canvas.context2d cv = false /\
         m = "Unable to get 2D context from canvas"%string)) /\
    (forall (cv : Canvas.t) (g : GameManager.t),
        GameManager.new browser (Some cv) d rnd = Ok g ->
        GameManager.canvas g = cv /\
        GameManager.getDifficulty g
        = match d with Some s => s | None => "easy"%string end /\
        GameManager.getCurrentState g = GameManager.Menu /\
        GameManager.startTime g = 0%Z /\
        GameManager.currentTime g = 0%Z /\
        GameManager.getCurrentScore g = 0%Z /\
        GameManager.gameLoopId g = false /\
        GameManager.dispatched g = [] /\
        (if browser then
           Canvas.context2d cv = true /\
           exists lg0 : LevelGenerator.t,
             LevelGenerator.new (Canvas.width cv) (Canvas.height cv)
               (GameManager.getDifficulty g) = Ok lg0 /\
             GameManager.levelGenerator g
             = Some (LevelGenerator.generate rnd lg0) /\
             GameManager.character g
             = Some (Character.new (Num 50) (Num (Canvas.height cv / 2))
                                   (Num 10)) /\
             GameManager.collisionDetector g
             = Some (CollisionDetector.new
                       (LevelGenerator.getWalls (LevelGenerator.generate rnd lg0))
                       (LevelGenerator.getGoalPosition
                          (LevelGenerator.generate rnd lg0))) /\
             GameManager.inputHandler g = Some (InputHandler.mk false None) /\
             animationIdle g = true /\
             GameManager.renderer g = true
         else
           GameManager.levelGenerator g = None /\
           GameManager.character g = None /\
           GameManager.collisionDetector g = None /\
           GameManager.inputHandler g = None /\
           GameManager.animationEngine g = None /\
           GameManager.renderer g = false)).
Proof.
  intros browser d rnd. split; [reflexivity |].
  unfold GameManager.new. split.
  - intros cv m. destruct browser.
    + destruct (LevelGenerator.new _ _ _) as [lg0 | m0] eqn:En.
      * cbn [bind]. destruct (generate_positions rnd lg0) as (k & Hstart & _).
        rewrite Hstart. destruct (Canvas.context2d cv); split.
        -- discriminate.
        -- intros (_ & [H | (_ & H & _)]); discriminate.
        -- intro H. injection H as <-. split; [reflexivity |].
           right. split; [exists lg0; reflexivity |]. split; reflexivity.
        -- intros (_ & [H | (_ & _ & ->)]); [discriminate | reflexivity].
      * cbn [bind]. split.
        -- intro H. injection H as <-. split; [reflexivity |]. left. reflexivity.
        -- intros (_ & [H | ((lg0 & H) & _)]);
             [injection H as <-; reflexivity | discriminate].
    + split; [discriminate |]. intros (H & _). discriminate.
  - intros cv g. destruct browser.
    + destruct (LevelGenerator.new _ _ _) as [lg0 | m0] eqn:En; [| discriminate].
      cbn [bind]. destruct (generate_positions rnd lg0) as (k & Hstart & _).
      destruct (new_fields _ _ _ _ En) as [_ Hh].
      rewrite Hstart.
      destruct (Canvas.context2d cv) eqn:Ectx; [| discriminate].
      intro H. injection H as <-.
      unfold GameManager.getDifficulty, GameManager.getCurrentState,
        GameManager.getCurrentScore, animationIdle.
      cbn -[LevelGenerator.generate].
      do 9 (split; [reflexivity |]).
      exists lg0. split; [exact En |]. rewrite Hh.
      repeat split; reflexivity.
    + intro H. injection H as <-. cbn. repeat split; reflexivity.
Qed.

(** ** Name validation *)

Lemma trimStart_idem (s : NameValidation.jsstring) :
  NameValidation.trimStart (NameValidation.trimStart s)
  = NameValidation.trimStart s.
Proof.
  induction s as [| c rest IH]; [reflexivity |].
  cbn [NameValidation.trimStart].
  destruct (NameValidation.isWhiteSpace c) eqn:E; [exact IH |].
  cbn [NameValidation.trimStart]. rewrite E. reflexivity.
Qed.

(** [trimStart] returns a suffix. *)
Lemma trimStart_suffix (s : NameValidation.jsstring) :
  exists pre, s = pre ++ NameValidation.trimStart s.
Proof.
  induction s as [| c rest [pre IH]]; [exists []; reflexivity |].
  cbn [NameValidation.trimStart].
  destruct (NameValidation.isWhiteSpace c).
  - exists (c :: pre). cbn. f_equal. exact IH.
  - exists []. reflexivity.
Qed.

(** A string that ends in a character that is no white space keeps that
    end under [trimStart]. *)
Lemma trimStart_snoc (l : NameValidation.jsstring) (c : N) :
  NameValidation.isWhiteSpace c = false ->
  exists l', NameValidation.trimStart (l ++ [c]) = l' ++ [c].
Proof.
  intro Hc. induction l as [| a rest [l' IH]].
  - exists []. cbn. rewrite Hc. reflexivity.
  - cbn [app NameValidation.trimStart].
    destruct (NameValidation.isWhiteSpace a).
    + exists l'. exact IH.
    + exists (a :: rest). reflexivity.
Qed.

Lemma trimEnd_idem (s : NameValidation.jsstring) :
  NameValidation.trimEnd (NameValidation.trimEnd s) = NameValidation.trimEnd s.
Proof.
  unfold NameValidation.trimEnd. rewrite rev_involutive, trimStart_idem.
  reflexivity.
Qed.

(** Trimming the end of a string without white space at its start leaves
    the start as it is. *)
Lemma trimStart_trimEnd (s : NameValidation.jsstring) :
  NameValidation.trimStart s = s ->
  NameValidation.trimStart (NameValidation.trimEnd s) = NameValidation.trimEnd s.
Proof.
  destruct s as [| c rest]; [reflexivity |].
  cbn [NameValidation.trimStart].
  destruct (NameValidation.isWhiteSpace c) eqn:E.
  - intro H. exfalso.
    destruct (trimStart_suffix rest) as [pre Hp].
    rewrite H in Hp. apply (f_equal (@List.length N)) in Hp.
    rewrite length_app in Hp. cbn in Hp. lia.
  - intros _. unfold NameValidation.trimEnd. cbn [rev].
    destruct (trimStart_snoc (rev rest) c E) as [l' ->].
    rewrite rev_app_distr. cbn [rev app NameValidation.trimStart].
    rewrite E. reflexivity.
Qed.

Lemma trim_idem (s : NameValidation.jsstring) :
  NameValidation.trim (NameValidation.trim s) = NameValidation.trim s.
Proof.
  unfold NameValidation.trim.
  rewrite (trimStart_trimEnd _ (trimStart_idem s)).
  apply trimEnd_idem.
Qed.

Lemma forallb_app_r (f : N -> bool) (l1 l2 : list N) :
  forallb f (l1 ++ l2) = true -> forallb f l2 = true.
Proof.
  rewrite forallb_app. intro H. apply andb_prop in H. exact (proj2 H).
Qed.

Lemma forallb_rev (f : N -> bool) (l : list N) :
  forallb f l = true -> forallb f (rev l) = true.
Proof.
  rewrite !forallb_forall. intros H x Hx. apply H, in_rev. exact Hx.
Qed.

Lemma trimStart_allowed (s : NameValidation.jsstring) :
  forallb NameValidation.allowed s = true ->
  forallb NameValidation.allowed (NameValidation.trimStart s) = true.
Proof.
  intro H. destruct (trimStart_suffix s) as [pre Hp].
  rewrite Hp in H. exact (forallb_app_r _ _ _ H).
Qed.

Lemma trim_allowed (s : NameValidation.jsstring) :
  forallb NameValidation.allowed s = true ->
  forallb NameValidation.allowed (NameValidation.trim s) = true.
Proof.
  intro H. unfold NameValidation.trim, NameValidation.trimEnd.
  apply forallb_rev, trimStart_allowed, forallb_rev, trimStart_allowed.
  exact H.
Qed.

Lemma filter_allowed (s : NameValidation.jsstring) :
  forallb NameValidation.allowed (filter NameValidation.allowed s) = true.
Proof.
  apply forallb_forall. intros x Hx. apply filter_In in Hx. exact (proj2 Hx).
Qed.

Lemma filter_id (s : NameValidation.jsstring) :
  forallb NameValidation.allowed s = true ->
  filter NameValidation.allowed s = s.
Proof.
  induction s as [| c rest IH]; [reflexivity |].
  cbn [forallb filter]. intro H. apply andb_prop in H as [Hc Hr].
  rewrite Hc, (IH Hr). reflexivity.
Qed.

(** The outcome of [sanitizeName] on a string, by the length of what the
    filter and the trim leave. *)
Lemma sanitizeName_Str (s : NameValidation.jsstring) :
  NameValidation.sanitizeName (NameValidation.Str s)
  = let k := NameValidation.trim (filter NameValidation.allowed s) in
    if (List.length k <? 1)%nat
    then NameValidation.Throws (NameValidation.ValidationError NameValidation.TooShort)
    else if (20 <? List.length k)%nat
         then NameValidation.Throws
                (NameValidation.ValidationError NameValidation.TooLong)
         else NameValidation.Returns k.
Proof.
  unfold NameValidation.sanitizeName, NameValidation.validateNameLength.
  cbv zeta. rewrite trim_idem.
  destruct (List.length _ <? 1)%nat; [reflexivity |].
  destruct (20 <? List.length _)%nat; reflexivity.
Qed.

Lemma validateAndSanitizeName_Str (s : NameValidation.jsstring) :
  NameValidation.validateAndSanitizeName (NameValidation.Str s)
  = NameValidation.sanitizeName (NameValidation.Str s).
Proof.
  unfold NameValidation.validateAndSanitizeName. cbv zeta.
  rewrite sanitizeName_Str. cbv zeta.
  destruct (List.length _ <? 1)%nat eqn:E1; [reflexivity |].
  destruct (20 <? List.length _)%nat eqn:E2; [reflexivity |].
  unfold NameValidation.validateNameLength. cbv zeta.
  rewrite trim_idem, E1, E2. reflexivity.
Qed.

Lemma sanitizeName_clean (s k : NameValidation.jsstring) :
  NameValidation.sanitizeName (NameValidation.Str s) = NameValidation.Returns k ->
  cleanName k.
Proof.
  rewrite sanitizeName_Str. cbv zeta.
  destruct (List.length _ <? 1)%nat eqn:E1; [discriminate |].
  destruct (20 <? List.length _)%nat eqn:E2; [discriminate |].
  intro H. injection H as <-.
  apply Nat.ltb_ge in E1, E2.
  split; [apply trim_allowed, filter_allowed |].
  split; [apply trim_idem | lia].
Qed.

Lemma clean_is_fixed (s : NameValidation.jsstring) :
  cleanName s ->
  NameValidation.sanitizeName (NameValidation.Str s) = NameValidation.Returns s.
Proof.
  intros (Ha & Ht & Hl). rewrite sanitizeName_Str. cbv zeta.
  rewrite (filter_id s Ha), Ht.
  destruct (Nat.ltb_spec (List.length s) 1); [lia |].
  destruct (Nat.ltb_spec 20 (List.length s)); [lia | reflexivity].
Qed.

(** X24.  A name that [validateAndSanitizeName] returns holds allowed
    characters only (letters, digits, space, hyphen, underscore), has no
    white space at either end and 1 to 20 code units; it passes
    [validateNameLength], and validating it again returns it unchanged. *)
Theorem sanitized_name_is_clean :
  forall (name : NameValidation.value) (s : NameValidation.jsstring),
    NameValidation.validateAndSanitizeName name = NameValidation.Returns s ->
    cleanName s /\
    NameValidation.validateNameLength (NameValidation.Str s)
    = NameValidation.Returns true /\
    NameValidation.validateAndSanitizeName (NameValidation.Str s)
    = NameValidation.Returns s.
Proof.
  intros [s0 |] s; [| discriminate].
  rewrite validateAndSanitizeName_Str. intro H.
  pose proof (sanitizeName_clean s0 s H) as C.
  split; [exact C |]. split.
  - destruct C as (_ & Ht & Hl).
    unfold NameValidation.validateNameLength. cbv zeta. rewrite Ht.
    destruct (Nat.ltb_spec (List.length s) 1); [lia |].
    destruct (Nat.ltb_spec 20 (List.length s)); [lia | reflexivity].
  - rewrite validateAndSanitizeName_Str. apply clean_is_fixed. exact C.
Qed.

(** An instance: [  Ryo<suke!  ] gives [Ryosuke]. *)
Lemma sanitized_name_is_clean_witness :
  NameValidation.validateAndSanitizeName
    (NameValidation.Str [32; 32; 82; 121; 111; 60; 115; 117; 107; 101; 33; 32]%N)
  = NameValidation.Returns [82; 121; 111; 115; 117; 107; 101]%N /\
  cleanName [82; 121; 111; 115; 117; 107; 101]%N.
Proof.
  split; [reflexivity |].
  apply (sanitized_name_is_clean
           (NameValidation.Str
              [32; 32; 82; 121; 111; 60; 115; 117; 107; 101; 33; 32]%N)
           [82; 121; 111; 115; 117; 107; 101]%N).
  reflexivity.
Defined.

(** X25.  [validateAndSanitizeName] does what [sanitizeName] does on
    every input: its second length check never fails and its catch-all
    error is never thrown, so the only messages a caller gets through
    [generateErrorMessage] are the three of the length and type checks.
    On a string the outcome is decided by the number [n] of code units
    left after removing the characters outside the class and trimming:
    too short for [n = 0], too long for [n > 20], and that string
    otherwise; a value that is no string is refused. *)
Theorem validate_and_sanitize_outcomes :
  forall name : NameValidation.value,
    NameValidation.validateAndSanitizeName name
    = NameValidation.sanitizeName name /\
    (forall e : NameValidation.thrown,
        NameValidation.validateAndSanitizeName name = NameValidation.Throws e ->
        (e = NameValidation.ValidationError NameValidation.MustBeString /\
         name = NameValidation.NotStr) \/
        (exists s, name = NameValidation.Str s /\
                   ((e = NameValidation.ValidationError NameValidation.TooShort /\
                     NameValidation.trim (filter NameValidation.allowed s) = []) \/
                    (e = NameValidation.ValidationError NameValidation.TooLong /\
                     (20 < List.length
                             (NameValidation.trim
                                (filter NameValidation.allowed s)))%nat)))) /\
    (forall e : NameValidation.thrown,
        NameValidation.validateAndSanitizeName name = NameValidation.Throws e ->
        NameValidation.generateErrorMessage e <> NameValidation.GenericFailure /\
        NameValidation.generateErrorMessage e <> NameValidation.ProcessingFailed) /\
    (forall s : NameValidation.jsstring,
        NameValidation.validateAndSanitizeName name = NameValidation.Returns s ->
        exists s0, name = NameValidation.Str s0 /\
                   s = NameValidation.trim (filter NameValidation.allowed s0)).
Proof.
  intros [s |].
  - rewrite validateAndSanitizeName_Str. split; [reflexivity |].
    rewrite sanitizeName_Str. cbv zeta.
    destruct (Nat.ltb_spec (List.length
                              (NameValidation.trim
                                 (filter NameValidation.allowed s))) 1)
      as [L1 | L1];
      [| destruct (Nat.ltb_spec 20 (List.length
                                      (NameValidation.trim
                                         (filter NameValidation.allowed s))))
           as [L2 | L2]].
    + split; [| split].
      * intros e H. injection H as <-. right. exists s. split; [reflexivity |].
        left. split; [reflexivity |].
        destruct (NameValidation.trim _); [reflexivity | cbn in L1; lia].
      * intros e H. injection H as <-. split; discriminate.
      * intros s1 H. discriminate.
    + split; [| split].
      * intros e H. injection H as <-. right. exists s. split; [reflexivity |].
        right. split; [reflexivity | exact L2].
      * intros e H. injection H as <-. split; discriminate.
      * intros s1 H. discriminate.
    + split; [| split].
      * intros e H. discriminate.
      * intros e H. discriminate.
      * intros s1 H. injection H as <-. exists s. split; reflexivity.
  - split; [reflexivity |]. split; [| split].
    + intros e H. injection H as <-. left. split; reflexivity.
    + intros e H. injection H as <-. split; discriminate.
    + intros s H. discriminate.
Qed.

(** X26.  The names the validator returns unchanged are exactly the clean
    ones: allowed characters only, no white space at either end, 1 to 20
    code units. *)
Theorem fixed_names_are_the_clean_ones :
  forall s : NameValidation.jsstring,
    NameValidation.validateAndSanitizeName (NameValidation.Str s)
    = NameValidation.Returns s
    <-> cleanName s.
Proof.
  intro s. rewrite validateAndSanitizeName_Str. split.
  - apply sanitizeName_clean.
  - apply clean_is_fixed.
Qed.
